(** * local-sage-bot: the authentication core and the mail queue

    A shallow embedding of [server/auth/AuthenticationSystem.ts] and of the
    queue processor of [server/auth/EmailService.ts].

    Conventions of the embedding.
    - Tables of the relational store are lists of rows, in storage order;
      [findFirst] is [List.find], [update ... where] is a [map] that rewrites
      the matching rows, [delete ... where] keeps the rows that do not match.
    - Timestamps ([Date], [Date.now()]) are milliseconds as [Z].  An
      operation of the authentication system takes one reading of the clock
      as its argument [now]; the rate limiter's two functions take theirs
      separately; the mail queue carries its clock in its state, advanced by
      the time each call to the transport takes.
    - Columns no operation reads or writes ([created_at], [metadata],
      [preferences], [avatar], the template columns of the queue) are left
      out of the rows.
    - Nullable integer columns ([user_id]) are [option Z]; a comparison of a
      column with a value is true only on a non-null column holding it.
    - The in-memory [Map] of login attempts is a [gmap string Attempts].
    - Library calls (bcrypt, jsonwebtoken, speakeasy, crypto.randomBytes, the
      SMTP transport) are parameters of the sections that use them.
    - Console output is not part of the state. *)

From Stdlib Require Import ZArith List String Ascii Bool Lia.
From stdpp Require Import base option list strings gmap.
Import ListNotations.

Local Open Scope string_scope.
Local Open Scope Z_scope.

(** ** Rows of the schema ([shared/schema.ts]) *)

Module User.
Record t := mk {
  id : Z;
  username : string;
  email : string;
  password : string;
  displayName : string;
  role : string;
  isActive : bool
}.
End User.

Module AuthToken.
Record t := mk {
  id : Z;
  userId : option Z;
  token : string;
  type : string;
  expiresAt : Z;
  isUsed : bool
}.
End AuthToken.

Module TwoFA.
Record t := mk {
  id : Z;
  userId : option Z;
  secret : string;
  backupCodes : list string;
  isEnabled : bool;
  lastUsed : option Z
}.
End TwoFA.

Module Session.
Record t := mk {
  id : string;
  userId : option Z;
  expiresAt : Z;
  data : string
}.
End Session.

(** The write statements the authentication system sends to the store. *)
Inductive Write :=
| InsertUser (id : Z)
| UpdateUserPassword (userId : option Z)
| UpdateUserActive (userId : option Z)
| InsertAuthToken (token : string)
| UpdateTokenUsed (token : string)
| DeleteUsedTokens
| UpdateTwoFactorLastUsed (id : Z)
| InsertSession (id : string)
| DeleteUserSessions (userId : option Z)
| DeleteSessionsExpiringAfter (now : Z).

(** The store: the four tables the authentication system touches, the next
    values of the [serial] sequences of the two tables it inserts numbered
    rows into, and, as a ghost field, the write statements executed so far,
    oldest first. *)
Record Db := mkDb {
  users : list User.t;
  authTokens : list AuthToken.t;
  twoFactorAuth : list TwoFA.t;
  sessions : list Session.t;
  userSeq : Z;
  tokenSeq : Z;
  writes : list Write
}.

Definition with_users (w : Write) (d : Db) (l : list User.t) : Db :=
  mkDb l (authTokens d) (twoFactorAuth d) (sessions d) (userSeq d) (tokenSeq d)
       (writes d ++ [w]).
Definition with_authTokens (w : Write) (d : Db) (l : list AuthToken.t) : Db :=
  mkDb (users d) l (twoFactorAuth d) (sessions d) (userSeq d) (tokenSeq d)
       (writes d ++ [w]).
Definition with_twoFactorAuth (w : Write) (d : Db) (l : list TwoFA.t) : Db :=
  mkDb (users d) (authTokens d) l (sessions d) (userSeq d) (tokenSeq d)
       (writes d ++ [w]).
Definition with_sessions (w : Write) (d : Db) (l : list Session.t) : Db :=
  mkDb (users d) (authTokens d) (twoFactorAuth d) l (userSeq d) (tokenSeq d)
       (writes d ++ [w]).

(** [eq(column, value)] on a nullable integer column. *)
Definition col_eq (c : option Z) (v : Z) : bool :=
  match c with
  | Some x => x =? v
  | None => false
  end.

(** [eq(column, value)] where the value itself may be null
    ([authToken.userId!] erases the null only for the type checker). *)
Definition col_eq_nullable (c : option Z) (v : option Z) : bool :=
  match v with
  | Some x => col_eq c x
  | None => false
  end.

(** ** Token ledger *)

(** The [where] clause of [verifyAuthToken]. *)
Definition token_matches (now : Z) (tok ty : string) (r : AuthToken.t) : bool :=
  String.eqb (AuthToken.token r) tok
  && String.eqb (AuthToken.type r) ty
  && negb (AuthToken.isUsed r)
  && (now <? AuthToken.expiresAt r).

Definition verifyAuthToken (now : Z) (d : Db) (tok ty : string)
  : option AuthToken.t :=
  List.find (token_matches now tok ty) (authTokens d).

Definition set_used (r : AuthToken.t) : AuthToken.t :=
  AuthToken.mk (AuthToken.id r) (AuthToken.userId r) (AuthToken.token r)
               (AuthToken.type r) (AuthToken.expiresAt r) true.

Definition markTokenAsUsed (d : Db) (tok : string) : Db :=
  with_authTokens (UpdateTokenUsed tok) d
    (map (fun r => if String.eqb (AuthToken.token r) tok then set_used r else r)
         (authTokens d)).

(** The [unique()] constraint on [auth_tokens.token]. *)
Definition unique_tokens (l : list AuthToken.t) : Prop :=
  List.NoDup (map AuthToken.token l).

(** ** Configuration ([AuthConfig]) *)

Record AuthConfig := mkConfig {
  jwtSecret : string;
  jwtExpiration : string;
  bcryptRounds : Z;
  emailVerificationTtl : Z;
  passwordResetTtl : Z;
  twoFactorTtl : Z;
  loginAttemptsMax : Z;
  timeWindow : Z;
  requireEmailVerification : bool;
  enableTwoFactor : bool;
  sessionTimeout : Z
}.

(** The defaults of the constructor. *)
Definition defaultConfig : AuthConfig :=
  {| jwtSecret := "neurocore-super-secret-key-2024";
     jwtExpiration := "24h";
     bcryptRounds := 12;
     emailVerificationTtl := 24 * 60 * 60 * 1000;
     passwordResetTtl := 60 * 60 * 1000;
     twoFactorTtl := 5 * 60 * 1000;
     loginAttemptsMax := 5;
     timeWindow := 15 * 60 * 1000;
     requireEmailVerification := true;
     enableTwoFactor := false;
     sessionTimeout := 24 * 60 * 60 * 1000 |}.

(** ** Rate limiter (the private [loginAttempts] map) *)

Record Attempts := mkAttempts { count : Z; lastAttempt : Z }.

Definition checkRateLimit (cfg : AuthConfig) (now : Z)
    (m : gmap string Attempts) (identifier : string)
  : bool * gmap string Attempts :=
  match m !! identifier with
  | None => (true, m)
  | Some attempts =>
      if timeWindow cfg <? now - lastAttempt attempts
      then (true, delete identifier m)
      else (count attempts <? loginAttemptsMax cfg, m)
  end.

Definition recordFailedAttempt (now : Z)
    (m : gmap string Attempts) (identifier : string)
  : gmap string Attempts :=
  let attempts := default (mkAttempts 0 now) (m !! identifier) in
  <[identifier := mkAttempts (count attempts + 1) now]> m.

Definition clearRateLimit (m : gmap string Attempts) (identifier : string)
  : gmap string Attempts :=
  delete identifier m.

(** ** Input validation

    A string stands for the sequence of its code units; the model covers
    code units below 256. *)

Definition code (c : ascii) : N := N_of_ascii c.

Definition is_upper (c : ascii) : bool := ((65 <=? code c) && (code c <=? 90))%N.
Definition is_lower (c : ascii) : bool := ((97 <=? code c) && (code c <=? 122))%N.
Definition is_digit (c : ascii) : bool := ((48 <=? code c) && (code c <=? 57))%N.
(** [\w] is [[A-Za-z0-9_]]; [\W] is its complement. *)
Definition is_word (c : ascii) : bool :=
  is_upper c || is_lower c || is_digit c || (code c =? 95)%N.
(** [\s] restricted to code units below 256. *)
Definition is_space (c : ascii) : bool :=
  ((9 <=? code c) && (code c <=? 13) || (code c =? 32) || (code c =? 160))%N.

Definition chars (s : string) : list ascii := list_ascii_of_string s.

Definition validatePassword (password : string) : bool :=
  let minLength := 8%nat in
  let hasUpperCase := existsb is_upper (chars password) in
  let hasLowerCase := existsb is_lower (chars password) in
  let hasNumbers := existsb is_digit (chars password) in
  let hasNonalphas := existsb (fun c => negb (is_word c)) (chars password) in
  (minLength <=? String.length password)%nat
  && hasUpperCase && hasLowerCase && hasNumbers && hasNonalphas.

(** [[^\s@]] *)
Definition is_plain (c : ascii) : bool :=
  negb (is_space c) && negb (code c =? 64)%N.

(** Splits at the first [@]. *)
Fixpoint split_at_sign (l : list ascii) : option (list ascii * list ascii) :=
  match l with
  | [] => None
  | c :: l' =>
      if (code c =? 64)%N then Some ([], l')
      else match split_at_sign l' with
           | Some (a, b) => Some (c :: a, b)
           | None => None
           end
  end.

(** Some [.] of [l] has a character after it. *)
Fixpoint dot_before_end (l : list ascii) : bool :=
  match l with
  | [] => false
  | c :: l' =>
      ((code c =? 46)%N && negb (match l' with [] => true | _ => false end))
      || dot_before_end l'
  end.

(** [/^[^\s@]+@[^\s@]+\.[^\s@]+$/]: a non-empty plain local part, the first
    [@], and a plain domain with a dot that is neither its first nor its last
    character. *)
Definition validateEmail (email : string) : bool :=
  match split_at_sign (chars email) with
  | None => false
  | Some (loc, dom) =>
      negb (match loc with [] => true | _ => false end)
      && forallb is_plain loc
      && forallb is_plain dom
      && match dom with
         | [] => false
         | _ :: dom' => dot_before_end dom'
         end
  end.


(** ** External libraries

    [bcrypt.hash], [bcrypt.compare], [jwt.sign] and [speakeasy.totp.verify]
    are taken as an interface; the clock reading is passed to the two calls
    that depend on the time. *)
Class Libraries := {
  bcrypt_hash : string -> Z -> string;
  bcrypt_compare : string -> string -> bool;
  jwt_sign : User.t -> string -> string -> Z -> string;
  totp_verify : string -> string -> Z -> Z -> bool
}.

(** ** Results *)

Module LoginResult.
Record t := mk {
  success : bool;
  user : option User.t;
  token : option string;
  requiresTwoFactor : option bool;
  twoFactorToken : option string;
  message : string
}.
End LoginResult.

Module RegisterResult.
Record t := mk {
  success : bool;
  user : option User.t;
  token : option string;
  verificationToken : option string;
  message : string
}.
End RegisterResult.

Module OpResult.
Record t := mk { success : bool; message : string }.
End OpResult.

Definition login_failure (msg : string) : LoginResult.t :=
  LoginResult.mk false None None None None msg.

Definition register_failure (msg : string) : RegisterResult.t :=
  RegisterResult.mk false None None None msg.

(** The messages of the source. *)
Definition msg_weak_password : string :=
  "Password must be at least 8 characters long and contain uppercase, lowercase, number, and special character".
Definition msg_bad_email : string := "Please provide a valid email address".
Definition msg_email_taken : string := "An account with this email already exists".
Definition msg_username_taken : string := "This username is already taken".
Definition msg_register_error : string :=
  "An error occurred during registration. Please try again.".
Definition msg_register_verify : string :=
  "Account created successfully. Please check your email to verify your account.".
Definition msg_register_welcome : string :=
  "Account created successfully. Welcome to NeuroCore AI!".
Definition msg_rate_limited : string :=
  "Too many login attempts. Please try again later.".
Definition msg_invalid_credentials : string := "Invalid email or password".
Definition msg_not_activated : string :=
  "Account is not activated. Please check your email for verification instructions.".
Definition msg_two_factor_required : string := "Two-factor authentication required".
Definition msg_two_factor_token : string := "Invalid or expired two-factor token".
Definition msg_two_factor_code : string := "Invalid two-factor authentication code".
Definition msg_login_ok : string := "Login successful".
Definition msg_login_error : string :=
  "An error occurred during login. Please try again.".
Definition msg_verify_invalid : string := "Invalid or expired verification token".
Definition msg_verify_ok : string :=
  "Email verified successfully. Your account is now active.".
Definition msg_reset_requested : string :=
  "If an account with this email exists, you will receive password reset instructions.".
Definition msg_reset_request_error : string :=
  "An error occurred while processing your request".
Definition msg_reset_invalid : string := "Invalid or expired reset token".
Definition msg_reset_ok : string :=
  "Password reset successfully. Please log in with your new password.".

(** ** The authentication system *)

(** The state of an [AuthenticationSystem]: the store and the private map. *)
Record Sys := mkSys {
  db : Db;
  loginAttempts : gmap string Attempts
}.

(** [!x] on an optional string: undefined and the empty string are falsy. *)
Definition falsy (o : option string) : bool :=
  match o with
  | None => true
  | Some s => String.eqb s ""
  end.

Definition findUserByEmail (d : Db) (e : string) : option User.t :=
  List.find (fun u => String.eqb (User.email u) e) (users d).

Definition findUserByUsername (d : Db) (n : string) : option User.t :=
  List.find (fun u => String.eqb (User.username u) n) (users d).

(** [findFirst] on [twoFactorAuth] by user and [isEnabled] flag. *)
Definition findTwoFactor (d : Db) (uid : Z) (enabled : bool) : option TwoFA.t :=
  List.find (fun r => col_eq (TwoFA.userId r) uid
                      && Bool.eqb (TwoFA.isEnabled r) enabled)
            (twoFactorAuth d).

Definition set_password (h : string) (u : User.t) : User.t :=
  User.mk (User.id u) (User.username u) (User.email u) h
          (User.displayName u) (User.role u) (User.isActive u).

Definition set_active (u : User.t) : User.t :=
  User.mk (User.id u) (User.username u) (User.email u) (User.password u)
          (User.displayName u) (User.role u) true.

Definition set_lastUsed (now : Z) (r : TwoFA.t) : TwoFA.t :=
  TwoFA.mk (TwoFA.id r) (TwoFA.userId r) (TwoFA.secret r)
           (TwoFA.backupCodes r) (TwoFA.isEnabled r) (Some now).

(** [db.update(users).set({ password }).where(eq(users.id, uid))] *)
Definition updateUserPassword (d : Db) (uid : option Z) (h : string) : Db :=
  with_users (UpdateUserPassword uid) d
    (map (fun u => if col_eq_nullable (Some (User.id u)) uid
                   then set_password h u else u)
         (users d)).

(** [db.update(users).set({ isActive: true }).where(eq(users.id, uid))] *)
Definition activateUser (d : Db) (uid : option Z) : Db :=
  with_users (UpdateUserActive uid) d
    (map (fun u => if col_eq_nullable (Some (User.id u)) uid
                   then set_active u else u)
         (users d)).

Definition touchTwoFactor (now : Z) (d : Db) (id : Z) : Db :=
  with_twoFactorAuth (UpdateTwoFactorLastUsed id) d
    (map (fun r => if TwoFA.id r =? id then set_lastUsed now r else r)
         (twoFactorAuth d)).

(** [generateAuthToken]: [rnd] is the hexadecimal string drawn from
    [crypto.randomBytes(32)].  The insert is rejected when the value is
    already stored ([token] is [unique()]); [None] is the thrown error. *)
Definition generateAuthToken (now : Z) (rnd : string) (d : Db)
    (userId : Z) (type : string) (expiresIn : Z) : option (string * Db) :=
  let token := rnd in
  let expiresAt := now + expiresIn in
  if existsb (fun r => String.eqb (AuthToken.token r) token) (authTokens d)
  then None
  else Some (token,
             mkDb (users d)
                  (authTokens d ++
                     [AuthToken.mk (tokenSeq d) (Some userId) token type
                                   expiresAt false])
                  (twoFactorAuth d) (sessions d) (userSeq d) (tokenSeq d + 1)
                  (writes d ++ [InsertAuthToken token])).

(** [createSession]: [rnd] is the drawn session id, a primary key. *)
Definition createSession (cfg : AuthConfig) (now : Z) (rnd : string) (d : Db)
    (userId : Z) (token : string) : option Db :=
  let sessionId := rnd in
  let expiresAt := now + sessionTimeout cfg in
  if existsb (fun s => String.eqb (Session.id s) sessionId) (sessions d)
  then None
  else Some (with_sessions (InsertSession sessionId) d
               (sessions d ++ [Session.mk sessionId (Some userId) expiresAt token])).

Definition invalidateUserSessions (d : Db) (userId : option Z) : Db :=
  with_sessions (DeleteUserSessions userId) d
    (List.filter (fun s => negb (col_eq_nullable (Session.userId s) userId))
                 (sessions d)).

Section Operations.
Context {L : Libraries} (cfg : AuthConfig).

Definition generateJWT (now : Z) (user : User.t) : string :=
  jwt_sign user (jwtSecret cfg) (jwtExpiration cfg) now.

(** [register].  The row of the new user takes the next value of the
    sequence; [role] takes the default of its column. *)
Definition register (now : Z) (rnd : string) (d : Db)
    (username email password : string) (displayName : option string)
  : RegisterResult.t * Db :=
  if negb (validatePassword password) then
    (register_failure msg_weak_password, d)
  else if negb (validateEmail email) then
    (register_failure msg_bad_email, d)
  else match findUserByEmail d email with
  | Some _ => (register_failure msg_email_taken, d)
  | None =>
  match findUserByUsername d username with
  | Some _ => (register_failure msg_username_taken, d)
  | None =>
    let hashedPassword := bcrypt_hash password (bcryptRounds cfg) in
    let user :=
      User.mk (userSeq d) username email hashedPassword
              (if falsy displayName then username else default "" displayName)
              "user"
              (negb (requireEmailVerification cfg)) in
    let d1 :=
      mkDb (users d ++ [user]) (authTokens d) (twoFactorAuth d) (sessions d)
           (userSeq d + 1) (tokenSeq d)
           (writes d ++ [InsertUser (User.id user)]) in
    let token := generateJWT now user in
    if requireEmailVerification cfg then
      match generateAuthToken now rnd d1 (User.id user) "email_verification"
                              (emailVerificationTtl cfg) with
      | None => (register_failure msg_register_error, d1)
      | Some (verificationToken, d2) =>
          (RegisterResult.mk true (Some user) (Some token)
                             (Some verificationToken) msg_register_verify,
           d2)
      end
    else
      (RegisterResult.mk true (Some user) (Some token) None
                         msg_register_welcome,
       d1)
  end end.

(** [login] *)
Definition login (now : Z) (rnd : string) (s : Sys)
    (email password : string) (twoFactorCode twoFactorToken : option string)
  : LoginResult.t * Sys :=
  let '(allowed, m) := checkRateLimit cfg now (loginAttempts s) email in
  let d := db s in
  if negb allowed then
    (login_failure msg_rate_limited, mkSys d m)
  else match findUserByEmail d email with
  | None =>
      (login_failure msg_invalid_credentials,
       mkSys d (recordFailedAttempt now m email))
  | Some user =>
    if negb (User.isActive user) then
      (login_failure msg_not_activated, mkSys d m)
    else if negb (bcrypt_compare password (User.password user)) then
      (login_failure msg_invalid_credentials,
       mkSys d (recordFailedAttempt now m email))
    else
      let finish (d' : Db) : LoginResult.t * Sys :=
        let token := generateJWT now user in
        match createSession cfg now rnd d' (User.id user) token with
        | None => (login_failure msg_login_error, mkSys d' m)
        | Some d'' =>
            (LoginResult.mk true (Some user) (Some token) None None msg_login_ok,
             mkSys d'' (clearRateLimit m email))
        end in
      match findTwoFactor d (User.id user) true with
      | None => finish d
      | Some userTwoFactor =>
        if falsy twoFactorCode || falsy twoFactorToken then
          match generateAuthToken now rnd d (User.id user) "2fa"
                                  (twoFactorTtl cfg) with
          | None => (login_failure msg_login_error, mkSys d m)
          | Some (tfToken, d') =>
              (LoginResult.mk false None None (Some true) (Some tfToken)
                              msg_two_factor_required,
               mkSys d' m)
          end
        else
          let tfToken := default "" twoFactorToken in
          let tfCode := default "" twoFactorCode in
          match verifyAuthToken now d tfToken "2fa" with
          | None => (login_failure msg_two_factor_token, mkSys d m)
          | Some tokenValid =>
            if negb (col_eq (AuthToken.userId tokenValid) (User.id user)) then
              (login_failure msg_two_factor_token, mkSys d m)
            else if negb (totp_verify (TwoFA.secret userTwoFactor) tfCode 2 now)
            then (login_failure msg_two_factor_code, mkSys d m)
            else
              finish (touchTwoFactor now (markTokenAsUsed d tfToken)
                                     (TwoFA.id userTwoFactor))
          end
      end
  end.

(** [verifyEmail] *)
Definition verifyEmail (now : Z) (d : Db) (token : string) : OpResult.t * Db :=
  match verifyAuthToken now d token "email_verification" with
  | None => (OpResult.mk false msg_verify_invalid, d)
  | Some authToken =>
      let d1 := activateUser d (AuthToken.userId authToken) in
      let d2 := markTokenAsUsed d1 token in
      (OpResult.mk true msg_verify_ok, d2)
  end.

(** [requestPasswordReset] *)
Definition requestPasswordReset (now : Z) (rnd : string) (d : Db)
    (email : string) : OpResult.t * Db :=
  match findUserByEmail d email with
  | None => (OpResult.mk true msg_reset_requested, d)
  | Some user =>
      match generateAuthToken now rnd d (User.id user) "password_reset"
                              (passwordResetTtl cfg) with
      | None => (OpResult.mk false msg_reset_request_error, d)
      | Some (resetToken, d') => (OpResult.mk true msg_reset_requested, d')
      end
  end.

(** [resetPassword] *)
Definition resetPassword (now : Z) (d : Db) (token newPassword : string)
  : OpResult.t * Db :=
  if negb (validatePassword newPassword) then
    (OpResult.mk false msg_weak_password, d)
  else match verifyAuthToken now d token "password_reset" with
  | None => (OpResult.mk false msg_reset_invalid, d)
  | Some authToken =>
      let hashedPassword := bcrypt_hash newPassword (bcryptRounds cfg) in
      let d1 := updateUserPassword d (AuthToken.userId authToken) hashedPassword in
      let d2 := markTokenAsUsed d1 token in
      let d3 := invalidateUserSessions d2 (AuthToken.userId authToken) in
      (OpResult.mk true msg_reset_ok, d3)
  end.

End Operations.

(** The body of the hourly task of [setupCleanupTasks]: the two deletes, in
    order.  [oneDayAgo] is computed by the source and not used. *)
Definition cleanupTokens (d : Db) : Db :=
  with_authTokens DeleteUsedTokens d
    (List.filter (fun r => negb (Bool.eqb (AuthToken.isUsed r) true))
                 (authTokens d)).

Definition cleanupSessions (now : Z) (d : Db) : Db :=
  with_sessions (DeleteSessionsExpiringAfter now) d
    (List.filter (fun s => negb (now <? Session.expiresAt s)) (sessions d)).

Definition cleanup (now : Z) (d : Db) : Db :=
  cleanupSessions now (cleanupTokens d).

(** ** The mail queue ([EmailService.ts])

    The part of [EmailConfig] the processor reads, the rows of [email_queue]
    with the columns the processor reads or writes, and the transport. *)

Record EmailConfig := mkEmailConfig {
  maxAttempts : Z;
  delay : Z;
  processInterval : Z;
  batchSize : Z
}.

Definition defaultEmailConfig : EmailConfig :=
  {| maxAttempts := 3;
     delay := 5 * 60 * 1000;
     processInterval := 30 * 1000;
     batchSize := 10 |}.

Module QueuedEmail.
Record t := mk {
  id : Z;
  to : string;
  from : string;
  subject : string;
  htmlContent : option string;
  textContent : option string;
  status : string;
  attempts : Z;
  lastAttempt : option Z;
  error : option string;
  sentAt : option Z
}.
End QueuedEmail.

(** What one call of [transporter.sendMail] does: it resolves with a message
    id or throws with an error message, after some time has passed. *)
Record SendOutcome := mkOutcome {
  delivered : bool;
  detail : string;
  elapsed : Z
}.

(** One call of [sendMail], as the transport saw it: the row handed to it
    and the time of the call. *)
Record Delivery := mkDelivery {
  d_email : QueuedEmail.t;
  d_time : Z
}.

(** The state of an [EmailService]: the table, the clock, the flag
    [isProcessing] and the calls made to the transport so far. *)
Record MailState := mkMail {
  queue : list QueuedEmail.t;
  clock : Z;
  isProcessing : bool;
  outbox : list Delivery
}.

(** The transport answers its n-th call with [transport n]. *)
Definition Transport := nat -> SendOutcome.

Definition set_status (st : string) (e : QueuedEmail.t) : QueuedEmail.t :=
  QueuedEmail.mk (QueuedEmail.id e) (QueuedEmail.to e) (QueuedEmail.from e)
    (QueuedEmail.subject e) (QueuedEmail.htmlContent e) (QueuedEmail.textContent e)
    st (QueuedEmail.attempts e) (QueuedEmail.lastAttempt e) (QueuedEmail.error e)
    (QueuedEmail.sentAt e).

Definition set_sent (now : Z) (e : QueuedEmail.t) : QueuedEmail.t :=
  QueuedEmail.mk (QueuedEmail.id e) (QueuedEmail.to e) (QueuedEmail.from e)
    (QueuedEmail.subject e) (QueuedEmail.htmlContent e) (QueuedEmail.textContent e)
    "sent" (QueuedEmail.attempts e) (QueuedEmail.lastAttempt e) (QueuedEmail.error e)
    (Some now).

Definition set_failed (n : Z) (now : Z) (err : string) (e : QueuedEmail.t)
  : QueuedEmail.t :=
  QueuedEmail.mk (QueuedEmail.id e) (QueuedEmail.to e) (QueuedEmail.from e)
    (QueuedEmail.subject e) (QueuedEmail.htmlContent e) (QueuedEmail.textContent e)
    "failed" n (Some now) (Some err) (QueuedEmail.sentAt e).

(** [db.update(emailQueue).set(...).where(eq(emailQueue.id, id))] *)
Definition updateEmail (f : QueuedEmail.t -> QueuedEmail.t) (id : Z)
    (q : list QueuedEmail.t) : list QueuedEmail.t :=
  map (fun e => if QueuedEmail.id e =? id then f e else e) q.

(** [findMany] with a status and a limit.  The query builder writes the
    [LIMIT] clause for a limit of 0 or more and leaves it out for a negative
    one, so a negative limit fetches every matching row.  SQL leaves the
    order of a fetch without [ORDER BY] to the store; the model fetches in
    the order of the table, and the properties below use the fetch through
    the membership of its rows and the bound on its length only. *)
Definition findByStatus (st : string) (limit : Z) (q : list QueuedEmail.t)
  : list QueuedEmail.t :=
  let matching := List.filter (fun e => String.eqb (QueuedEmail.status e) st) q in
  if limit <? 0 then matching else take (Z.to_nat limit) matching.

Section Processor.
Context (cfg : EmailConfig) (transport : Transport).

(** [processEmail]: [email] is the row as it was fetched. *)
Definition processEmail (s : MailState) (email : QueuedEmail.t) : MailState :=
  let q1 := updateEmail (set_status "sending") (QueuedEmail.id email) (queue s) in
  let out := transport (List.length (outbox s)) in
  let box := (outbox s ++ [mkDelivery email (clock s)])%list in
  let now := clock s + elapsed out in
  if delivered out then
    mkMail (updateEmail (set_sent now) (QueuedEmail.id email) q1)
           now (isProcessing s) box
  else
    mkMail (updateEmail (set_failed (QueuedEmail.attempts email + 1) now (detail out))
                        (QueuedEmail.id email) q1)
           now (isProcessing s) box.

(** The test of the retry loop on a fetched row, at the current clock. *)
Definition retryDue (now : Z) (email : QueuedEmail.t) : bool :=
  (QueuedEmail.attempts email <? maxAttempts cfg)
  && match QueuedEmail.lastAttempt email with
     | Some t => delay cfg <=? now - t
     | None => true
     end.

Definition retryStep (s : MailState) (email : QueuedEmail.t) : MailState :=
  if retryDue (clock s) email then processEmail s email else s.

Definition set_processing (b : bool) (s : MailState) : MailState :=
  mkMail (queue s) (clock s) b (outbox s).

(** [processEmailQueue] *)
Definition processEmailQueue (s : MailState) : MailState :=
  let s0 := set_processing true s in
  let pendingEmails := findByStatus "pending" (batchSize cfg) (queue s0) in
  let s1 := fold_left processEmail pendingEmails s0 in
  let retryEmails := findByStatus "failed" (batchSize cfg) (queue s1) in
  let s2 := fold_left retryStep retryEmails s1 in
  set_processing false s2.

(** One firing of the interval of [startQueueProcessor], at time [t]. *)
Definition tick (s : MailState) (t : Z) : MailState :=
  let s' := mkMail (queue s) t (isProcessing s) (outbox s) in
  if negb (isProcessing s') then processEmailQueue s' else s'.

(** The processor over a sequence of firing times. *)
Definition runProcessor (times : list Z) (s : MailState) : MailState :=
  fold_left tick times s.

End Processor.

(** Vocabulary for the properties of the processor. *)

Definition ids (q : list QueuedEmail.t) : list Z := map QueuedEmail.id q.

(** A row that has used up its attempts. *)
Definition exhausted (cfg : EmailConfig) (r : QueuedEmail.t) : Prop :=
  QueuedEmail.status r = "failed" /\ maxAttempts cfg <= QueuedEmail.attempts r.

(** The step both loops of [processEmailQueue] are instances of: the row is
    handed to [processEmail] when the guard holds at the current clock. *)
Definition guardedStep (transport : Transport) (g : Z -> QueuedEmail.t -> bool)
    (s : MailState) (email : QueuedEmail.t) : MailState :=
  if g (clock s) email then processEmail transport s email else s.

(** ** Concrete states

    Small stores and inputs on which the properties below are evaluated. *)

Definition alice : User.t :=
  User.mk 7 "alice" "a@x.com" "hash:Str0ng!Pass" "alice" "user" true.

Definition bob : User.t :=
  User.mk 8 "bob" "b@x.com" "hash:B0b!Secret" "bob" "user" true.

Definition reset_token : AuthToken.t :=
  AuthToken.mk 1 (Some 7) "abc123" "password_reset" 5000 false.

Definition alice_session : Session.t := Session.mk "s-alice" (Some 7) 90000 "jwt-a".
Definition bob_session : Session.t := Session.mk "s-bob" (Some 8) 90000 "jwt-b".

Definition sample_db : Db :=
  mkDb [alice; bob] [reset_token] [] [alice_session; bob_session] 9 2 [].

(** Three failures recorded at time 0 for one identifier. *)
Definition stale_attempts : gmap string Attempts :=
  {[ "a@x.com" := mkAttempts 3 0 ]}.

(** A stand-in for the libraries: the hash of a password is the password
    behind a prefix, a signed token names its user, and a one-time code
    verifies when it equals the secret. *)
Definition toy_libraries : Libraries :=
  {| bcrypt_hash := fun pw _ => String.append "hash:" pw;
     bcrypt_compare := fun pw h => String.eqb (String.append "hash:" pw) h;
     jwt_sign := fun u _ _ _ => String.append "jwt:" (User.username u);
     totp_verify := fun secret tok _ _ => String.eqb secret tok |}.

(** An account that has not verified its email. *)
Definition carol : User.t :=
  User.mk 9 "carol" "c@x.com" "hash:Car0l!Pass" "carol" "user" false.

Definition alice_two_factor : TwoFA.t :=
  TwoFA.mk 1 (Some 7) "SECRET" [] true None.

Definition bob_challenge : AuthToken.t :=
  AuthToken.mk 2 (Some 8) "chal-bob" "2fa" 5000 false.

(** A store where alice has two-factor authentication enabled, carol is
    inactive and bob holds an open two-factor challenge. *)
Definition two_factor_db : Db :=
  mkDb [alice; bob; carol] [reset_token; bob_challenge] [alice_two_factor]
       [] 10 3 [].

Definition two_factor_sys : Sys := mkSys two_factor_db ∅.

(** The same store once alice has been handed a challenge of her own. *)
Definition alice_challenge : AuthToken.t :=
  AuthToken.mk 3 (Some 7) "chal-alice" "2fa" 5000 false.

Definition challenge_sys : Sys :=
  mkSys (mkDb [alice; bob; carol] [reset_token; bob_challenge; alice_challenge]
              [alice_two_factor] [] 10 4 [])
        ∅.

(** A queue with a pending row, a failed row that has one attempt left and a
    failed row that has none. *)
Definition mail_pending : QueuedEmail.t :=
  QueuedEmail.mk 1 "a@x.com" "noreply@neurocore.ai" "Welcome" None None
                 "pending" 0 None None None.
Definition mail_retry : QueuedEmail.t :=
  QueuedEmail.mk 2 "b@x.com" "noreply@neurocore.ai" "Reset" None None
                 "failed" 2 (Some 0) (Some "timeout") None.
Definition mail_dead : QueuedEmail.t :=
  QueuedEmail.mk 3 "c@x.com" "noreply@neurocore.ai" "Verify" None None
                 "failed" 3 (Some 0) (Some "timeout") None.

Definition sample_mail : MailState :=
  mkMail [mail_pending; mail_retry; mail_dead] 0 false [].

(** A transport that is down: every call throws after 20 ms. *)
Definition transport_down : Transport :=
  fun _ => mkOutcome false "connection refused" 20.

(** ** Two-factor enrolment ([setupTwoFactor], [enableTwoFactor])

    The id of the inserted row is the value its [serial] sequence hands out,
    an argument here.  The journal [writes] lists the statements of the
    operations above; the two statements of the enrolment are not among its
    constructors and leave it as it is.  The module keeps the name
    [enableTwoFactor] apart from the configuration flag of that name. *)

Module SetupResult.
Record t := mk {
  success : bool;
  secret : option string;
  qrCode : option string;
  backupCodes : option (list string);
  message : string
}.
End SetupResult.

Definition msg_two_factor_already : string :=
  "Two-factor authentication is already enabled for this account".
Definition msg_two_factor_setup_error : string :=
  "An error occurred while setting up two-factor authentication".
Definition msg_two_factor_initiated : string :=
  "Two-factor authentication setup initiated. Please verify with your authenticator app.".
Definition msg_two_factor_no_setup : string :=
  "Two-factor authentication setup not found. Please start setup again.".
Definition msg_two_factor_bad_code : string :=
  "Invalid verification code. Please try again.".
Definition msg_two_factor_enabled : string :=
  "Two-factor authentication enabled successfully".

(** [String.prototype.toUpperCase] on code units below 128. *)
Definition upper_char (c : ascii) : ascii :=
  if is_lower c then ascii_of_N (code c - 32) else c.

Definition toUpperCase (s : string) : string :=
  string_of_list_ascii (map upper_char (chars s)).

Definition set_enabled (r : TwoFA.t) : TwoFA.t :=
  TwoFA.mk (TwoFA.id r) (TwoFA.userId r) (TwoFA.secret r)
           (TwoFA.backupCodes r) true (TwoFA.lastUsed r).

Module Enrolment.

(** [two_factor_auth.user_id] references [users.id]: a row can be inserted
    for the id of a stored user only. *)
Definition userExists (d : Db) (userId : Z) : bool :=
  existsb (fun u => User.id u =? userId) (users d).

(** [setupTwoFactor]: [secret] is the base32 secret of
    [speakeasy.generateSecret], [qr] the data URL made from its otpauth URL,
    [hex i] the i-th draw of [crypto.randomBytes(4).toString('hex')].  The
    insert throws when no user has the id (the foreign key), and the catch
    block returns the error result. *)
Definition setupTwoFactor (newId : Z) (secret qr : string) (hex : nat -> string)
    (d : Db) (userId : Z) : SetupResult.t * Db :=
  match findTwoFactor d userId true with
  | Some _ => (SetupResult.mk false None None None msg_two_factor_already, d)
  | None =>
      let backupCodes := map (fun i => toUpperCase (hex i)) (seq 0 8) in
      if userExists d userId then
        (SetupResult.mk true (Some secret) (Some qr) (Some backupCodes)
                        msg_two_factor_initiated,
         mkDb (users d) (authTokens d)
              (twoFactorAuth d ++
                 [TwoFA.mk newId (Some userId) secret backupCodes false None])
              (sessions d) (userSeq d) (tokenSeq d) (writes d))
      else
        (SetupResult.mk false None None None msg_two_factor_setup_error, d)
  end.

Section TwoFactorEnrolment.
Context {L : Libraries}.

(** [enableTwoFactor] *)
Definition enableTwoFactor (now : Z) (d : Db) (userId : Z)
    (verificationCode : string) : OpResult.t * Db :=
  match findTwoFactor d userId false with
  | None => (OpResult.mk false msg_two_factor_no_setup, d)
  | Some twoFA =>
      if negb (totp_verify (TwoFA.secret twoFA) verificationCode 2 now) then
        (OpResult.mk false msg_two_factor_bad_code, d)
      else
        (OpResult.mk true msg_two_factor_enabled,
         mkDb (users d) (authTokens d)
              (map (fun r => if TwoFA.id r =? TwoFA.id twoFA
                             then set_enabled r else r)
                   (twoFactorAuth d))
              (sessions d) (userSeq d) (tokenSeq d) (writes d))
  end.

End TwoFactorEnrolment.

End Enrolment.

(** ** Templates and the sending side of the mail queue *)

Module EmailTemplate.
Record t := mk {
  id : Z;
  name : string;
  subject : string;
  htmlContent : string;
  textContent : string;
  isActive : bool
}.
End EmailTemplate.

(** [from] of [EmailConfig]. *)
Record FromConfig := mkFrom { fromName : string; fromAddress : string }.

Record EmailData := mkEmailData {
  ed_to : string;
  ed_subject : string;
  ed_html : option string;
  ed_text : option string
}.

(** The longest run of [\w] characters at the head of a list, and the rest. *)
Fixpoint word_run (l : list ascii) : list ascii * list ascii :=
  match l with
  | c :: l' =>
      if is_word c
      then let '(w, rest) := word_run l' in (c :: w, rest)
      else ([], l)
  | [] => ([], [])
  end.

Definition is_open (c : ascii) : bool := (code c =? 123)%N.
Definition is_close (c : ascii) : bool := (code c =? 125)%N.

(** A match of [\{\{(\w+)\}\}] at the head of a list: the key and what
    follows the match. *)
Definition match_placeholder (l : list ascii)
  : option (list ascii * list ascii) :=
  match l with
  | o1 :: o2 :: l1 =>
      if is_open o1 && is_open o2 then
        match word_run l1 with
        | (k :: key, c1 :: c2 :: rest) =>
            if is_close c1 && is_close c2 then Some (k :: key, rest) else None
        | _ => None
        end
      else None
  | _ => None
  end.

(** [data[key]]: an own property of the object, else one inherited from its
    prototype; values are given as [String(...)] renders them. *)
Definition getProperty (inherited data : gmap string string) (key : string)
  : option string :=
  match data !! key with
  | Some v => Some v
  | None => inherited !! key
  end.

(** [template.replace(/\{\{(\w+)\}\}/g, ...)] on the code units: the scan
    goes from left to right; [skip] counts the characters of a match still to
    be passed over. *)
Fixpoint replace_placeholders (inherited data : gmap string string)
    (skip : nat) (l : list ascii) : list ascii :=
  match l with
  | [] => []
  | c :: l' =>
      match skip with
      | S k => replace_placeholders inherited data k l'
      | O =>
          match match_placeholder (c :: l') with
          | Some (key, _) =>
              let matched := take (List.length key + 4) (c :: l') in
              (match getProperty inherited data (string_of_list_ascii key) with
               | Some v => chars v
               | None => matched
               end
               ++ replace_placeholders inherited data (List.length key + 3) l')%list
          | None => c :: replace_placeholders inherited data 0 l'
          end
      end
  end.

Definition processTemplate (inherited : gmap string string) (template : string)
    (data : gmap string string) : string :=
  string_of_list_ascii (replace_placeholders inherited data 0 (chars template)).

(** [queueEmail]: [newId] is the value of the sequence of [email_queue]. *)
Definition queueEmail (from : FromConfig) (newId : Z) (s : MailState)
    (emailData : EmailData) : bool * MailState :=
  (true,
   mkMail (queue s ++
             [QueuedEmail.mk newId (ed_to emailData)
                (String.append (fromName from)
                   (String.append " <" (String.append (fromAddress from) ">")))
                (ed_subject emailData) (ed_html emailData) (ed_text emailData)
                "pending" 0 None None None])
          (clock s) (isProcessing s) (outbox s)).

(** [sendTemplateEmail] *)
Definition sendTemplateEmail (inherited : gmap string string)
    (templates : list EmailTemplate.t) (from : FromConfig) (newId : Z)
    (s : MailState) (templateName to : string) (data : gmap string string)
  : bool * MailState :=
  match List.find (fun t => String.eqb (EmailTemplate.name t) templateName
                            && Bool.eqb (EmailTemplate.isActive t) true)
                  templates with
  | None => (false, s)
  | Some template =>
      let subject := processTemplate inherited (EmailTemplate.subject template) data in
      let html := processTemplate inherited (EmailTemplate.htmlContent template) data in
      let text := processTemplate inherited (EmailTemplate.textContent template) data in
      queueEmail from newId s (mkEmailData to subject (Some html) (Some text))
  end.

(** [getQueueStats] *)
Record QueueStats := mkStats {
  st_pending : nat;
  st_failed : nat;
  st_sent : nat;
  st_processing : bool
}.

Definition countStatus (st : string) (q : list QueuedEmail.t) : nat :=
  List.length (List.filter (fun e => String.eqb (QueuedEmail.status e) st) q).

Definition getQueueStats (s : MailState) : QueueStats :=
  mkStats (countStatus "pending" (queue s)) (countStatus "failed" (queue s))
          (countStatus "sent" (queue s)) (isProcessing s).

(** [seedEmailTemplates]: [defaults] are the templates written out in the
    source (the column [variables] left out); a default is inserted, active,
    under the next id of the sequence when no row has its name. *)
Record TemplateSeed := mkSeed {
  seed_name : string;
  seed_subject : string;
  seed_html : string;
  seed_text : string
}.

Definition findTemplateByName (table : list EmailTemplate.t) (n : string)
  : option EmailTemplate.t :=
  List.find (fun x => String.eqb (EmailTemplate.name x) n) table.

Fixpoint seedEmailTemplates (defaults : list TemplateSeed) (nextId : Z)
    (table : list EmailTemplate.t) : list EmailTemplate.t * Z :=
  match defaults with
  | [] => (table, nextId)
  | template :: rest =>
      match findTemplateByName table (seed_name template) with
      | Some _ => seedEmailTemplates rest nextId table
      | None =>
          seedEmailTemplates rest (nextId + 1)
            (table ++ [EmailTemplate.mk nextId (seed_name template)
                         (seed_subject template) (seed_html template)
                         (seed_text template) true])
      end
  end.

(** Vocabulary for sequences of logins: the times [ts] follow [t0] with no
    gap longer than [w]. *)
Fixpoint gaps_within (w t0 : Z) (ts : list Z) : Prop :=
  match ts with
  | [] => True
  | t :: ts' => t - t0 <= w /\ gaps_within w t ts'
  end.

(** The credentials of a login are bad: no user has the email, or the user
    is active and the password does not compare. *)
Definition bad_credentials {L : Libraries} (d : Db) (email pw : string) : Prop :=
  findUserByEmail d email = None
  \/ exists u, findUserByEmail d email = Some u /\ User.isActive u = true
               /\ bcrypt_compare pw (User.password u) = false.

(** ** Further concrete states *)

Definition carol_verification : AuthToken.t :=
  AuthToken.mk 4 (Some 9) "ver-carol" "email_verification" 90000 false.

(** The store of the two-factor examples with an open verification token of
    carol. *)
Definition verification_db : Db :=
  mkDb [alice; bob; carol] [reset_token; bob_challenge; carol_verification]
       [alice_two_factor] [] 10 5 [].

Definition mail_sent : QueuedEmail.t :=
  QueuedEmail.mk 4 "d@x.com" "noreply@neurocore.ai" "Welcome" None None
                 "sent" 0 None None (Some 100).

(** A queue with a sent row, a failed row that is due and a pending row. *)
Definition delivered_mail : MailState :=
  mkMail [mail_sent; mail_retry; mail_pending] 0 false [].

(** A transport that takes every message, in 20 ms. *)
Definition transport_up : Transport :=
  fun _ => mkOutcome true "250 OK" 20.

Definition welcome_template : EmailTemplate.t :=
  EmailTemplate.mk 3 "welcome" "Welcome, {{name}}!" "<p>Hi {{name}}</p>"
                   "Hi {{name}}, start at {{dashboardUrl}}" true.

Definition neurocore_from : FromConfig :=
  mkFrom "NeuroCore AI" "noreply@neurocore.ai".

(** * Properties *)

(** ** Input validation on concrete inputs *)

Example validatePassword_strong : validatePassword "Str0ng!Pass" = true.
Proof. reflexivity. Qed.

Example validatePassword_no_symbol : validatePassword "Str0ngPass" = false.
Proof. reflexivity. Qed.

Example validateEmail_ok : validateEmail "a@x.com" = true.
Proof. reflexivity. Qed.

Example validateEmail_no_dot : validateEmail "a@xcom" = false.
Proof. reflexivity. Qed.

Example validateEmail_trailing_dot : validateEmail "a@x." = false.
Proof. reflexivity. Qed.

(** ** Token ledger: lemmas *)

Lemma token_matches_spec now tok ty r :
  token_matches now tok ty r = true <->
  AuthToken.token r = tok /\ AuthToken.type r = ty /\
  AuthToken.isUsed r = false /\ now < AuthToken.expiresAt r.
Proof.
  unfold token_matches.
  rewrite !andb_true_iff, !String.eqb_eq, negb_true_iff, Z.ltb_lt.
  tauto.
Qed.

Lemma find_unique_token (P : AuthToken.t -> bool) l r tok :
  unique_tokens l ->
  In r l -> AuthToken.token r = tok -> P r = true ->
  (forall x, P x = true -> AuthToken.token x = tok) ->
  List.find P l = Some r.
Proof.
  unfold unique_tokens.
  induction l as [|a l IH]; simpl; intros Hnd Hin Htok HP Hall; [tauto|].
  apply NoDup_cons_iff in Hnd as [Hnotin Hnd].
  destruct (P a) eqn:Ea.
  - destruct Hin as [->|Hin]; [reflexivity|].
    exfalso. apply Hnotin.
    rewrite (Hall a Ea), <- Htok. now apply in_map.
  - destruct Hin as [->|Hin]; [congruence|].
    now apply IH.
Qed.

Lemma find_none_iff {A} (P : A -> bool) l :
  List.find P l = None <-> (forall x, In x l -> P x = false).
Proof.
  split.
  - apply find_none.
  - induction l as [|a l IH]; simpl; intros H; [reflexivity|].
    rewrite (H a (or_introl eq_refl)). apply IH. intros x Hx. apply H. now right.
Qed.

Lemma markTokenAsUsed_kills now d tok ty :
  verifyAuthToken now (markTokenAsUsed d tok) tok ty = None.
Proof.
  unfold verifyAuthToken, markTokenAsUsed; simpl.
  apply find_none_iff. intros x Hx.
  apply in_map_iff in Hx as [r [<- _]].
  unfold token_matches.
  destruct (String.eqb (AuthToken.token r) tok) eqn:E; simpl.
  - rewrite E. simpl. now rewrite andb_false_r.
  - now rewrite E.
Qed.

(** The constraint on the token column is kept by the writes of the ledger. *)
Lemma unique_tokens_markTokenAsUsed d tok :
  unique_tokens (authTokens d) ->
  unique_tokens (authTokens (markTokenAsUsed d tok)).
Proof.
  unfold unique_tokens, markTokenAsUsed; simpl. rewrite map_map.
  intros H. erewrite map_ext; [exact H|].
  intros r. simpl. now destruct (String.eqb (AuthToken.token r) tok).
Qed.

Lemma unique_tokens_generateAuthToken now rnd d uid ty ttl tok d' :
  unique_tokens (authTokens d) ->
  generateAuthToken now rnd d uid ty ttl = Some (tok, d') ->
  unique_tokens (authTokens d').
Proof.
  unfold unique_tokens, generateAuthToken. intros H.
  destruct (existsb _ (authTokens d)) eqn:E; [discriminate|].
  intros [= <- <-]. simpl. rewrite map_app. simpl.
  apply List.NoDup_app; [exact H|constructor; [intros []|constructor]|].
  intros x Hx [Heq|[]]. subst x.
  apply in_map_iff in Hx as (r & Hr & Hin).
  assert (Hf : String.eqb (AuthToken.token r) rnd = false).
  { destruct (String.eqb (AuthToken.token r) rnd) eqn:Er; [|reflexivity].
    rewrite <- E. symmetry. apply existsb_exists. eauto. }
  apply String.eqb_neq in Hf. congruence.
Qed.

(** C1 (token ledger, verify).  With the token column unique, verify returns
    a record exactly when that record is stored under the given value, has the
    requested type, is unused and expires strictly after the current time;
    after markTokenAsUsed on a value no verify of that value returns a record;
    and a stored record whose expiry is not after the current time is never
    returned, whatever its isUsed flag. *)
Theorem C1_verify_iff_valid (now : Z) (d : Db) (tok ty : string)
    (Huniq : unique_tokens (authTokens d)) :
  (forall r, verifyAuthToken now d tok ty = Some r <->
             In r (authTokens d) /\ AuthToken.token r = tok /\
             AuthToken.type r = ty /\ AuthToken.isUsed r = false /\
             now < AuthToken.expiresAt r)
  /\ (forall now' ty', verifyAuthToken now' (markTokenAsUsed d tok) tok ty' = None)
  /\ (forall r, In r (authTokens d) -> AuthToken.token r = tok ->
                AuthToken.expiresAt r <= now ->
                verifyAuthToken now d tok ty = None).
Proof.
  split; [|split].
  - intros r. split.
    + intros H. unfold verifyAuthToken in H.
      apply find_some in H as [Hin Hm].
      apply token_matches_spec in Hm. tauto.
    + intros (Hin & Htok & Hty & Hu & Hexp).
      apply find_unique_token with (tok := tok); auto.
      * apply token_matches_spec. tauto.
      * intros x Hx. now apply token_matches_spec in Hx.
  - intros now' ty'. apply markTokenAsUsed_kills.
  - intros r Hin Htok Hexp.
    destruct (verifyAuthToken now d tok ty) as [r'|] eqn:E; [|reflexivity].
    exfalso. unfold verifyAuthToken in E.
    apply find_some in E as [Hin' Hm].
    apply token_matches_spec in Hm as (Htok' & _ & _ & Hlt).
    assert (r' = r).
    { clear Hlt Hexp. revert Huniq Hin Hin' Htok Htok'. unfold unique_tokens.
      generalize (authTokens d). induction l as [|a l IH]; simpl; [tauto|].
      intros Hnd. apply NoDup_cons_iff in Hnd as [Hn Hnd].
      intros [->|H1] [->|H2] E1 E2; auto.
      - exfalso. apply Hn. rewrite E1, <- E2. now apply in_map.
      - exfalso. apply Hn. rewrite E2, <- E1. now apply in_map. }
    subst r'. lia.
Qed.


(** The token ledger of the sample store, at time 1000. *)
Lemma C1_verify_iff_valid_witness :
  (forall r, verifyAuthToken 1000 sample_db "abc123" "password_reset" = Some r <->
             In r (authTokens sample_db) /\ AuthToken.token r = "abc123" /\
             AuthToken.type r = "password_reset" /\ AuthToken.isUsed r = false /\
             1000 < AuthToken.expiresAt r)
  /\ (forall now' ty',
        verifyAuthToken now' (markTokenAsUsed sample_db "abc123") "abc123" ty' = None)
  /\ (forall r, In r (authTokens sample_db) -> AuthToken.token r = "abc123" ->
                AuthToken.expiresAt r <= 1000 ->
                verifyAuthToken 1000 sample_db "abc123" "password_reset" = None).
Proof.
  apply (C1_verify_iff_valid 1000 sample_db "abc123" "password_reset").
  unfold unique_tokens; simpl.
  constructor; [simpl; tauto | constructor].
Defined.

(** The sample token is returned before its expiry and not at it. *)
Example verify_before_and_at_expiry :
  verifyAuthToken 4999 sample_db "abc123" "password_reset" = Some reset_token
  /\ verifyAuthToken 5000 sample_db "abc123" "password_reset" = None
  /\ verifyAuthToken 4999 sample_db "abc123" "email_verification" = None.
Proof. repeat split. Qed.

(** ** Rate limiter *)

Lemma recordFailedAttempt_lookup now (m : gmap string Attempts) id :
  recordFailedAttempt now m id !! id =
  Some (mkAttempts (from_option count 0 (m !! id) + 1) now).
Proof.
  unfold recordFailedAttempt. rewrite lookup_insert_eq.
  destruct (m !! id); reflexivity.
Qed.

Lemma recordFailedAttempt_other now (m : gmap string Attempts) id j :
  j <> id -> recordFailedAttempt now m id !! j = m !! j.
Proof.
  intros Hne. unfold recordFailedAttempt. apply lookup_insert_ne. congruence.
Qed.

Lemma checkRateLimit_stale cfg now (m : gmap string Attempts) id a :
  m !! id = Some a -> timeWindow cfg < now - lastAttempt a ->
  checkRateLimit cfg now m id = (true, delete id m).
Proof.
  intros Hm Hlt. unfold checkRateLimit. rewrite Hm.
  apply Z.ltb_lt in Hlt. now rewrite Hlt.
Qed.

Lemma checkRateLimit_fresh cfg now (m : gmap string Attempts) id a :
  m !! id = Some a -> now - lastAttempt a <= timeWindow cfg ->
  checkRateLimit cfg now m id = (count a <? loginAttemptsMax cfg, m).
Proof.
  intros Hm Hle. unfold checkRateLimit. rewrite Hm.
  apply Z.ltb_ge in Hle. now rewrite Hle.
Qed.

(** C5, as the claim states it, fails: on an entry whose last failure is
    older than the window, recordFailedAttempt stores the count plus one
    (here 4), not 1.  The same happens inside login when the window runs out
    between the clock reading of checkRateLimit (900000, the entry is still
    inside the window) and that of recordFailedAttempt (900005). *)
Lemma C5_stale_entry_incremented :
  stale_attempts !! "a@x.com" = Some (mkAttempts 3 0)
  /\ timeWindow defaultConfig < 1000000 - 0
  /\ recordFailedAttempt 1000000 stale_attempts "a@x.com" !! "a@x.com"
     = Some (mkAttempts 4 1000000)
  /\ recordFailedAttempt 1000000 stale_attempts "a@x.com" !! "a@x.com"
     <> Some (mkAttempts 1 1000000)
  /\ checkRateLimit defaultConfig 900000 stale_attempts "a@x.com"
     = (true, stale_attempts)
  /\ timeWindow defaultConfig < 900005 - 0
  /\ recordFailedAttempt 900005
       (snd (checkRateLimit defaultConfig 900000 stale_attempts "a@x.com"))
       "a@x.com" !! "a@x.com"
     = Some (mkAttempts 4 900005).
Proof.
  repeat split; discriminate.
Qed.

(** C5, amended.  recordFailedAttempt makes no test on the window: it stores
    the previous count plus one (1 when the identifier has no entry) with the
    anchor set to the current time, and leaves other identifiers alone.  The
    reset is the work of checkRateLimit, which login runs first: when the
    stored failure is older than the window at the time of the check, the
    check deletes the entry, so that the recordFailedAttempt that follows
    stores count 1; otherwise the check leaves the map as it is and the
    recordFailedAttempt that follows stores count plus one. *)
Theorem C5_record_increments_check_resets
    (cfg : AuthConfig) (now1 now2 : Z) (m : gmap string Attempts) (id : string) :
  recordFailedAttempt now2 m id !! id
    = Some (mkAttempts (from_option count 0 (m !! id) + 1) now2)
  /\ (forall j, j <> id -> recordFailedAttempt now2 m id !! j = m !! j)
  /\ (forall a, m !! id = Some a -> timeWindow cfg < now1 - lastAttempt a ->
        fst (checkRateLimit cfg now1 m id) = true /\
        recordFailedAttempt now2 (snd (checkRateLimit cfg now1 m id)) id !! id
          = Some (mkAttempts 1 now2))
  /\ (forall a, m !! id = Some a -> now1 - lastAttempt a <= timeWindow cfg ->
        fst (checkRateLimit cfg now1 m id) = (count a <? loginAttemptsMax cfg) /\
        recordFailedAttempt now2 (snd (checkRateLimit cfg now1 m id)) id !! id
          = Some (mkAttempts (count a + 1) now2)).
Proof.
  split; [apply recordFailedAttempt_lookup|].
  split; [intros j Hj; now apply recordFailedAttempt_other|].
  split.
  - intros a Hm Hlt. rewrite (checkRateLimit_stale _ _ _ _ _ Hm Hlt). simpl.
    split; [reflexivity|].
    rewrite recordFailedAttempt_lookup, lookup_delete_eq. reflexivity.
  - intros a Hm Hle. rewrite (checkRateLimit_fresh _ _ _ _ _ Hm Hle). simpl.
    split; [reflexivity|].
    rewrite recordFailedAttempt_lookup, Hm. reflexivity.
Qed.

(** ** The cleanup task *)

Lemma col_eq_spec c v : col_eq c v = true <-> c = Some v.
Proof.
  destruct c as [x|]; simpl.
  - rewrite Z.eqb_eq. split; congruence.
  - split; discriminate.
Qed.

Lemma cleanup_sessions_spec now d s :
  In s (sessions (cleanup now d)) <->
  In s (sessions d) /\ Session.expiresAt s <= now.
Proof.
  unfold cleanup, cleanupSessions, cleanupTokens; simpl.
  rewrite filter_In, negb_true_iff, Z.ltb_ge. tauto.
Qed.

Lemma cleanup_tokens_spec now d r :
  In r (authTokens (cleanup now d)) <->
  In r (authTokens d) /\ AuthToken.isUsed r = false.
Proof.
  unfold cleanup, cleanupSessions, cleanupTokens; simpl.
  rewrite filter_In, negb_true_iff.
  destruct (AuthToken.isUsed r); simpl; intuition congruence.
Qed.

(** C9 (cleanup), on the code.  One run of the cleanup task at time 1000 on
    the sample store deletes both of its sessions, which expire at 90000; in
    general the sessions that survive a run are exactly those that have
    already expired, the tokens that survive are exactly the unused ones
    (expired unused tokens stay), and users and two-factor rows are not
    touched. *)
Theorem C9_cleanup_deletes_live_sessions (now : Z) (d : Db) :
  (Session.expiresAt alice_session = 90000
   /\ In alice_session (sessions sample_db)
   /\ sessions (cleanup 1000 sample_db) = [])
  /\ (forall s, In s (sessions (cleanup now d)) <->
                In s (sessions d) /\ Session.expiresAt s <= now)
  /\ (forall r, In r (authTokens (cleanup now d)) <->
                In r (authTokens d) /\ AuthToken.isUsed r = false)
  /\ users (cleanup now d) = users d
  /\ twoFactorAuth (cleanup now d) = twoFactorAuth d
  /\ writes (cleanup now d)
     = (writes d ++ [DeleteUsedTokens; DeleteSessionsExpiringAfter now])%list.
Proof.
  split; [repeat split; simpl; auto|].
  split; [intros s; apply cleanup_sessions_spec|].
  split; [intros r; apply cleanup_tokens_spec|].
  repeat split. simpl. now rewrite <- app_assoc.
Qed.

(** ** Password reset *)

Section ResetPassword.
Context {L : Libraries} (cfg : AuthConfig).

Lemma invalidateUserSessions_spec d uid s :
  In s (sessions (invalidateUserSessions d (Some uid))) <->
  In s (sessions d) /\ Session.userId s <> Some uid.
Proof.
  unfold invalidateUserSessions; simpl.
  rewrite filter_In, negb_true_iff.
  destruct (col_eq (Session.userId s) uid) eqn:E.
  - apply col_eq_spec in E. intuition congruence.
  - split; intros [H1 H2]; split; auto.
    intros Heq. apply col_eq_spec in Heq. congruence.
Qed.

(** C2 (password reset).  With a strong new password and a valid
    password_reset token that belongs to user [uid], resetPassword succeeds;
    it sends the store exactly three writes, in this order: the update of
    the password of [uid], the update that marks the token used, the delete
    of the sessions of [uid].  Afterwards the rows of [uid] hold the new
    hash in their password column, with every other column as before, and
    the other user rows are as before; no verify of the token value returns a
    record, no session of [uid] is left, and the sessions of every other user
    are all still there, in their order. *)
Theorem C2_resetPassword_invalidates_sessions
    (now : Z) (d : Db) (tok pw : string) (t : AuthToken.t) (uid : Z)
    (Hpw : validatePassword pw = true)
    (Htok : verifyAuthToken now d tok "password_reset" = Some t)
    (Huid : AuthToken.userId t = Some uid) :
  fst (resetPassword cfg now d tok pw) = OpResult.mk true msg_reset_ok
  /\ writes (snd (resetPassword cfg now d tok pw))
     = (writes d ++ [UpdateUserPassword (Some uid); UpdateTokenUsed tok;
                     DeleteUserSessions (Some uid)])%list
  /\ snd (resetPassword cfg now d tok pw)
     = invalidateUserSessions
         (markTokenAsUsed
            (updateUserPassword d (Some uid) (bcrypt_hash pw (bcryptRounds cfg)))
            tok)
         (Some uid)
  /\ users (snd (resetPassword cfg now d tok pw))
     = map (fun u => if User.id u =? uid
                     then set_password (bcrypt_hash pw (bcryptRounds cfg)) u
                     else u) (users d)
  /\ (forall now' ty,
        verifyAuthToken now' (snd (resetPassword cfg now d tok pw)) tok ty = None)
  /\ (forall s, In s (sessions (snd (resetPassword cfg now d tok pw))) <->
                In s (sessions d) /\ Session.userId s <> Some uid)
  /\ sessions (snd (resetPassword cfg now d tok pw))
     = List.filter (fun s => negb (col_eq (Session.userId s) uid)) (sessions d)
  /\ users (snd (resetPassword cfg now d tok pw))
     = map (fun u => if User.id u =? uid
                     then User.mk (User.id u) (User.username u) (User.email u)
                                  (bcrypt_hash pw (bcryptRounds cfg))
                                  (User.displayName u) (User.role u)
                                  (User.isActive u)
                     else u) (users d)
  /\ (forall u', In u' (users (snd (resetPassword cfg now d tok pw))) ->
                 User.id u' = uid ->
                 User.password u' = bcrypt_hash pw (bcryptRounds cfg))
  /\ (forall u, In u (users d) -> User.id u = uid ->
        exists u', In u' (users (snd (resetPassword cfg now d tok pw)))
                   /\ User.id u' = uid /\ User.email u' = User.email u
                   /\ User.password u' = bcrypt_hash pw (bcryptRounds cfg)).
Proof.
  unfold resetPassword. rewrite Hpw, Htok, Huid. simpl.
  split; [reflexivity|].
  split; [now rewrite <- !app_assoc|].
  split; [reflexivity|].
  split; [reflexivity|].
  split.
  { intros now' ty.
    apply (markTokenAsUsed_kills now'
             (updateUserPassword d (Some uid) (bcrypt_hash pw (bcryptRounds cfg)))
             tok ty). }
  split.
  { intros s.
    apply (invalidateUserSessions_spec
             (markTokenAsUsed
                (updateUserPassword d (Some uid)
                   (bcrypt_hash pw (bcryptRounds cfg))) tok) uid s). }
  split; [reflexivity|].
  split; [reflexivity|].
  split.
  - intros u' Hin Hid. apply in_map_iff in Hin as (u & <- & _).
    destruct (User.id u =? uid) eqn:E; [reflexivity|].
    apply Z.eqb_neq in E. simpl in Hid. congruence.
  - intros u Hin Hid.
    exists (set_password (bcrypt_hash pw (bcryptRounds cfg)) u).
    split; [|simpl; auto].
    apply in_map_iff. exists u. split; [|exact Hin].
    apply Z.eqb_eq in Hid. now rewrite Hid.
Qed.

End ResetPassword.

(** A reset of the password of alice on the sample store. *)
Lemma C2_resetPassword_invalidates_sessions_witness :
  fst (resetPassword (L := toy_libraries) defaultConfig 1000 sample_db
                     "abc123" "N3w!Passw0rd")
  = OpResult.mk true msg_reset_ok.
Proof.
  exact (proj1 (C2_resetPassword_invalidates_sessions (L := toy_libraries)
                  defaultConfig 1000 sample_db "abc123" "N3w!Passw0rd"
                  reset_token 7 eq_refl eq_refl eq_refl)).
Defined.

(** On the sample store the reset leaves the session of bob and nothing of
    alice, and the token cannot be used again. *)
Example resetPassword_sample :
  let d' := snd (resetPassword (L := toy_libraries) defaultConfig 1000 sample_db
                               "abc123" "N3w!Passw0rd") in
  sessions d' = [bob_session]
  /\ map User.password (users d') = ["hash:N3w!Passw0rd"; "hash:B0b!Secret"]
  /\ fst (resetPassword (L := toy_libraries) defaultConfig 1001 d'
                        "abc123" "An0ther!Pass")
     = OpResult.mk false msg_reset_invalid.
Proof. repeat split. Qed.

(** ** Password reset request *)

Section RequestPasswordReset.
Context {L : Libraries} (cfg : AuthConfig).

Lemma existsb_token_fresh (l : list AuthToken.t) rnd :
  (forall r, In r l -> AuthToken.token r <> rnd) ->
  existsb (fun r => String.eqb (AuthToken.token r) rnd) l = false.
Proof.
  intros H. destruct (existsb _ l) eqn:E; [|reflexivity].
  apply existsb_exists in E as (r & Hin & Heq).
  apply String.eqb_eq in Heq. now apply H in Hin.
Qed.

Lemma generateAuthToken_fresh now rnd d uid ty ttl :
  (forall r, In r (authTokens d) -> AuthToken.token r <> rnd) ->
  generateAuthToken now rnd d uid ty ttl
  = Some (rnd,
          mkDb (users d)
               (authTokens d ++ [AuthToken.mk (tokenSeq d) (Some uid) rnd ty
                                              (now + ttl) false])
               (twoFactorAuth d) (sessions d) (userSeq d) (tokenSeq d + 1)
               (writes d ++ [InsertAuthToken rnd])).
Proof.
  intros H. unfold generateAuthToken.
  now rewrite (existsb_token_fresh _ _ H).
Qed.

(** C7 (password reset request).  Take a call for the email of an existing
    user, whose drawn token value [rnd] is not yet stored, and a call for an
    email that matches no user.  Both return the same result, success with
    the generic message.  The call for the unknown email leaves the store as
    it was, so no token is issued.  The call for the known email stores one
    password_reset token of value [rnd], expiring after the configured
    lifetime, and its result is the same whatever [rnd] is: the returned value
    depends in no way on the token value. *)
Theorem C7_requestPasswordReset_generic
    (now1 now2 : Z) (rnd1 rnd2 : string) (d : Db) (known unknown : string)
    (u : User.t)
    (Hknown : findUserByEmail d known = Some u)
    (Hunknown : findUserByEmail d unknown = None)
    (Hfresh : forall r, In r (authTokens d) -> AuthToken.token r <> rnd1) :
  fst (requestPasswordReset cfg now1 rnd1 d known)
    = fst (requestPasswordReset cfg now2 rnd2 d unknown)
  /\ fst (requestPasswordReset cfg now1 rnd1 d known)
     = OpResult.mk true msg_reset_requested
  /\ snd (requestPasswordReset cfg now2 rnd2 d unknown) = d
  /\ authTokens (snd (requestPasswordReset cfg now1 rnd1 d known))
     = (authTokens d ++
          [AuthToken.mk (tokenSeq d) (Some (User.id u)) rnd1 "password_reset"
                        (now1 + passwordResetTtl cfg) false])%list
  /\ (forall rnd',
        (forall r, In r (authTokens d) -> AuthToken.token r <> rnd') ->
        fst (requestPasswordReset cfg now1 rnd' d known)
        = fst (requestPasswordReset cfg now1 rnd1 d known)).
Proof.
  unfold requestPasswordReset. rewrite Hknown, Hunknown.
  rewrite (generateAuthToken_fresh _ _ _ _ _ _ Hfresh). simpl.
  repeat split.
  intros rnd' Hfresh'.
  now rewrite (generateAuthToken_fresh _ _ _ _ _ _ Hfresh').
Qed.

End RequestPasswordReset.

(** A request for alice and a request for an unknown email, on the sample store. *)
Lemma C7_requestPasswordReset_generic_witness :
  fst (requestPasswordReset defaultConfig 1000 "f00d" sample_db "a@x.com")
  = fst (requestPasswordReset defaultConfig 2000 "beef" sample_db "unknown@x.com").
Proof.
  refine (proj1 (C7_requestPasswordReset_generic defaultConfig 1000 2000
                   "f00d" "beef" sample_db "a@x.com" "unknown@x.com" alice
                   eq_refl eq_refl _)).
  intros r [<-|[]]. discriminate.
Defined.

Example requestPasswordReset_sample :
  requestPasswordReset defaultConfig 2000 "beef" sample_db "unknown@x.com"
  = (OpResult.mk true msg_reset_requested, sample_db)
  /\ map AuthToken.token
         (authTokens (snd (requestPasswordReset defaultConfig 1000 "f00d"
                                                sample_db "a@x.com")))
     = ["abc123"; "f00d"].
Proof. repeat split. Qed.

(** ** Login *)

Section Login.
Context {L : Libraries} (cfg : AuthConfig).

(** [login] behind a rate check that has been made. *)
Lemma login_after_check now rnd s email pw code tok allowed m :
  checkRateLimit cfg now (loginAttempts s) email = (allowed, m) ->
  login cfg now rnd s email pw code tok =
  if negb allowed then (login_failure msg_rate_limited, mkSys (db s) m)
  else match findUserByEmail (db s) email with
       | None => (login_failure msg_invalid_credentials,
                  mkSys (db s) (recordFailedAttempt now m email))
       | Some user =>
           if negb (User.isActive user)
           then (login_failure msg_not_activated, mkSys (db s) m)
           else if negb (bcrypt_compare pw (User.password user))
           then (login_failure msg_invalid_credentials,
                 mkSys (db s) (recordFailedAttempt now m email))
           else login cfg now rnd (mkSys (db s) m) email pw code tok
       end.
Proof.
  intros E. unfold login at 1. rewrite E.
  destruct allowed; simpl; [|reflexivity].
  destruct (findUserByEmail (db s) email) as [user|] eqn:Eu; [|reflexivity].
  destruct (User.isActive user) eqn:Ea; simpl; [|reflexivity].
  destruct (bcrypt_compare pw (User.password user)) eqn:Ep; simpl; [|reflexivity].
  unfold login. simpl.
  assert (Hm : checkRateLimit cfg now m email = (true, m)).
  { revert E. unfold checkRateLimit.
    destruct (loginAttempts s !! email) as [a|] eqn:Em.
    - destruct (timeWindow cfg <? now - lastAttempt a) eqn:Ew.
      + intros [= <-]. now rewrite lookup_delete_eq.
      + intros [= Hc <-]. now rewrite Em, Ew, Hc.
    - intros [= <-]. now rewrite Em. }
  rewrite Hm, Eu, Ea, Ep. reflexivity.
Qed.

(** C3, as the claim states it, fails: a login against the existing,
    inactive account of carol with a wrong password returns the
    account-not-activated failure, not the generic one, and records no failed
    attempt. *)
Lemma C3_inactive_wrong_password_not_activated :
  findUserByEmail two_factor_db "c@x.com" = Some carol
  /\ User.isActive carol = false
  /\ bcrypt_compare (Libraries := toy_libraries) "wrong" (User.password carol) = false
  /\ login (L := toy_libraries) defaultConfig 1000 "5e55" two_factor_sys
           "c@x.com" "wrong" None None
     = (login_failure msg_not_activated, two_factor_sys)
  /\ msg_not_activated <> msg_invalid_credentials
  /\ loginAttempts
       (snd (login (L := toy_libraries) defaultConfig 1000 "5e55" two_factor_sys
                   "c@x.com" "wrong" None None)) !! "c@x.com" = None.
Proof. repeat split; discriminate. Qed.

(** C3, amended.  Login checks in this order: the rate limit; the lookup of
    the user, where an absent user records a failed attempt and returns the
    generic invalid-credentials message; the active flag, where an inactive
    account returns the account-not-activated failure and records nothing,
    whatever the password; then the password, where a mismatch records a
    failed attempt and returns the generic message.  So a login against an
    existing, inactive account returns account-not-activated also when the
    password is wrong. *)
Theorem C3_login_check_order
    (now : Z) (rnd : string) (s : Sys) (email pw : string)
    (code tok : option string) :
  (fst (checkRateLimit cfg now (loginAttempts s) email) = false ->
   login cfg now rnd s email pw code tok
   = (login_failure msg_rate_limited,
      mkSys (db s) (snd (checkRateLimit cfg now (loginAttempts s) email))))
  /\ (fst (checkRateLimit cfg now (loginAttempts s) email) = true ->
      findUserByEmail (db s) email = None ->
      login cfg now rnd s email pw code tok
      = (login_failure msg_invalid_credentials,
         mkSys (db s)
               (recordFailedAttempt now
                  (snd (checkRateLimit cfg now (loginAttempts s) email)) email)))
  /\ (forall u,
      fst (checkRateLimit cfg now (loginAttempts s) email) = true ->
      findUserByEmail (db s) email = Some u ->
      User.isActive u = false ->
      login cfg now rnd s email pw code tok
      = (login_failure msg_not_activated,
         mkSys (db s) (snd (checkRateLimit cfg now (loginAttempts s) email))))
  /\ (forall u,
      fst (checkRateLimit cfg now (loginAttempts s) email) = true ->
      findUserByEmail (db s) email = Some u ->
      User.isActive u = true ->
      bcrypt_compare pw (User.password u) = false ->
      login cfg now rnd s email pw code tok
      = (login_failure msg_invalid_credentials,
         mkSys (db s)
               (recordFailedAttempt now
                  (snd (checkRateLimit cfg now (loginAttempts s) email)) email))).
Proof.
  destruct (checkRateLimit cfg now (loginAttempts s) email) as [allowed m] eqn:E.
  rewrite (login_after_check _ _ _ _ _ _ _ _ _ E). simpl.
  split; [intros ->; reflexivity|].
  split; [intros -> ->; reflexivity|].
  split.
  - intros u -> -> ->. reflexivity.
  - intros u -> -> -> ->. reflexivity.
Qed.

(** C4 (two-factor step), on the code.  Take a login that passes the rate
    check, finds an active user with the right password and an enabled
    two-factor credential, and supplies a challenge token and a code.  If the
    challenge token does not verify, or belongs to another user, or the code
    does not verify within the window of 2 steps, login returns the
    two-factor failure, and in each of the three cases the map of failed
    attempts is the one the rate check left: no failed attempt is recorded,
    the count of the identifier does not grow. *)
Theorem C4_two_factor_failure_not_recorded
    (now : Z) (rnd : string) (s : Sys) (email pw code tok : string)
    (u : User.t) (tf : TwoFA.t)
    (Hrate : fst (checkRateLimit cfg now (loginAttempts s) email) = true)
    (Huser : findUserByEmail (db s) email = Some u)
    (Hactive : User.isActive u = true)
    (Hpw : bcrypt_compare pw (User.password u) = true)
    (Htf : findTwoFactor (db s) (User.id u) true = Some tf)
    (Hcode : code <> "") (Htok : tok <> "") :
  (verifyAuthToken now (db s) tok "2fa" = None ->
   login cfg now rnd s email pw (Some code) (Some tok)
   = (login_failure msg_two_factor_token,
      mkSys (db s) (snd (checkRateLimit cfg now (loginAttempts s) email))))
  /\ (forall t,
      verifyAuthToken now (db s) tok "2fa" = Some t ->
      AuthToken.userId t <> Some (User.id u) ->
      login cfg now rnd s email pw (Some code) (Some tok)
      = (login_failure msg_two_factor_token,
         mkSys (db s) (snd (checkRateLimit cfg now (loginAttempts s) email))))
  /\ (forall t,
      verifyAuthToken now (db s) tok "2fa" = Some t ->
      AuthToken.userId t = Some (User.id u) ->
      totp_verify (TwoFA.secret tf) code 2 now = false ->
      login cfg now rnd s email pw (Some code) (Some tok)
      = (login_failure msg_two_factor_code,
         mkSys (db s) (snd (checkRateLimit cfg now (loginAttempts s) email))))
  /\ (verifyAuthToken now (db s) tok "2fa" = None
      \/ (exists t, verifyAuthToken now (db s) tok "2fa" = Some t
                    /\ AuthToken.userId t <> Some (User.id u))
      \/ totp_verify (TwoFA.secret tf) code 2 now = false ->
      LoginResult.success
        (fst (login cfg now rnd s email pw (Some code) (Some tok))) = false
      /\ loginAttempts (snd (login cfg now rnd s email pw (Some code) (Some tok)))
         = snd (checkRateLimit cfg now (loginAttempts s) email)).
Proof.
  destruct (checkRateLimit cfg now (loginAttempts s) email) as [allowed m] eqn:E.
  simpl in Hrate. subst allowed.
  assert (Hc : String.eqb code "" = false) by now apply String.eqb_neq.
  assert (Ht : String.eqb tok "" = false) by now apply String.eqb_neq.
  assert (Hlogin :
    login cfg now rnd s email pw (Some code) (Some tok) =
    match verifyAuthToken now (db s) tok "2fa" with
    | None => (login_failure msg_two_factor_token, mkSys (db s) m)
    | Some tokenValid =>
        if negb (col_eq (AuthToken.userId tokenValid) (User.id u))
        then (login_failure msg_two_factor_token, mkSys (db s) m)
        else if negb (totp_verify (TwoFA.secret tf) code 2 now)
        then (login_failure msg_two_factor_code, mkSys (db s) m)
        else login cfg now rnd s email pw (Some code) (Some tok)
    end).
  { unfold login. rewrite E, Huser, Hactive, Hpw, Htf. simpl.
    rewrite Hc, Ht. simpl.
    destruct (verifyAuthToken now (db s) tok "2fa") as [t|]; [|reflexivity].
    destruct (col_eq (AuthToken.userId t) (User.id u)); [|reflexivity].
    destruct (totp_verify (TwoFA.secret tf) code 2 now); reflexivity. }
  simpl.
  assert (Hother : forall t, AuthToken.userId t <> Some (User.id u) ->
                             col_eq (AuthToken.userId t) (User.id u) = false).
  { intros t Hne. destruct (col_eq _ _) eqn:Ec; [|reflexivity].
    now apply col_eq_spec in Ec. }
  split; [intros Hv; now rewrite Hlogin, Hv|].
  split; [intros t Hv Hne; now rewrite Hlogin, Hv, (Hother t Hne)|].
  split.
  { intros t Hv Hown Hbad. rewrite Hlogin, Hv.
    apply col_eq_spec in Hown. now rewrite Hown, Hbad. }
  intros Hcase. rewrite Hlogin.
  destruct (verifyAuthToken now (db s) tok "2fa") as [t|] eqn:Hv; [|now split].
  destruct (col_eq (AuthToken.userId t) (User.id u)) eqn:Ec; [|now split].
  destruct (totp_verify (TwoFA.secret tf) code 2 now) eqn:Et; [|now split].
  exfalso. destruct Hcase as [Hn|[(t' & Ht' & Hne)|Hb]]; try discriminate.
  injection Ht' as <-. now apply col_eq_spec in Ec.
Qed.

End Login.

(** Alice answers her two-factor step with the challenge of bob. *)
Lemma C4_two_factor_failure_not_recorded_witness :
  login (L := toy_libraries) defaultConfig 1000 "5e55" two_factor_sys
        "a@x.com" "Str0ng!Pass" (Some "000000") (Some "chal-bob")
  = (login_failure msg_two_factor_token, two_factor_sys).
Proof.
  refine (proj1 (proj2 (C4_two_factor_failure_not_recorded (L := toy_libraries)
            defaultConfig 1000 "5e55" two_factor_sys "a@x.com" "Str0ng!Pass"
            "000000" "chal-bob" alice alice_two_factor
            eq_refl eq_refl eq_refl eq_refl eq_refl _ _)) bob_challenge eq_refl _);
    discriminate.
Defined.

(** Three logins of alice with a wrong one-time code against her own open
    challenge: each fails, and no failed attempt is on record afterwards. *)
Example two_factor_guesses_unlimited :
  let try (s : Sys) (guess : string) :=
    snd (login (L := toy_libraries) defaultConfig 1000 "5e55" s
               "a@x.com" "Str0ng!Pass" (Some guess) (Some "chal-alice")) in
  let s3 := try (try (try challenge_sys "000000") "000001") "000002" in
  loginAttempts s3 !! "a@x.com" = None
  /\ fst (login (L := toy_libraries) defaultConfig 1000 "5e55" s3
               "a@x.com" "Str0ng!Pass" (Some "000003") (Some "chal-alice"))
     = login_failure msg_two_factor_code
  /\ LoginResult.success
       (fst (login (L := toy_libraries) defaultConfig 1000 "5e55" s3
                   "a@x.com" "Str0ng!Pass" (Some "SECRET") (Some "chal-alice")))
     = true.
Proof. repeat split. Qed.

(** ** Registration *)

Lemma find_app {A} (P : A -> bool) (l1 l2 : list A) :
  List.find P (l1 ++ l2) =
  match List.find P l1 with
  | Some x => Some x
  | None => List.find P l2
  end.
Proof.
  induction l1 as [|a l1 IH]; simpl; [reflexivity|].
  destruct (P a); [reflexivity|apply IH].
Qed.

Lemma existsb_false_forall {A} (P : A -> bool) (l : list A) :
  existsb P l = false -> forall x, In x l -> P x = false.
Proof.
  intros H x Hin. destruct (P x) eqn:E; [|reflexivity].
  rewrite <- H. symmetry. apply existsb_exists. eauto.
Qed.

Section Register.
Context {L : Libraries} (cfg : AuthConfig).

(** A successful [register]: what was checked, what is returned and what is
    stored. *)
Lemma register_success_shape now rnd d un em pw dn :
  RegisterResult.success (fst (register cfg now rnd d un em pw dn)) = true ->
  exists u,
    validatePassword pw = true /\ validateEmail em = true
    /\ findUserByEmail d em = None /\ findUserByUsername d un = None
    /\ User.id u = userSeq d /\ User.username u = un /\ User.email u = em
    /\ User.password u = bcrypt_hash pw (bcryptRounds cfg)
    /\ User.isActive u = negb (requireEmailVerification cfg)
    /\ users (snd (register cfg now rnd d un em pw dn)) = (users d ++ [u])%list
    /\ fst (register cfg now rnd d un em pw dn)
       = RegisterResult.mk true (Some u) (Some (generateJWT cfg now u))
           (if requireEmailVerification cfg then Some rnd else None)
           (if requireEmailVerification cfg
            then msg_register_verify else msg_register_welcome)
    /\ (requireEmailVerification cfg = true ->
        existsb (fun r => String.eqb (AuthToken.token r) rnd) (authTokens d) = false
        /\ authTokens (snd (register cfg now rnd d un em pw dn))
           = (authTokens d ++
                [AuthToken.mk (tokenSeq d) (Some (User.id u)) rnd
                   "email_verification" (now + emailVerificationTtl cfg) false])%list).
Proof.
  unfold register.
  destruct (validatePassword pw) eqn:Epw; simpl; [|discriminate].
  destruct (validateEmail em) eqn:Eem; simpl; [|discriminate].
  destruct (findUserByEmail d em) eqn:Eu; simpl; [discriminate|].
  destruct (findUserByUsername d un) eqn:En; simpl; [discriminate|].
  destruct (requireEmailVerification cfg) eqn:Er.
  - unfold generateAuthToken; simpl.
    destruct (existsb _ (authTokens d)) eqn:Ex; simpl; [discriminate|].
    intros _. eexists. repeat split; simpl; reflexivity.
  - simpl. intros _. eexists. repeat split; simpl; try reflexivity;
      discriminate.
Qed.

(** The conditions under which [register] succeeds. *)
Lemma register_succeeds now rnd d un em pw dn :
  validatePassword pw = true -> validateEmail em = true ->
  findUserByEmail d em = None -> findUserByUsername d un = None ->
  (forall r, In r (authTokens d) -> AuthToken.token r <> rnd) ->
  RegisterResult.success (fst (register cfg now rnd d un em pw dn)) = true.
Proof.
  intros Hpw Hem Hu Hn Hfresh. unfold register.
  rewrite Hpw, Hem, Hu, Hn. simpl.
  destruct (requireEmailVerification cfg); [|reflexivity].
  unfold generateAuthToken; simpl.
  now rewrite (existsb_token_fresh _ _ Hfresh).
Qed.

(** C6, amended.  Every successful register returns a signed bearer token
    for the new user, whether or not email verification is required.  What
    depends on requireEmailVerification is the rest: the new user is active
    exactly when verification is not required, and the result carries a
    verification token exactly when it is. *)
Theorem C6_register_always_returns_bearer_token
    (now : Z) (rnd : string) (d : Db) (un em pw : string) (dn : option string)
    (Hok : RegisterResult.success (fst (register cfg now rnd d un em pw dn)) = true) :
  exists u,
    RegisterResult.user (fst (register cfg now rnd d un em pw dn)) = Some u
    /\ RegisterResult.token (fst (register cfg now rnd d un em pw dn))
       = Some (generateJWT cfg now u)
    /\ User.isActive u = negb (requireEmailVerification cfg)
    /\ (RegisterResult.verificationToken (fst (register cfg now rnd d un em pw dn))
        = None <-> requireEmailVerification cfg = false)
    /\ In u (users (snd (register cfg now rnd d un em pw dn))).
Proof.
  destruct (register_success_shape _ _ _ _ _ _ _ Hok)
    as (u & _ & _ & _ & _ & _ & _ & _ & _ & Hact & Hus & Hres & _).
  exists u. rewrite Hres, Hus. simpl.
  repeat split; auto.
  - destruct (requireEmailVerification cfg); [discriminate|reflexivity].
  - intros ->. reflexivity.
  - apply in_or_app. right. now left.
Qed.

(** C10 (register hands out the verification token).  When email
    verification is required, a successful register returns, in
    verificationToken, the very value [rnd] it stored as the new
    email_verification token of the new user; and verifyEmail accepts that
    value at any time before the expiry of the token, after which the new
    user is active. *)
Theorem C10_register_returns_verification_token
    (now : Z) (rnd : string) (d : Db) (un em pw : string) (dn : option string)
    (Hreq : requireEmailVerification cfg = true)
    (Hok : RegisterResult.success (fst (register cfg now rnd d un em pw dn)) = true) :
  RegisterResult.verificationToken (fst (register cfg now rnd d un em pw dn))
    = Some rnd
  /\ exists u,
      RegisterResult.user (fst (register cfg now rnd d un em pw dn)) = Some u
      /\ User.isActive u = false
      /\ authTokens (snd (register cfg now rnd d un em pw dn))
         = (authTokens d ++
              [AuthToken.mk (tokenSeq d) (Some (User.id u)) rnd
                 "email_verification" (now + emailVerificationTtl cfg) false])%list
      /\ forall now', now' < now + emailVerificationTtl cfg ->
           fst (verifyEmail now' (snd (register cfg now rnd d un em pw dn)) rnd)
             = OpResult.mk true msg_verify_ok
           /\ In (set_active u)
                 (users (snd (verifyEmail now'
                                (snd (register cfg now rnd d un em pw dn)) rnd))).
Proof.
  destruct (register_success_shape _ _ _ _ _ _ _ Hok)
    as (u & _ & _ & _ & _ & Hid & _ & _ & _ & Hact & Hus & Hres & Htok).
  destruct (Htok Hreq) as [Hfresh Hts].
  rewrite Hres, Hreq. simpl. split; [reflexivity|].
  exists u. split; [reflexivity|].
  split; [now rewrite Hact, Hreq|].
  split; [exact Hts|].
  intros now' Hlt.
  assert (Hv : verifyAuthToken now' (snd (register cfg now rnd d un em pw dn))
                 rnd "email_verification"
               = Some (AuthToken.mk (tokenSeq d) (Some (User.id u)) rnd
                         "email_verification" (now + emailVerificationTtl cfg)
                         false)).
  { unfold verifyAuthToken. rewrite Hts, find_app.
    replace (List.find (token_matches now' rnd "email_verification") (authTokens d))
      with (@None AuthToken.t).
    - simpl. unfold token_matches; simpl.
      rewrite String.eqb_refl. simpl.
      apply Z.ltb_lt in Hlt. now rewrite Hlt.
    - symmetry. apply find_none_iff. intros x Hx.
      unfold token_matches.
      now rewrite (existsb_false_forall _ _ Hfresh x Hx). }
  unfold verifyEmail. rewrite Hv. simpl.
  split; [reflexivity|].
  rewrite Hus. apply in_map_iff. exists u. split.
  - simpl. now rewrite Z.eqb_refl.
  - apply in_or_app. right. now left.
Qed.

End Register.

(** C6, as the claim states it, fails: with requireEmailVerification set (the
    default), a successful register still returns a bearer token, here for a
    user that is not active. *)
Lemma C6_token_returned_when_verification_required :
  requireEmailVerification defaultConfig = true
  /\ RegisterResult.success
       (fst (register (L := toy_libraries) defaultConfig 1000 "f00d" sample_db
                      "dave" "d@x.com" "Str0ng!Pass" None)) = true
  /\ RegisterResult.token
       (fst (register (L := toy_libraries) defaultConfig 1000 "f00d" sample_db
                      "dave" "d@x.com" "Str0ng!Pass" None)) = Some "jwt:dave"
  /\ option_map User.isActive
       (RegisterResult.user
          (fst (register (L := toy_libraries) defaultConfig 1000 "f00d" sample_db
                         "dave" "d@x.com" "Str0ng!Pass" None))) = Some false.
Proof. repeat split. Qed.

(** The registration of dave on the sample store, under the default configuration. *)
Lemma C6_register_always_returns_bearer_token_witness :
  exists u,
    RegisterResult.user
      (fst (register (L := toy_libraries) defaultConfig 1000 "f00d" sample_db
                     "dave" "d@x.com" "Str0ng!Pass" None)) = Some u
    /\ RegisterResult.token
         (fst (register (L := toy_libraries) defaultConfig 1000 "f00d" sample_db
                        "dave" "d@x.com" "Str0ng!Pass" None))
       = Some (generateJWT (L := toy_libraries) defaultConfig 1000 u)
    /\ User.isActive u = negb (requireEmailVerification defaultConfig)
    /\ (RegisterResult.verificationToken
          (fst (register (L := toy_libraries) defaultConfig 1000 "f00d" sample_db
                         "dave" "d@x.com" "Str0ng!Pass" None)) = None
        <-> requireEmailVerification defaultConfig = false)
    /\ In u (users (snd (register (L := toy_libraries) defaultConfig 1000 "f00d"
                                  sample_db "dave" "d@x.com" "Str0ng!Pass" None))).
Proof.
  exact (C6_register_always_returns_bearer_token (L := toy_libraries)
           defaultConfig 1000 "f00d" sample_db "dave" "d@x.com" "Str0ng!Pass"
           None eq_refl).
Defined.

(** The registration of dave returns the drawn value. *)
Lemma C10_register_returns_verification_token_witness :
  RegisterResult.verificationToken
    (fst (register (L := toy_libraries) defaultConfig 1000 "f00d" sample_db
                   "dave" "d@x.com" "Str0ng!Pass" None)) = Some "f00d".
Proof.
  exact (proj1 (C10_register_returns_verification_token (L := toy_libraries)
                  defaultConfig 1000 "f00d" sample_db "dave" "d@x.com"
                  "Str0ng!Pass" None eq_refl eq_refl)).
Defined.

(** Register, then verify the email with the value register returned: the
    account is active, and a second use of the value is refused. *)
Example register_then_verifyEmail :
  let r := register (L := toy_libraries) defaultConfig 1000 "f00d" sample_db
                    "dave" "d@x.com" "Str0ng!Pass" None in
  let v := verifyEmail 2000 (snd r) "f00d" in
  fst v = OpResult.mk true msg_verify_ok
  /\ map User.isActive (users (snd v)) = [true; true; true]
  /\ fst (verifyEmail 3000 (snd v) "f00d") = OpResult.mk false msg_verify_invalid
  /\ fst (verifyEmail (1000 + emailVerificationTtl defaultConfig) (snd r) "f00d")
     = OpResult.mk false msg_verify_invalid.
Proof. repeat split. Qed.

(** ** The mail queue processor *)

Example processor_sample_run :
  let s1 := tick defaultEmailConfig transport_down sample_mail 400000 in
  map (fun e => (QueuedEmail.id e, QueuedEmail.status e, QueuedEmail.attempts e))
      (queue s1)
  = [(1, "failed", 1); (2, "failed", 3); (3, "failed", 3)]
  /\ map (fun dl => (QueuedEmail.id (d_email dl), d_time dl)) (outbox s1)
     = [(1, 400000); (2, 400020)]
  /\ clock s1 = 400040.
Proof. repeat split. Qed.

Section ProcessorProperties.
Context (cfg : EmailConfig) (transport : Transport).

Lemma updateEmail_ids f i q :
  (forall e, QueuedEmail.id (f e) = QueuedEmail.id e) ->
  ids (updateEmail f i q) = ids q.
Proof.
  intros Hf. unfold ids, updateEmail. rewrite map_map.
  apply map_ext. intros e. destruct (QueuedEmail.id e =? i); auto.
Qed.

Lemma updateEmail_In_other f i q r :
  In r q -> QueuedEmail.id r <> i -> In r (updateEmail f i q).
Proof.
  intros Hin Hne. unfold updateEmail. apply in_map_iff. exists r.
  apply Z.eqb_neq in Hne. rewrite Hne. auto.
Qed.

Lemma processEmail_ids s e :
  ids (queue (processEmail transport s e)) = ids (queue s).
Proof.
  unfold processEmail.
  destruct (delivered _); simpl; rewrite !updateEmail_ids; auto.
Qed.

Lemma processEmail_In_other s e r :
  In r (queue s) -> QueuedEmail.id r <> QueuedEmail.id e ->
  In r (queue (processEmail transport s e)).
Proof.
  intros Hin Hne. unfold processEmail.
  destruct (delivered _); simpl; auto using updateEmail_In_other.
Qed.

Lemma processEmail_outbox s e :
  outbox (processEmail transport s e)
  = (outbox s ++ [mkDelivery e (clock s)])%list.
Proof. unfold processEmail. destruct (delivered _); reflexivity. Qed.

Lemma processEmail_isProcessing s e :
  isProcessing (processEmail transport s e) = isProcessing s.
Proof. unfold processEmail. destruct (delivered _); reflexivity. Qed.

(** What a loop of guarded steps over fetched rows [es] does: it keeps the
    ids of the table, it adds to the outbox only calls for rows of [es] made
    while the guard held, and it keeps every row whose id differs from the
    ids of the rows the guard can let through. *)
Lemma guarded_loop g es : forall s,
  ids (queue (fold_left (guardedStep transport g) es s)) = ids (queue s)
  /\ isProcessing (fold_left (guardedStep transport g) es s) = isProcessing s
  /\ (exists new,
        outbox (fold_left (guardedStep transport g) es s) = (outbox s ++ new)%list
        /\ Forall (fun dl => In (d_email dl) es
                             /\ g (d_time dl) (d_email dl) = true) new)
  /\ (forall r, In r (queue s) ->
        (forall e, In e es ->
           (forall now, g now e = false) \/ QueuedEmail.id e <> QueuedEmail.id r) ->
        In r (queue (fold_left (guardedStep transport g) es s))).
Proof.
  induction es as [|e es IH]; intros s; simpl.
  - repeat split; auto. exists []. rewrite app_nil_r. split; constructor.
  - destruct (IH (guardedStep transport g s e)) as (Hids & Hproc & (new & Hout & Hnew) & Hframe).
    unfold guardedStep in *.
    destruct (g (clock s) e) eqn:Eg.
    + split; [now rewrite Hids, processEmail_ids|].
      split; [now rewrite Hproc, processEmail_isProcessing|].
      split.
      * exists (mkDelivery e (clock s) :: new). split.
        -- rewrite Hout, processEmail_outbox, <- app_assoc. reflexivity.
        -- constructor; [simpl; auto|].
           eapply List.Forall_impl; [|exact Hnew]. simpl. intros dl [H1 H2]. auto.
      * intros r Hin Hes. apply Hframe.
        -- apply processEmail_In_other; [exact Hin|].
           destruct (Hes e (or_introl eq_refl)) as [Hnever|Hne]; [|congruence].
           rewrite Hnever in Eg. discriminate.
        -- intros e' He'. apply Hes. now right.
    + split; [exact Hids|]. split; [exact Hproc|]. split.
      * exists new. split; [exact Hout|].
        eapply List.Forall_impl; [|exact Hnew]. simpl. intros dl [H1 H2]. auto.
      * intros r Hin Hes. apply Hframe; [exact Hin|].
        intros e' He'. apply Hes. now right.
Qed.

Lemma In_take {A} (n : nat) (l : list A) x : In x (take n l) -> In x l.
Proof.
  revert l. induction n as [|n IH]; intros [|a l]; simpl; try tauto.
  intros [->|H]; auto.
Qed.

Lemma findByStatus_In st n q e :
  In e (findByStatus st n q) -> In e q /\ QueuedEmail.status e = st.
Proof.
  unfold findByStatus. intros H.
  assert (Hf : In e (List.filter
                       (fun e => String.eqb (QueuedEmail.status e) st) q)).
  { destruct (n <? 0); [exact H|now apply In_take in H]. }
  apply filter_In in Hf as [Hin Hst]. now apply String.eqb_eq in Hst.
Qed.

Lemma ids_inj q a b :
  List.NoDup (ids q) -> In a q -> In b q ->
  QueuedEmail.id a = QueuedEmail.id b -> a = b.
Proof.
  unfold ids. induction q as [|x q IH]; simpl; [tauto|].
  intros Hnd. apply NoDup_cons_iff in Hnd as [Hx Hnd].
  intros [->|Ha] [->|Hb] Heq; auto.
  - exfalso. apply Hx. rewrite Heq. now apply in_map.
  - exfalso. apply Hx. rewrite <- Heq. now apply in_map.
Qed.

Lemma retryDue_exhausted now r :
  maxAttempts cfg <= QueuedEmail.attempts r -> retryDue cfg now r = false.
Proof.
  intros H. unfold retryDue. apply Z.ltb_ge in H. now rewrite H.
Qed.

Lemma retryDue_spec now r :
  retryDue cfg now r = true ->
  QueuedEmail.attempts r < maxAttempts cfg
  /\ (forall t, QueuedEmail.lastAttempt r = Some t -> delay cfg <= now - t).
Proof.
  unfold retryDue. rewrite andb_true_iff, Z.ltb_lt. intros [Ha Hd].
  split; [exact Ha|]. intros t Ht. rewrite Ht in Hd. now apply Z.leb_le.
Qed.

(** One run of [processEmailQueue] on a table with distinct ids, seen from a
    row [r] that is failed when the run starts. *)
Lemma processEmailQueue_run s :
  List.NoDup (ids (queue s)) ->
  ids (queue (processEmailQueue cfg transport s)) = ids (queue s)
  /\ isProcessing (processEmailQueue cfg transport s) = false
  /\ exists new,
      outbox (processEmailQueue cfg transport s) = (outbox s ++ new)%list
      /\ forall r, In r (queue s) -> QueuedEmail.status r = "failed" ->
           (forall dl, In dl new ->
              QueuedEmail.id (d_email dl) = QueuedEmail.id r ->
              d_email dl = r /\ retryDue cfg (d_time dl) r = true)
           /\ (maxAttempts cfg <= QueuedEmail.attempts r ->
               In r (queue (processEmailQueue cfg transport s))).
Proof.
  intros Hnd. unfold processEmailQueue.
  set (s0 := set_processing true s).
  set (pending := findByStatus "pending" (batchSize cfg) (queue s0)).
  change (fold_left (processEmail transport) pending s0)
    with (fold_left (guardedStep transport (fun _ _ => true)) pending s0).
  set (s1 := fold_left (guardedStep transport (fun _ _ => true)) pending s0).
  set (retry := findByStatus "failed" (batchSize cfg) (queue s1)).
  change (fold_left (retryStep cfg transport) retry s1)
    with (fold_left (guardedStep transport (retryDue cfg)) retry s1).
  destruct (guarded_loop (fun _ _ => true) pending s0)
    as (Hids1 & _ & (new1 & Hout1 & Hnew1) & Hframe1).
  destruct (guarded_loop (retryDue cfg) retry s1)
    as (Hids2 & _ & (new2 & Hout2 & Hnew2) & Hframe2).
  fold s1 in Hids1, Hout1, Hframe1.
  assert (Hnd1 : List.NoDup (ids (queue s1))) by now rewrite Hids1.
  simpl. split; [now rewrite Hids2, Hids1|]. split; [reflexivity|].
  exists (new1 ++ new2)%list. split.
  { rewrite Hout2, Hout1. simpl. now rewrite app_assoc. }
  intros r Hin Hfailed.
  assert (Hpend : forall e, In e pending -> QueuedEmail.id e <> QueuedEmail.id r).
  { intros e He Heq. apply findByStatus_In in He as [Heq0 Hst].
    assert (e = r) by (apply (ids_inj (queue s)); auto).
    subst e. rewrite Hfailed in Hst. discriminate. }
  assert (Hin1 : In r (queue s1)).
  { apply Hframe1; [exact Hin|]. intros e He. right. now apply Hpend. }
  assert (Hretry : forall e, In e retry ->
                     QueuedEmail.id e = QueuedEmail.id r -> e = r).
  { intros e He Heq. apply findByStatus_In in He as [He _].
    apply (ids_inj (queue s1)); auto. }
  split.
  - intros dl Hdl Hid. apply in_app_or in Hdl as [Hdl|Hdl].
    + exfalso. rewrite List.Forall_forall in Hnew1.
      destruct (Hnew1 dl Hdl) as [He _]. now apply (Hpend _ He).
    + rewrite List.Forall_forall in Hnew2.
      destruct (Hnew2 dl Hdl) as [He Hg].
      assert (Hr : d_email dl = r) by now apply Hretry.
      split; [exact Hr|]. now rewrite <- Hr.
  - intros Hmax. apply Hframe2; [exact Hin1|].
    intros e He.
    destruct (Z.eq_dec (QueuedEmail.id e) (QueuedEmail.id r)) as [Heq|Hne];
      [left|right; exact Hne].
    intros now0. rewrite (Hretry e He Heq). now apply retryDue_exhausted.
Qed.

(** Every call a run makes to the transport is for a row that was fetched
    either as pending or as failed and due for a retry at the time of the
    call. *)
Lemma processEmailQueue_calls s :
  exists new,
    outbox (processEmailQueue cfg transport s) = (outbox s ++ new)%list
    /\ forall dl, In dl new ->
         QueuedEmail.status (d_email dl) = "pending"
         \/ (QueuedEmail.status (d_email dl) = "failed"
             /\ retryDue cfg (d_time dl) (d_email dl) = true).
Proof.
  unfold processEmailQueue.
  set (s0 := set_processing true s).
  set (pending := findByStatus "pending" (batchSize cfg) (queue s0)).
  change (fold_left (processEmail transport) pending s0)
    with (fold_left (guardedStep transport (fun _ _ => true)) pending s0).
  set (s1 := fold_left (guardedStep transport (fun _ _ => true)) pending s0).
  set (retry := findByStatus "failed" (batchSize cfg) (queue s1)).
  change (fold_left (retryStep cfg transport) retry s1)
    with (fold_left (guardedStep transport (retryDue cfg)) retry s1).
  destruct (guarded_loop (fun _ _ => true) pending s0)
    as (_ & _ & (new1 & Hout1 & Hnew1) & _).
  destruct (guarded_loop (retryDue cfg) retry s1)
    as (_ & _ & (new2 & Hout2 & Hnew2) & _).
  fold s1 in Hout1.
  exists (new1 ++ new2)%list. simpl. split.
  { rewrite Hout2, Hout1. simpl. now rewrite app_assoc. }
  rewrite List.Forall_forall in Hnew1, Hnew2.
  intros dl Hdl. apply in_app_or in Hdl as [Hdl|Hdl].
  - left. destruct (Hnew1 dl Hdl) as [He _].
    now apply findByStatus_In in He.
  - right. destruct (Hnew2 dl Hdl) as [He Hg].
    apply findByStatus_In in He. tauto.
Qed.

Lemma tick_exhausted s t r :
  List.NoDup (ids (queue s)) -> In r (queue s) -> exhausted cfg r ->
  ids (queue (tick cfg transport s t)) = ids (queue s)
  /\ In r (queue (tick cfg transport s t))
  /\ exists new,
      outbox (tick cfg transport s t) = (outbox s ++ new)%list
      /\ forall dl, In dl new -> QueuedEmail.id (d_email dl) <> QueuedEmail.id r.
Proof.
  intros Hnd Hin [Hfailed Hmax]. unfold tick. simpl.
  destruct (isProcessing s) eqn:Ep; simpl.
  - repeat split; auto. exists []. rewrite app_nil_r. split; [reflexivity|].
    intros dl [].
  - destruct (processEmailQueue_run (mkMail (queue s) t false (outbox s)) Hnd)
      as (Hids & _ & new & Hout & Hrows).
    destruct (Hrows r Hin Hfailed) as [Hdl Hkeep].
    split; [exact Hids|]. split; [now apply Hkeep|].
    exists new. split; [exact Hout|].
    intros dl Hnew Heq. destruct (Hdl dl Hnew Heq) as [_ Hdue].
    rewrite (retryDue_exhausted _ _ Hmax) in Hdue. discriminate.
Qed.

Lemma runProcessor_exhausted times r : forall s,
  List.NoDup (ids (queue s)) -> In r (queue s) -> exhausted cfg r ->
  ids (queue (runProcessor cfg transport times s)) = ids (queue s)
  /\ In r (queue (runProcessor cfg transport times s))
  /\ exists new,
      outbox (runProcessor cfg transport times s) = (outbox s ++ new)%list
      /\ forall dl, In dl new -> QueuedEmail.id (d_email dl) <> QueuedEmail.id r.
Proof.
  unfold runProcessor.
  induction times as [|t times IH]; intros s Hnd Hin Hex; simpl.
  - repeat split; auto. exists []. rewrite app_nil_r. split; [reflexivity|].
    intros dl [].
  - destruct (tick_exhausted s t r Hnd Hin Hex) as (Hids & Hin' & new1 & Hout1 & Hnew1).
    assert (Hnd' : List.NoDup (ids (queue (tick cfg transport s t))))
      by now rewrite Hids.
    destruct (IH _ Hnd' Hin' Hex) as (Hids2 & Hin2 & new2 & Hout2 & Hnew2).
    split; [now rewrite Hids2|]. split; [exact Hin2|].
    exists (new1 ++ new2)%list. split.
    + now rewrite Hout2, Hout1, app_assoc.
    + intros dl Hdl. apply in_app_or in Hdl as [Hdl|Hdl]; auto.
Qed.

(** C8 (retries of the mail queue).  The defaults are 3 attempts and a delay
    of 5 minutes.  Every call a run of the processor makes to the transport
    is for a row fetched as pending, or for a row fetched as failed whose
    attempts are below maxAttempts and whose lastAttempt, if it has one, lies
    at least the delay before the time of the call.  In a run on a table with
    distinct ids, every call for a row that was failed when the run started is
    a call for that very row, under the same two conditions.  A failed row whose attempts have reached maxAttempts is, after
    any number of firings of the processor at any times, still in the table
    and unchanged; no call to the transport has been made for it; and the
    table holds the same ids, in the same order: the processor deletes
    nothing. *)
Theorem C8_retry_only_when_due_and_exhausted_rows_stay :
  (maxAttempts defaultEmailConfig = 3 /\ delay defaultEmailConfig = 5 * 60 * 1000)
  /\ (forall s,
        exists new,
          outbox (processEmailQueue cfg transport s) = (outbox s ++ new)%list
          /\ forall dl, In dl new ->
               QueuedEmail.status (d_email dl) = "pending"
               \/ (QueuedEmail.status (d_email dl) = "failed"
                   /\ QueuedEmail.attempts (d_email dl) < maxAttempts cfg
                   /\ (forall t, QueuedEmail.lastAttempt (d_email dl) = Some t ->
                                 delay cfg <= d_time dl - t)))
  /\ (forall s r,
        List.NoDup (ids (queue s)) -> In r (queue s) ->
        QueuedEmail.status r = "failed" ->
        exists new,
          outbox (processEmailQueue cfg transport s) = (outbox s ++ new)%list
          /\ forall dl, In dl new ->
               QueuedEmail.id (d_email dl) = QueuedEmail.id r ->
               d_email dl = r
               /\ QueuedEmail.attempts r < maxAttempts cfg
               /\ (forall t, QueuedEmail.lastAttempt r = Some t ->
                             delay cfg <= d_time dl - t))
  /\ (forall times s r,
        List.NoDup (ids (queue s)) -> In r (queue s) -> exhausted cfg r ->
        In r (queue (runProcessor cfg transport times s))
        /\ ids (queue (runProcessor cfg transport times s)) = ids (queue s)
        /\ exists new,
            outbox (runProcessor cfg transport times s) = (outbox s ++ new)%list
            /\ forall dl, In dl new ->
                 QueuedEmail.id (d_email dl) <> QueuedEmail.id r).
Proof.
  split; [split; reflexivity|]. split; [|split].
  - intros s. destruct (processEmailQueue_calls s) as (new & Hout & Hcalls).
    exists new. split; [exact Hout|].
    intros dl Hdl. destruct (Hcalls dl Hdl) as [Hp|[Hf Hdue]]; [now left|right].
    split; [exact Hf|]. now apply retryDue_spec.
  - intros s r Hnd Hin Hfailed.
    destruct (processEmailQueue_run s Hnd) as (_ & _ & new & Hout & Hrows).
    exists new. split; [exact Hout|].
    intros dl Hdl Heq.
    destruct (Hrows r Hin Hfailed) as [Hcalls _].
    destruct (Hcalls dl Hdl Heq) as [Hr Hdue].
    split; [exact Hr|]. now apply retryDue_spec.
  - intros times s r Hnd Hin Hex.
    destruct (runProcessor_exhausted times r s Hnd Hin Hex) as (Hids & Hin' & Hnew).
    auto.
Qed.

End ProcessorProperties.

(** Three firings on the sample queue, the transport being down. *)
Lemma C8_retry_only_when_due_and_exhausted_rows_stay_witness :
  In mail_dead
     (queue (runProcessor defaultEmailConfig transport_down
                          [400000; 800000; 1200000] sample_mail)).
Proof.
  refine (proj1 (proj2 (proj2 (proj2
            (C8_retry_only_when_due_and_exhausted_rows_stay
               defaultEmailConfig transport_down)))
            [400000; 800000; 1200000] sample_mail mail_dead _ _ _)).
  - unfold ids; simpl. repeat constructor; simpl; intuition discriminate.
  - simpl. auto.
  - split; [reflexivity|]. simpl. lia.
Defined.

(** A message that the transport never takes is tried three times, five
    minutes or more apart, and then stays failed: the later firings make no
    call. *)
Example three_attempts_then_failed_for_good :
  let s := runProcessor defaultEmailConfig transport_down
             [0; 30000; 300020; 330020; 600040; 900060; 1200080]
             (mkMail [mail_pending] 0 false []) in
  map (fun e => (QueuedEmail.status e, QueuedEmail.attempts e,
                 QueuedEmail.lastAttempt e)) (queue s)
  = [("failed", 3, Some 600060)]
  /\ map d_time (outbox s) = [0; 300020; 600040].
Proof. repeat split. Qed.

(** ** The amended statements on the sample states *)

(** Carol, whose account is inactive, logs in with her right password. *)
Lemma C3_login_check_order_witness :
  login (L := toy_libraries) defaultConfig 1000 "5e55" two_factor_sys
        "c@x.com" "Car0l!Pass" None None
  = (login_failure msg_not_activated, two_factor_sys).
Proof.
  exact (proj1 (proj2 (proj2 (C3_login_check_order (L := toy_libraries)
           defaultConfig 1000 "5e55" two_factor_sys "c@x.com" "Car0l!Pass"
           None None))) carol eq_refl eq_refl eq_refl).
Defined.

(** A check at time 1000000 finds the failures of time 0 out of the window;
    the failure recorded after it counts as the first. *)
Lemma C5_record_increments_check_resets_witness :
  recordFailedAttempt 1000005
    (snd (checkRateLimit defaultConfig 1000000 stale_attempts "a@x.com"))
    "a@x.com" !! "a@x.com"
  = Some (mkAttempts 1 1000005).
Proof.
  exact (proj2 (proj1 (proj2 (proj2 (C5_record_increments_check_resets
           defaultConfig 1000000 1000005 stale_attempts "a@x.com")))
           (mkAttempts 3 0) eq_refl eq_refl)).
Defined.

(** * Further properties *)

(** ** Token ledger: issue, consume, sweep *)

Lemma find_map_agree {A} (P : A -> bool) (f : A -> A) (l : list A) :
  (forall x, In x l -> P (f x) = P x /\ (P x = true -> f x = x)) ->
  List.find P (map f l) = List.find P l.
Proof.
  induction l as [|a l IH]; simpl; intros H; [reflexivity|].
  destruct (H a (or_introl eq_refl)) as [H1 H2]. rewrite H1.
  destruct (P a) eqn:E.
  - now rewrite H2.
  - apply IH. intros x Hx. apply H. now right.
Qed.

Lemma find_filter_agree {A} (P Q : A -> bool) (l : list A) :
  (forall x, P x = true -> Q x = true) ->
  List.find P (List.filter Q l) = List.find P l.
Proof.
  intros H. induction l as [|a l IH]; simpl; [reflexivity|].
  destruct (Q a) eqn:EQ; simpl.
  - now rewrite IH.
  - destruct (P a) eqn:EP; [|exact IH].
    apply H in EP. congruence.
Qed.

(** What the ledger answers after an issue. *)
Lemma issue_then_verify_aux
    (now : Z) (rnd : string) (d : Db) (uid : Z) (ty : string) (ttl : Z)
    (tok : string) (d' : Db) :
  generateAuthToken now rnd d uid ty ttl = Some (tok, d') ->
  (forall now' ty',
     verifyAuthToken now' d' rnd ty'
     = if String.eqb ty ty' && (now' <? now + ttl)
       then Some (AuthToken.mk (tokenSeq d) (Some uid) rnd ty (now + ttl) false)
       else None)
  /\ (forall tok' now' ty', tok' <> rnd ->
        verifyAuthToken now' d' tok' ty' = verifyAuthToken now' d tok' ty').
Proof.
  intros Hissue. unfold generateAuthToken in Hissue.
  destruct (existsb _ (authTokens d)) eqn:E; [discriminate|].
  injection Hissue as <- <-.
  unfold verifyAuthToken; simpl. split.
  - intros now' ty'. rewrite find_app.
    replace (List.find (token_matches now' rnd ty') (authTokens d))
      with (@None AuthToken.t).
    + simpl. unfold token_matches; simpl. rewrite String.eqb_refl. simpl.
      destruct (String.eqb ty ty'); simpl; [|reflexivity].
      destruct (now' <? now + ttl); reflexivity.
    + symmetry. apply find_none_iff. intros x Hx. unfold token_matches.
      now rewrite (existsb_false_forall _ _ E x Hx).
  - intros tok' now' ty' Hne. rewrite find_app.
    destruct (List.find (token_matches now' tok' ty') (authTokens d)); [reflexivity|].
    simpl. unfold token_matches; simpl.
    assert (Hf : String.eqb rnd tok' = false) by (apply String.eqb_neq; congruence).
    now rewrite Hf.
Qed.

(** Issue then verify.  When generateAuthToken stores a token, verify of its
    value returns the stored row exactly for the type it was issued with and
    for times strictly before [now + expiresIn]; the verification of every
    other value is as it was before the issue. *)
Theorem issue_then_verify
    (now : Z) (rnd : string) (d : Db) (uid : Z) (ty : string) (ttl : Z)
    (tok : string) (d' : Db)
    (Hissue : generateAuthToken now rnd d uid ty ttl = Some (tok, d')) :
  tok = rnd
  /\ (forall now' ty',
        verifyAuthToken now' d' tok ty'
        = if String.eqb ty ty' && (now' <? now + ttl)
          then Some (AuthToken.mk (tokenSeq d) (Some uid) rnd ty (now + ttl) false)
          else None)
  /\ (forall tok' now' ty', tok' <> tok ->
        verifyAuthToken now' d' tok' ty' = verifyAuthToken now' d tok' ty').
Proof.
  assert (Htok : tok = rnd).
  { unfold generateAuthToken in Hissue.
    destruct (existsb _ (authTokens d)); [discriminate|]. now injection Hissue. }
  subst tok. split; [reflexivity|].
  exact (issue_then_verify_aux now rnd d uid ty ttl rnd d' Hissue).
Qed.

(** A token issued on the sample store at time 1000 for one hour. *)
Lemma issue_then_verify_witness :
  verifyAuthToken 3601000 (snd (default ("", sample_db)
      (generateAuthToken 1000 "f00d" sample_db 7 "password_reset" 3600000)))
    "f00d" "password_reset" = None.
Proof.
  exact (proj1 (proj2 (issue_then_verify 1000 "f00d" sample_db 7
           "password_reset" 3600000 "f00d" _ eq_refl)) 3601000 "password_reset").
Defined.

(** Consuming a token touches no other token: after markTokenAsUsed on one
    value, verify of every other value returns what it returned before. *)
Theorem consume_leaves_other_tokens
    (now : Z) (d : Db) (tok tok' ty : string) :
  tok' <> tok ->
  verifyAuthToken now (markTokenAsUsed d tok) tok' ty
  = verifyAuthToken now d tok' ty.
Proof.
  intros Hne. unfold verifyAuthToken, markTokenAsUsed; simpl.
  apply find_map_agree. intros r _.
  destruct (String.eqb (AuthToken.token r) tok) eqn:E; [|split; reflexivity].
  apply String.eqb_eq in E.
  assert (Hf : String.eqb (AuthToken.token r) tok' = false)
    by (apply String.eqb_neq; congruence).
  unfold token_matches; simpl. rewrite Hf. simpl. split; [reflexivity|discriminate].
Qed.

(** Two open tokens on the sample store; the first is consumed. *)
Lemma consume_leaves_other_tokens_witness :
  verifyAuthToken 1000 (markTokenAsUsed two_factor_db "abc123") "chal-bob" "2fa"
  = verifyAuthToken 1000 two_factor_db "chal-bob" "2fa".
Proof.
  apply (consume_leaves_other_tokens 1000 two_factor_db "abc123" "chal-bob" "2fa").
  discriminate.
Defined.

(** The sweep is invisible to verify: whatever the cleanup task deletes,
    verifyAuthToken returns the same answer on the swept store as on the
    store before, for every value, type and time. *)
Theorem cleanup_invisible_to_verify
    (now now' : Z) (d : Db) (tok ty : string) :
  verifyAuthToken now' (cleanup now d) tok ty = verifyAuthToken now' d tok ty.
Proof.
  unfold verifyAuthToken, cleanup, cleanupSessions, cleanupTokens; simpl.
  apply find_filter_agree. intros r Hr.
  apply token_matches_spec in Hr as (_ & _ & Hu & _). now rewrite Hu.
Qed.

(** ** Email verification and password reset: failures and second uses *)

(** verifyEmail is single use and touches one account.  With a valid
    email_verification token, verifyEmail succeeds; afterwards every user row
    of the id of the token has isActive true, with its other columns as
    before; the user rows of other ids are as before and no password changes;
    and any later verifyEmail of the same value, at any time, fails and leaves
    the store as it is. *)
Theorem verifyEmail_single_use
    (now : Z) (d : Db) (tok : string) (t : AuthToken.t)
    (Hvalid : verifyAuthToken now d tok "email_verification" = Some t) :
  fst (verifyEmail now d tok) = OpResult.mk true msg_verify_ok
  /\ (forall u, In u (users d) -> AuthToken.userId t <> Some (User.id u) ->
                In u (users (snd (verifyEmail now d tok))))
  /\ (forall u, In u (users d) -> AuthToken.userId t = Some (User.id u) ->
                In (set_active u) (users (snd (verifyEmail now d tok))))
  /\ map User.password (users (snd (verifyEmail now d tok)))
     = map User.password (users d)
  /\ sessions (snd (verifyEmail now d tok)) = sessions d
  /\ (forall now',
        verifyEmail now' (snd (verifyEmail now d tok)) tok
        = (OpResult.mk false msg_verify_invalid, snd (verifyEmail now d tok)))
  /\ (forall u', In u' (users (snd (verifyEmail now d tok))) ->
        AuthToken.userId t = Some (User.id u') -> User.isActive u' = true)
  /\ (forall u, In u (users d) -> AuthToken.userId t = Some (User.id u) ->
        In (User.mk (User.id u) (User.username u) (User.email u)
                    (User.password u) (User.displayName u) (User.role u) true)
           (users (snd (verifyEmail now d tok))))
  /\ map User.id (users (snd (verifyEmail now d tok))) = map User.id (users d).
Proof.
  assert (He : verifyEmail now d tok
               = (OpResult.mk true msg_verify_ok,
                  markTokenAsUsed (activateUser d (AuthToken.userId t)) tok)).
  { unfold verifyEmail. now rewrite Hvalid. }
  rewrite He. simpl.
  split; [reflexivity|].
  assert (Hcol : forall u, col_eq_nullable (Some (User.id u)) (AuthToken.userId t) = true
                           <-> AuthToken.userId t = Some (User.id u)).
  { intros u. destruct (AuthToken.userId t) as [x|]; simpl.
    - rewrite Z.eqb_eq. split; congruence.
    - split; discriminate. }
  split.
  { intros u Hin Hne. apply in_map_iff. exists u. split; [|exact Hin].
    destruct (col_eq_nullable _ _) eqn:E; [|reflexivity].
    now apply Hcol in E. }
  split.
  { intros u Hin Heq. apply in_map_iff. exists u. split; [|exact Hin].
    apply Hcol in Heq. now rewrite Heq. }
  split.
  { rewrite map_map. apply map_ext. intros u.
    now destruct (col_eq_nullable _ _). }
  split; [reflexivity|].
  split.
  { intros now'. unfold verifyEmail.
    now rewrite (markTokenAsUsed_kills now' (activateUser d (AuthToken.userId t))
                   tok "email_verification"). }
  split.
  { intros u' Hin Hown. apply in_map_iff in Hin as (u & <- & _).
    destruct (col_eq_nullable _ _) eqn:E; [reflexivity|].
    assert (Hu : AuthToken.userId t = Some (User.id u)).
    { destruct (col_eq_nullable (Some (User.id u)) (AuthToken.userId t)); exact Hown. }
    apply Hcol in Hu. congruence. }
  split.
  { intros u Hin Heq. apply in_map_iff. exists u. split; [|exact Hin].
    apply Hcol in Heq. now rewrite Heq. }
  rewrite map_map. apply map_ext. intros u.
  now destruct (col_eq_nullable _ _).
Qed.

Section ResetFailures.
Context {L : Libraries} (cfg : AuthConfig).

(** A failed password reset writes nothing.  resetPassword succeeds exactly
    when the new password passes validatePassword and the token verifies as
    password_reset; in every other case the store is returned as it was, so
    the token is not consumed, no password changes and no session is deleted.
    A weak password is refused before the token is looked at. *)
Theorem resetPassword_failure_writes_nothing
    (now : Z) (d : Db) (tok pw : string) :
  (OpResult.success (fst (resetPassword cfg now d tok pw)) = true <->
   validatePassword pw = true
   /\ exists t, verifyAuthToken now d tok "password_reset" = Some t)
  /\ (OpResult.success (fst (resetPassword cfg now d tok pw)) = false ->
      snd (resetPassword cfg now d tok pw) = d)
  /\ (validatePassword pw = false ->
      fst (resetPassword cfg now d tok pw) = OpResult.mk false msg_weak_password).
Proof.
  unfold resetPassword.
  destruct (validatePassword pw) eqn:Epw; simpl.
  - destruct (verifyAuthToken now d tok "password_reset") as [t|] eqn:Et; simpl.
    + split; [|split; discriminate].
      split; [intros _; split; [reflexivity|eauto]|reflexivity].
    + split; [|split; [reflexivity|discriminate]].
      split; [discriminate|]. intros [_ [t Ht]]. discriminate.
  - split; [|split; reflexivity].
    split; [discriminate|]. intros [H _]. discriminate.
Qed.

End ResetFailures.

(** Carol verifies her email on the sample store. *)
Lemma verifyEmail_single_use_witness :
  verifyEmail 2000 (snd (verifyEmail 1000 verification_db "ver-carol")) "ver-carol"
  = (OpResult.mk false msg_verify_invalid,
     snd (verifyEmail 1000 verification_db "ver-carol")).
Proof.
  exact (proj1 (proj2 (proj2 (proj2 (proj2 (proj2
           (verifyEmail_single_use 1000 verification_db "ver-carol"
              carol_verification eq_refl)))))) 2000).
Defined.

(** ** Registration: conflicts and what a failure leaves behind *)

Section RegisterFurther.
Context {L : Libraries} (cfg : AuthConfig).

Lemma find_email_app d em u :
  findUserByEmail d em = None ->
  List.find (fun x => String.eqb (User.email x) em) (users d ++ [u])
  = if String.eqb (User.email u) em then Some u else None.
Proof.
  unfold findUserByEmail. intros H. rewrite find_app, H. simpl.
  now destruct (String.eqb (User.email u) em).
Qed.

(** The same email cannot be registered twice.  After a successful register
    for an email, every later register for that email with a password that
    passes validatePassword is refused with the message that the account
    already exists, whatever the username, and leaves the store as it is. *)
Theorem register_same_email_refused
    (now now2 : Z) (rnd rnd2 : string) (d : Db)
    (un un2 em pw pw2 : string) (dn dn2 : option string)
    (Hok : RegisterResult.success (fst (register cfg now rnd d un em pw dn)) = true)
    (Hpw2 : validatePassword pw2 = true) :
  register cfg now2 rnd2 (snd (register cfg now rnd d un em pw dn)) un2 em pw2 dn2
  = (register_failure msg_email_taken, snd (register cfg now rnd d un em pw dn)).
Proof.
  destruct (register_success_shape cfg _ _ _ _ _ _ _ Hok)
    as (u & _ & Hem & Hfree & _ & _ & _ & Hue & _ & _ & Hus & _).
  unfold register at 1. rewrite Hpw2, Hem. simpl.
  unfold findUserByEmail at 1. rewrite Hus.
  rewrite (find_email_app d em u Hfree), Hue, String.eqb_refl. reflexivity.
Qed.

(** Accounts stay distinct.  If no two users share an email and no two share
    a username, the same holds after any register, successful or not. *)
Theorem register_keeps_accounts_distinct
    (now : Z) (rnd : string) (d : Db) (un em pw : string) (dn : option string)
    (Hemails : List.NoDup (map User.email (users d)))
    (Hnames : List.NoDup (map User.username (users d))) :
  List.NoDup (map User.email (users (snd (register cfg now rnd d un em pw dn))))
  /\ List.NoDup (map User.username (users (snd (register cfg now rnd d un em pw dn)))).
Proof.
  assert (Hfresh : forall (f : User.t -> string) x,
            List.find (fun u => String.eqb (f u) x) (users d) = None ->
            ~ In x (map f (users d))).
  { intros f x Hnone Hin. apply in_map_iff in Hin as (u & Hu & Hin).
    pose proof (find_none _ _ Hnone u Hin) as Hf. simpl in Hf.
    apply String.eqb_neq in Hf. congruence. }
  assert (Hadd : forall (f : User.t -> string) u,
            List.NoDup (map f (users d)) -> ~ In (f u) (map f (users d)) ->
            List.NoDup (map f (users d ++ [u]))).
  { intros f u Hnd Hnot. rewrite map_app. simpl.
    apply List.NoDup_app; [exact Hnd|constructor; [intros []|constructor]|].
    intros x Hx [<-|[]]. now apply Hnot. }
  unfold register.
  destruct (validatePassword pw); simpl; [|auto].
  destruct (validateEmail em); simpl; [|auto].
  destruct (findUserByEmail d em) eqn:Ee; simpl; [auto|].
  destruct (findUserByUsername d un) eqn:En; simpl; [auto|].
  assert (He : forall u, User.email u = em ->
                         List.NoDup (map User.email (users d ++ [u]))).
  { intros u <-. apply Hadd; [exact Hemails|]. now apply Hfresh. }
  assert (Hn : forall u, User.username u = un ->
                         List.NoDup (map User.username (users d ++ [u]))).
  { intros u <-. apply Hadd; [exact Hnames|]. now apply Hfresh. }
  destruct (requireEmailVerification cfg); simpl.
  - destruct (generateAuthToken _ _ _ _ _ _) as [[vt d2]|] eqn:Eg; simpl.
    + unfold generateAuthToken in Eg. simpl in Eg.
      destruct (existsb _ (authTokens d)); [discriminate|].
      injection Eg as _ <-. simpl. split; [apply He|apply Hn]; reflexivity.
    + split; [apply He|apply Hn]; reflexivity.
  - split; [apply He|apply Hn]; reflexivity.
Qed.

(** What a failed register leaves behind.  A register that reports failure
    leaves the store as it was, with one exception: when email verification
    is required and the insert of the verification token is refused because
    its value is already stored, the user row has already been inserted and
    stays, without any verification token for it. *)
Theorem register_failure_footprint
    (now : Z) (rnd : string) (d : Db) (un em pw : string) (dn : option string)
    (Hfail : RegisterResult.success (fst (register cfg now rnd d un em pw dn)) = false) :
  snd (register cfg now rnd d un em pw dn) = d
  \/ (requireEmailVerification cfg = true
      /\ existsb (fun r => String.eqb (AuthToken.token r) rnd) (authTokens d) = true
      /\ fst (register cfg now rnd d un em pw dn) = register_failure msg_register_error
      /\ authTokens (snd (register cfg now rnd d un em pw dn)) = authTokens d
      /\ exists u, users (snd (register cfg now rnd d un em pw dn)) = (users d ++ [u])%list
                   /\ User.email u = em /\ User.username u = un
                   /\ User.isActive u = false).
Proof.
  revert Hfail. unfold register.
  destruct (validatePassword pw); simpl; [|auto].
  destruct (validateEmail em); simpl; [|auto].
  destruct (findUserByEmail d em); simpl; [auto|].
  destruct (findUserByUsername d un); simpl; [auto|].
  destruct (requireEmailVerification cfg) eqn:Er; simpl; [|discriminate].
  unfold generateAuthToken; simpl.
  destruct (existsb _ (authTokens d)) eqn:Ex; simpl; [|discriminate].
  intros _. right. repeat split. eexists. repeat split.
Qed.

End RegisterFurther.

(** A second registration for the email of dave. *)
Lemma register_same_email_refused_witness :
  register (L := toy_libraries) defaultConfig 2000 "beef"
    (snd (register (L := toy_libraries) defaultConfig 1000 "f00d" sample_db
                   "dave" "d@x.com" "Str0ng!Pass" None))
    "david" "d@x.com" "0ther!Pass" None
  = (register_failure msg_email_taken,
     snd (register (L := toy_libraries) defaultConfig 1000 "f00d" sample_db
                   "dave" "d@x.com" "Str0ng!Pass" None)).
Proof.
  exact (register_same_email_refused (L := toy_libraries) defaultConfig
           1000 2000 "f00d" "beef" sample_db "dave" "david" "d@x.com"
           "Str0ng!Pass" "0ther!Pass" None None eq_refl eq_refl).
Defined.

(** The sample store has distinct accounts; dave is added. *)
Lemma register_keeps_accounts_distinct_witness :
  List.NoDup (map User.email
    (users (snd (register (L := toy_libraries) defaultConfig 1000 "f00d"
                          sample_db "dave" "d@x.com" "Str0ng!Pass" None)))).
Proof.
  refine (proj1 (register_keeps_accounts_distinct (L := toy_libraries)
            defaultConfig 1000 "f00d" sample_db "dave" "d@x.com" "Str0ng!Pass"
            None _ _));
    simpl; repeat constructor; simpl; intuition discriminate.
Defined.

(** Dave registers while the drawn value is the one of a stored token: the
    call fails and dave is in the table. *)
Lemma register_failure_footprint_witness :
  map User.username
    (users (snd (register (L := toy_libraries) defaultConfig 1000 "abc123"
                          sample_db "dave" "d@x.com" "Str0ng!Pass" None)))
  = ["alice"; "bob"; "dave"].
Proof.
  destruct (register_failure_footprint (L := toy_libraries) defaultConfig 1000
              "abc123" sample_db "dave" "d@x.com" "Str0ng!Pass" None eq_refl)
    as [Hsame|_]; reflexivity.
Defined.

(** ** Login: lock-out, success, the two-factor challenge *)

Section LoginFurther.
Context {L : Libraries} (cfg : AuthConfig).

Lemma last_cons {A} (ts : list A) : forall t t0,
  List.last (t :: ts) t0 = List.last ts t.
Proof.
  induction ts as [|z ts IH]; intros t t0; [reflexivity|].
  change (List.last (t :: z :: ts) t0) with (List.last (z :: ts) t0).
  now rewrite !IH.
Qed.

Lemma sys_eta s : mkSys (db s) (loginAttempts s) = s.
Proof. now destruct s. Qed.

Lemma login_bad_credentials now rnd s email pw code tok m :
  checkRateLimit cfg now (loginAttempts s) email = (true, m) ->
  bad_credentials (db s) email pw ->
  login cfg now rnd s email pw code tok
  = (login_failure msg_invalid_credentials,
     mkSys (db s) (recordFailedAttempt now m email)).
Proof.
  intros Hc Hbad. rewrite (login_after_check cfg _ _ _ _ _ _ _ _ _ Hc). simpl.
  destruct Hbad as [Hn|(u & Hu & Ha & Hp)].
  - now rewrite Hn.
  - now rewrite Hu, Ha, Hp.
Qed.

Lemma login_locked now rnd s email pw code tok a :
  loginAttempts s !! email = Some a ->
  loginAttemptsMax cfg <= count a ->
  now - lastAttempt a <= timeWindow cfg ->
  login cfg now rnd s email pw code tok = (login_failure msg_rate_limited, s).
Proof.
  intros Ha Hc Hw.
  rewrite (login_after_check cfg _ _ _ _ _ _ _ _ _
             (checkRateLimit_fresh cfg now _ email a Ha Hw)).
  apply Z.ltb_ge in Hc. rewrite Hc. simpl. now rewrite sys_eta.
Qed.

(** Failed logins inside the window add up. *)
Lemma failed_logins_count rnd email pw ts : forall s k t0,
  loginAttempts s !! email = Some (mkAttempts k t0) ->
  bad_credentials (db s) email pw ->
  gaps_within (timeWindow cfg) t0 ts ->
  k + Z.of_nat (List.length ts) <= loginAttemptsMax cfg ->
  db (fold_left (fun s t => snd (login cfg t rnd s email pw None None)) ts s) = db s
  /\ loginAttempts
       (fold_left (fun s t => snd (login cfg t rnd s email pw None None)) ts s)
     !! email
     = Some (mkAttempts (k + Z.of_nat (List.length ts)) (List.last ts t0)).
Proof.
  induction ts as [|t ts IH]; intros s k t0 Hentry Hbad Hgaps Hmax.
  - simpl. rewrite Z.add_0_r. auto.
  - destruct Hgaps as [Hgap Hgaps].
    assert (Hlen : Z.of_nat (List.length (t :: ts)) = 1 + Z.of_nat (List.length ts))
      by (simpl List.length; lia).
    rewrite Hlen in *.
    assert (Hk : k < loginAttemptsMax cfg) by lia.
    assert (Hc : checkRateLimit cfg t (loginAttempts s) email
                 = (true, loginAttempts s)).
    { rewrite (checkRateLimit_fresh cfg t _ email _ Hentry Hgap). simpl.
      apply Z.ltb_lt in Hk. now rewrite Hk. }
    pose proof (login_bad_credentials t rnd s email pw None None _ Hc Hbad) as Hl.
    cbn [fold_left]. rewrite Hl. cbn [snd].
    destruct (IH (mkSys (db s) (recordFailedAttempt t (loginAttempts s) email))
                 (k + 1) t) as [Hdb Hcnt].
    + cbn [loginAttempts]. rewrite recordFailedAttempt_lookup, Hentry. reflexivity.
    + exact Hbad.
    + exact Hgaps.
    + lia.
    + split; [exact Hdb|]. rewrite Hcnt, (last_cons ts t t0).
      f_equal. f_equal. lia.
Qed.

(** Lock-out.  Start with no entry for the identifier and make failed logins
    (unknown user, or wrong password for an active user) at times [t1 :: ts],
    none more than the window after the one before, as many as the threshold
    allows.  Then the store is untouched, the entry counts exactly the
    threshold, and every login for the identifier made within the window
    after the last failure is refused as rate limited and changes nothing,
    whatever password or code it brings. *)
Theorem failed_logins_lock_the_identifier
    (rnd email pw : string) (t1 : Z) (ts : list Z) (s : Sys)
    (Hnone : loginAttempts s !! email = None)
    (Hbad : bad_credentials (db s) email pw)
    (Hgaps : gaps_within (timeWindow cfg) t1 ts)
    (Hmax : 1 + Z.of_nat (List.length ts) = loginAttemptsMax cfg) :
  db (fold_left (fun s t => snd (login cfg t rnd s email pw None None)) (t1 :: ts) s)
  = db s
  /\ loginAttempts
       (fold_left (fun s t => snd (login cfg t rnd s email pw None None)) (t1 :: ts) s)
     !! email
     = Some (mkAttempts (loginAttemptsMax cfg) (List.last ts t1))
  /\ (forall now rnd' pw' code tok,
        now - List.last ts t1 <= timeWindow cfg ->
        login cfg now rnd'
          (fold_left (fun s t => snd (login cfg t rnd s email pw None None)) (t1 :: ts) s)
          email pw' code tok
        = (login_failure msg_rate_limited,
           fold_left (fun s t => snd (login cfg t rnd s email pw None None))
                     (t1 :: ts) s)).
Proof.
  assert (Hc : checkRateLimit cfg t1 (loginAttempts s) email = (true, loginAttempts s)).
  { unfold checkRateLimit. now rewrite Hnone. }
  pose proof (login_bad_credentials t1 rnd s email pw None None _ Hc Hbad) as Hl.
  cbn [fold_left]. rewrite Hl. cbn [snd].
  destruct (failed_logins_count rnd email pw ts
              (mkSys (db s) (recordFailedAttempt t1 (loginAttempts s) email)) 1 t1)
    as [Hdb Hcnt].
  - cbn [loginAttempts]. rewrite recordFailedAttempt_lookup, Hnone. reflexivity.
  - exact Hbad.
  - exact Hgaps.
  - lia.
  - rewrite Hmax in Hcnt. split; [exact Hdb|]. split; [exact Hcnt|].
    intros now rnd' pw' code tok Hw.
    apply (login_locked now rnd' _ email pw' code tok _ Hcnt); simpl; [lia|exact Hw].
Qed.

Lemma existsb_session_fresh (l : list Session.t) rnd :
  (forall x, In x l -> Session.id x <> rnd) ->
  existsb (fun x => String.eqb (Session.id x) rnd) l = false.
Proof.
  intros H. destruct (existsb _ l) eqn:E; [|reflexivity].
  apply existsb_exists in E as (x & Hin & Heq).
  apply String.eqb_eq in Heq. now apply H in Hin.
Qed.

(** A successful login without two-factor authentication.  When the rate
    check passes, the user is active, the password compares, the user has no
    enabled two-factor credential and the drawn session id is not in use,
    login succeeds with the signed token of the user; it adds exactly one
    session, owned by the user, expiring sessionTimeout after the login and
    holding the returned token; it removes the entry of the identifier from
    the map of failed attempts; and it writes nothing else. *)
Theorem login_success_opens_one_session
    (now : Z) (rnd : string) (s : Sys) (email pw : string)
    (code tok : option string) (u : User.t)
    (Hrate : fst (checkRateLimit cfg now (loginAttempts s) email) = true)
    (Huser : findUserByEmail (db s) email = Some u)
    (Hactive : User.isActive u = true)
    (Hpw : bcrypt_compare pw (User.password u) = true)
    (Hno2fa : findTwoFactor (db s) (User.id u) true = None)
    (Hfresh : forall x, In x (sessions (db s)) -> Session.id x <> rnd) :
  fst (login cfg now rnd s email pw code tok)
  = LoginResult.mk true (Some u) (Some (generateJWT cfg now u)) None None msg_login_ok
  /\ sessions (db (snd (login cfg now rnd s email pw code tok)))
     = (sessions (db s) ++
          [Session.mk rnd (Some (User.id u)) (now + sessionTimeout cfg)
                      (generateJWT cfg now u)])%list
  /\ loginAttempts (snd (login cfg now rnd s email pw code tok)) !! email = None
  /\ (forall j, j <> email ->
        loginAttempts (snd (login cfg now rnd s email pw code tok)) !! j
        = loginAttempts s !! j)
  /\ users (db (snd (login cfg now rnd s email pw code tok))) = users (db s)
  /\ authTokens (db (snd (login cfg now rnd s email pw code tok))) = authTokens (db s)
  /\ writes (db (snd (login cfg now rnd s email pw code tok)))
     = (writes (db s) ++ [InsertSession rnd])%list.
Proof.
  destruct (checkRateLimit cfg now (loginAttempts s) email) as [allowed m] eqn:E.
  simpl in Hrate. subst allowed.
  assert (Hm : forall j, j <> email -> m !! j = loginAttempts s !! j).
  { intros j Hj. revert E. unfold checkRateLimit.
    destruct (loginAttempts s !! email) as [a|].
    - destruct (timeWindow cfg <? now - lastAttempt a).
      + intros [= <-]. apply lookup_delete_ne. congruence.
      + now intros [= _ <-].
    - now intros [= <-]. }
  unfold login. rewrite E, Huser, Hactive, Hpw, Hno2fa. simpl.
  unfold createSession. rewrite (existsb_session_fresh _ _ Hfresh). simpl.
  unfold clearRateLimit.
  split; [reflexivity|]. split; [reflexivity|].
  split; [apply lookup_delete_eq|].
  split; [intros j Hj; rewrite lookup_delete_ne by congruence; now apply Hm|].
  repeat split.
Qed.

(** The two-factor challenge.  When the credentials are good, the user has
    an enabled two-factor credential and the call brings no code or no
    challenge token (absent or empty), login does not authenticate: it
    returns requiresTwoFactor with a fresh challenge and no bearer token,
    opens no session, and leaves the map of failed attempts as the rate check
    left it.  The challenge it returns verifies as a 2fa token, for this
    user, until twoFactor lifetime after the login and not later. *)
Theorem login_two_factor_challenge
    (now : Z) (rnd : string) (s : Sys) (email pw : string)
    (code tok : option string) (u : User.t) (tf : TwoFA.t)
    (Hrate : fst (checkRateLimit cfg now (loginAttempts s) email) = true)
    (Huser : findUserByEmail (db s) email = Some u)
    (Hactive : User.isActive u = true)
    (Hpw : bcrypt_compare pw (User.password u) = true)
    (Htf : findTwoFactor (db s) (User.id u) true = Some tf)
    (Hmissing : falsy code = true \/ falsy tok = true)
    (Hfresh : forall r, In r (authTokens (db s)) -> AuthToken.token r <> rnd) :
  fst (login cfg now rnd s email pw code tok)
  = LoginResult.mk false None None (Some true) (Some rnd) msg_two_factor_required
  /\ sessions (db (snd (login cfg now rnd s email pw code tok))) = sessions (db s)
  /\ loginAttempts (snd (login cfg now rnd s email pw code tok))
     = snd (checkRateLimit cfg now (loginAttempts s) email)
  /\ (forall now',
        verifyAuthToken now' (db (snd (login cfg now rnd s email pw code tok)))
                        rnd "2fa"
        = if now' <? now + twoFactorTtl cfg
          then Some (AuthToken.mk (tokenSeq (db s)) (Some (User.id u)) rnd "2fa"
                                  (now + twoFactorTtl cfg) false)
          else None).
Proof.
  destruct (checkRateLimit cfg now (loginAttempts s) email) as [allowed m] eqn:E.
  simpl in Hrate. subst allowed.
  pose proof (generateAuthToken_fresh now rnd (db s) (User.id u) "2fa"
                (twoFactorTtl cfg) Hfresh) as Hg.
  assert (Hor : falsy code || falsy tok = true)
    by (apply orb_true_iff; exact Hmissing).
  unfold login. rewrite E, Huser, Hactive, Hpw, Htf. simpl.
  rewrite Hor, Hg. simpl.
  split; [reflexivity|]. split; [reflexivity|]. split; [reflexivity|].
  intros now'.
  destruct (issue_then_verify_aux now rnd (db s) (User.id u) "2fa"
              (twoFactorTtl cfg) _ _ Hg) as [Hv _].
  rewrite (Hv now' "2fa"). reflexivity.
Qed.

Lemma falsy_false o : falsy o = false -> exists x, o = Some x /\ x <> "".
Proof.
  destruct o as [x|]; simpl; [|discriminate].
  intros H. exists x. split; [reflexivity|]. now apply String.eqb_neq.
Qed.

(** The gates a successful login has passed. *)
Lemma login_success_gates now rnd s email pw code tok :
  LoginResult.success (fst (login cfg now rnd s email pw code tok)) = true ->
  fst (checkRateLimit cfg now (loginAttempts s) email) = true
  /\ exists u,
      findUserByEmail (db s) email = Some u
      /\ User.isActive u = true
      /\ bcrypt_compare pw (User.password u) = true
      /\ fst (login cfg now rnd s email pw code tok)
         = LoginResult.mk true (Some u) (Some (generateJWT cfg now u)) None None
                          msg_login_ok
      /\ (forall tf, findTwoFactor (db s) (User.id u) true = Some tf ->
            exists c k t,
              code = Some c /\ tok = Some k /\ c <> "" /\ k <> ""
              /\ verifyAuthToken now (db s) k "2fa" = Some t
              /\ AuthToken.userId t = Some (User.id u)
              /\ totp_verify (TwoFA.secret tf) c 2 now = true).
Proof.
  unfold login.
  destruct (checkRateLimit cfg now (loginAttempts s) email) as [allowed m].
  destruct allowed; simpl; [|discriminate].
  destruct (findUserByEmail (db s) email) as [u|]; simpl; [|discriminate].
  destruct (User.isActive u) eqn:Ea; simpl; [|discriminate].
  destruct (bcrypt_compare pw (User.password u)) eqn:Ep; simpl; [|discriminate].
  destruct (findTwoFactor (db s) (User.id u) true) as [tf|] eqn:Etf.
  - destruct (falsy code) eqn:Ec; simpl.
    { destruct (generateAuthToken _ _ _ _ _ _) as [[? ?]|]; discriminate. }
    destruct (falsy tok) eqn:Et; simpl.
    { destruct (generateAuthToken _ _ _ _ _ _) as [[? ?]|]; discriminate. }
    apply falsy_false in Ec as (c & -> & Hc).
    apply falsy_false in Et as (k & -> & Hk). simpl.
    destruct (verifyAuthToken now (db s) k "2fa") as [t|] eqn:Ev; [|discriminate].
    destruct (col_eq (AuthToken.userId t) (User.id u)) eqn:Eo; simpl; [|discriminate].
    destruct (totp_verify (TwoFA.secret tf) c 2 now) eqn:Eotp; simpl; [|discriminate].
    destruct (createSession _ _ _ _ _ _); simpl; [|discriminate].
    intros _. split; [reflexivity|]. exists u. repeat split; auto.
    intros tf' Htf'. assert (tf' = tf) by congruence. subst tf'.
    exists c, k, t. apply col_eq_spec in Eo. auto 10.
  - destruct (createSession _ _ _ _ _ _); simpl; [|discriminate].
    intros _. split; [reflexivity|]. exists u. repeat split; auto.
    intros tf' Htf'. congruence.
Qed.

(** Login is sound.  Every login that reports success has passed the rate
    check for the identifier, found a user with that email who is active and
    whose password compares, and returns that user with a token signed for
    them; and if that user has an enabled two-factor credential, the call
    brought a non-empty code and a challenge token that verifies as 2fa,
    belongs to that user, and whose code verifies against the secret. *)
Theorem login_success_is_sound
    (now : Z) (rnd : string) (s : Sys) (email pw : string)
    (code tok : option string)
    (Hok : LoginResult.success (fst (login cfg now rnd s email pw code tok)) = true) :
  fst (checkRateLimit cfg now (loginAttempts s) email) = true
  /\ exists u,
      findUserByEmail (db s) email = Some u
      /\ User.isActive u = true
      /\ bcrypt_compare pw (User.password u) = true
      /\ LoginResult.user (fst (login cfg now rnd s email pw code tok)) = Some u
      /\ LoginResult.token (fst (login cfg now rnd s email pw code tok))
         = Some (generateJWT cfg now u)
      /\ (forall tf, findTwoFactor (db s) (User.id u) true = Some tf ->
            exists c k t,
              code = Some c /\ tok = Some k /\ c <> "" /\ k <> ""
              /\ verifyAuthToken now (db s) k "2fa" = Some t
              /\ AuthToken.userId t = Some (User.id u)
              /\ totp_verify (TwoFA.secret tf) c 2 now = true).
Proof.
  destruct (login_success_gates _ _ _ _ _ _ _ Hok)
    as (Hrate & u & Hu & Ha & Hp & Hres & Htf).
  split; [exact Hrate|]. exists u. rewrite Hres. simpl. auto 10.
Qed.

(** No session without success.  A login that does not report success
    returns no bearer token and leaves the tables of sessions and of users as
    they were; a login that reports success adds exactly one session. *)
Theorem login_failure_opens_no_session
    (now : Z) (rnd : string) (s : Sys) (email pw : string)
    (code tok : option string) :
  users (db (snd (login cfg now rnd s email pw code tok))) = users (db s)
  /\ (LoginResult.success (fst (login cfg now rnd s email pw code tok)) = false ->
      LoginResult.token (fst (login cfg now rnd s email pw code tok)) = None
      /\ sessions (db (snd (login cfg now rnd s email pw code tok)))
         = sessions (db s))
  /\ (LoginResult.success (fst (login cfg now rnd s email pw code tok)) = true ->
      exists x,
        sessions (db (snd (login cfg now rnd s email pw code tok)))
        = (sessions (db s) ++ [x])%list
        /\ Session.id x = rnd
        /\ LoginResult.token (fst (login cfg now rnd s email pw code tok))
           = Some (Session.data x)).
Proof.
  unfold login.
  destruct (checkRateLimit cfg now (loginAttempts s) email) as [allowed m].
  destruct allowed; simpl; [|repeat split; discriminate].
  destruct (findUserByEmail (db s) email) as [u|]; simpl;
    [|repeat split; discriminate].
  destruct (User.isActive u); simpl; [|repeat split; discriminate].
  destruct (bcrypt_compare pw (User.password u)); simpl;
    [|repeat split; discriminate].
  assert (Hfinish : forall d',
    users d' = users (db s) -> sessions d' = sessions (db s) ->
    let r := match createSession cfg now rnd d' (User.id u) (generateJWT cfg now u) with
             | Some d'' =>
                 (LoginResult.mk true (Some u) (Some (generateJWT cfg now u))
                                 None None msg_login_ok,
                  mkSys d'' (clearRateLimit m email))
             | None => (login_failure msg_login_error, mkSys d' m)
             end in
    users (db (snd r)) = users (db s)
    /\ (LoginResult.success (fst r) = false ->
        LoginResult.token (fst r) = None /\ sessions (db (snd r)) = sessions (db s))
    /\ (LoginResult.success (fst r) = true ->
        exists x, sessions (db (snd r)) = (sessions (db s) ++ [x])%list
                  /\ Session.id x = rnd
                  /\ LoginResult.token (fst r) = Some (Session.data x))).
  { intros d' Hu Hs. unfold createSession.
    destruct (existsb _ (sessions d')); simpl.
    - repeat split; auto; discriminate.
    - rewrite Hs. repeat split; auto; try discriminate.
      intros _. eexists. repeat split. }
  destruct (findTwoFactor (db s) (User.id u) true) as [tf|].
  - destruct (falsy code || falsy tok); simpl.
    + unfold generateAuthToken.
      destruct (existsb _ (authTokens (db s))); simpl; repeat split; discriminate.
    + destruct (verifyAuthToken now (db s) (default "" tok) "2fa") as [t|]; simpl;
        [|repeat split; discriminate].
      destruct (col_eq (AuthToken.userId t) (User.id u)); simpl;
        [|repeat split; discriminate].
      destruct (totp_verify (TwoFA.secret tf) (default "" code) 2 now); simpl;
        [|repeat split; discriminate].
      apply Hfinish; reflexivity.
  - apply Hfinish; reflexivity.
Qed.

Lemma find_map_pres {A} (P : A -> bool) (f : A -> A) (l : list A) :
  (forall x, P (f x) = P x) ->
  List.find P (map f l) = option_map f (List.find P l).
Proof.
  intros H. induction l as [|a l IH]; simpl; [reflexivity|].
  rewrite H. now destruct (P a).
Qed.

(** A challenge authenticates once.  A login that passes every gate of the
    two-factor step (good credentials, a challenge token that verifies as
    2fa and belongs to the user, a code that verifies, a session id not in
    use) succeeds and opens a session; after it, no login for the identifier
    that brings the same challenge token reports success, at any time and
    with any password and code. *)
Theorem login_two_factor_challenge_single_use
    (now : Z) (rnd : string) (s : Sys) (email pw c k : string)
    (u : User.t) (tf : TwoFA.t) (t : AuthToken.t)
    (Hrate : fst (checkRateLimit cfg now (loginAttempts s) email) = true)
    (Huser : findUserByEmail (db s) email = Some u)
    (Hactive : User.isActive u = true)
    (Hpw : bcrypt_compare pw (User.password u) = true)
    (Htf : findTwoFactor (db s) (User.id u) true = Some tf)
    (Hc : c <> "") (Hk : k <> "")
    (Hv : verifyAuthToken now (db s) k "2fa" = Some t)
    (Hown : AuthToken.userId t = Some (User.id u))
    (Hotp : totp_verify (TwoFA.secret tf) c 2 now = true)
    (Hfresh : forall x, In x (sessions (db s)) -> Session.id x <> rnd) :
  LoginResult.success (fst (login cfg now rnd s email pw (Some c) (Some k))) = true
  /\ sessions (db (snd (login cfg now rnd s email pw (Some c) (Some k))))
     = (sessions (db s) ++
          [Session.mk rnd (Some (User.id u)) (now + sessionTimeout cfg)
                      (generateJWT cfg now u)])%list
  /\ (forall now2 rnd2 pw2 code2,
        LoginResult.success
          (fst (login cfg now2 rnd2
                  (snd (login cfg now rnd s email pw (Some c) (Some k)))
                  email pw2 code2 (Some k))) = false).
Proof.
  destruct (checkRateLimit cfg now (loginAttempts s) email) as [allowed m] eqn:E.
  simpl in Hrate. subst allowed.
  assert (Hce : String.eqb c "" = false) by now apply String.eqb_neq.
  assert (Hke : String.eqb k "" = false) by now apply String.eqb_neq.
  assert (Heq : login cfg now rnd s email pw (Some c) (Some k)
    = (LoginResult.mk true (Some u) (Some (generateJWT cfg now u)) None None
                      msg_login_ok,
       mkSys (with_sessions (InsertSession rnd)
                (touchTwoFactor now (markTokenAsUsed (db s) k) (TwoFA.id tf))
                (sessions (db s) ++
                   [Session.mk rnd (Some (User.id u)) (now + sessionTimeout cfg)
                               (generateJWT cfg now u)]))
             (clearRateLimit m email))).
  { unfold login. rewrite E, Huser, Hactive, Hpw, Htf. simpl.
    rewrite Hce, Hke. simpl. rewrite Hv.
    apply col_eq_spec in Hown. rewrite Hown, Hotp. simpl.
    unfold createSession. simpl.
    now rewrite (existsb_session_fresh _ _ Hfresh). }
  rewrite Heq. simpl. split; [reflexivity|]. split; [reflexivity|].
  intros now2 rnd2 pw2 code2.
  match goal with |- LoginResult.success (fst ?r) = false =>
    destruct (LoginResult.success (fst r)) eqn:Hs; [|reflexivity] end.
  exfalso.
  apply login_success_gates in Hs as (_ & u' & Hu' & _ & _ & _ & Hgate).
  simpl in Hu'. unfold findUserByEmail in Hu', Huser. simpl in Hu'.
  assert (u' = u) by congruence. subst u'.
  destruct (Hgate (if TwoFA.id tf =? TwoFA.id tf
                   then set_lastUsed now tf else tf))
    as (c2 & k2 & t2 & _ & Hk2 & _ & _ & Hv2 & _).
  { unfold findTwoFactor. simpl. rewrite find_map_pres.
    - unfold findTwoFactor in Htf. now rewrite Htf.
    - intros x. now destruct (TwoFA.id x =? TwoFA.id tf). }
  injection Hk2 as <-.
  unfold verifyAuthToken in Hv2. simpl in Hv2.
  pose proof (markTokenAsUsed_kills now2 (db s) k "2fa") as Hdead.
  unfold verifyAuthToken, markTokenAsUsed in Hdead. simpl in Hdead.
  congruence.
Qed.

End LoginFurther.

(** Five logins for an unknown email, one second apart. *)
Lemma failed_logins_lock_the_identifier_witness :
  loginAttempts
    (fold_left (fun s t => snd (login (L := toy_libraries) defaultConfig t "5e55" s
                                      "nobody@x.com" "guess" None None))
               [0; 1000; 2000; 3000; 4000] two_factor_sys)
  !! "nobody@x.com"
  = Some (mkAttempts 5 4000).
Proof.
  refine (proj1 (proj2 (failed_logins_lock_the_identifier (L := toy_libraries)
            defaultConfig "5e55" "nobody@x.com" "guess" 0 [1000; 2000; 3000; 4000]
            two_factor_sys eq_refl (or_introl eq_refl) _ eq_refl))).
  simpl. lia.
Defined.

(** Bob, who has no two-factor credential, logs in. *)
Lemma login_success_opens_one_session_witness :
  fst (login (L := toy_libraries) defaultConfig 1000 "5e55" two_factor_sys
             "b@x.com" "B0b!Secret" None None)
  = LoginResult.mk true (Some bob) (Some "jwt:bob") None None msg_login_ok.
Proof.
  refine (proj1 (login_success_opens_one_session (L := toy_libraries)
            defaultConfig 1000 "5e55" two_factor_sys "b@x.com" "B0b!Secret"
            None None bob eq_refl eq_refl eq_refl eq_refl eq_refl _)).
  intros x [].
Defined.

(** Alice, who has one, logs in without a code. *)
Lemma login_two_factor_challenge_witness :
  fst (login (L := toy_libraries) defaultConfig 1000 "c4a1" two_factor_sys
             "a@x.com" "Str0ng!Pass" None None)
  = LoginResult.mk false None None (Some true) (Some "c4a1")
                   msg_two_factor_required.
Proof.
  refine (proj1 (login_two_factor_challenge (L := toy_libraries)
            defaultConfig 1000 "c4a1" two_factor_sys "a@x.com" "Str0ng!Pass"
            None None alice alice_two_factor eq_refl eq_refl eq_refl eq_refl
            eq_refl (or_introl eq_refl) _)).
  intros r [<-|[<-|[]]]; discriminate.
Defined.

(** The login of bob has passed the rate check. *)
Lemma login_success_is_sound_witness :
  fst (checkRateLimit defaultConfig 1000 (loginAttempts two_factor_sys) "b@x.com")
  = true.
Proof.
  exact (proj1 (login_success_is_sound (L := toy_libraries) defaultConfig 1000
                 "5e55" two_factor_sys "b@x.com" "B0b!Secret" None None eq_refl)).
Defined.

(** Alice answers her own challenge with the right code. *)
Lemma login_two_factor_challenge_single_use_witness :
  LoginResult.success
    (fst (login (L := toy_libraries) defaultConfig 1000 "5e55" challenge_sys
                "a@x.com" "Str0ng!Pass" (Some "SECRET") (Some "chal-alice")))
  = true.
Proof.
  refine (proj1 (login_two_factor_challenge_single_use (L := toy_libraries)
            defaultConfig 1000 "5e55" challenge_sys "a@x.com" "Str0ng!Pass"
            "SECRET" "chal-alice" alice alice_two_factor alice_challenge
            eq_refl eq_refl eq_refl eq_refl eq_refl _ _ eq_refl eq_refl eq_refl _));
    try discriminate.
  intros x [].
Defined.

(** ** Two-factor enrolment *)

Section EnrolmentProperties.
Context {L : Libraries}.

Lemma findTwoFactor_app d uid enabled (l : list TwoFA.t) (d' : Db) :
  twoFactorAuth d' = (twoFactorAuth d ++ l)%list ->
  findTwoFactor d' uid enabled
  = match findTwoFactor d uid enabled with
    | Some r => Some r
    | None => List.find (fun r => col_eq (TwoFA.userId r) uid
                                  && Bool.eqb (TwoFA.isEnabled r) enabled) l
    end.
Proof. intros H. unfold findTwoFactor. now rewrite H, find_app. Qed.

(** Setup, then enable.  Take a user id with no two-factor row, enabled or
    pending, and a row id not in use.  If no user has the id, setupTwoFactor
    returns the error result and changes nothing.  If a user has it,
    setupTwoFactor succeeds and returns the secret with eight backup codes,
    yet the user still has no enabled credential, so login goes on without a
    second step; enableTwoFactor with a code that does not verify against the
    secret fails and changes nothing; with a code that verifies it succeeds,
    after which the enabled credential of the user is the row of that secret,
    and every row that was in the table before is still there. *)
Theorem setup_then_enable
    (newId : Z) (secret qr : string) (hex : nat -> string) (d : Db) (uid : Z)
    (Hnone : findTwoFactor d uid true = None)
    (Hnopending : findTwoFactor d uid false = None)
    (Hid : forall r, In r (twoFactorAuth d) -> TwoFA.id r <> newId) :
  (Enrolment.userExists d uid = false ->
   Enrolment.setupTwoFactor newId secret qr hex d uid
   = (SetupResult.mk false None None None msg_two_factor_setup_error, d))
  /\ (Enrolment.userExists d uid = true ->
  SetupResult.success (fst (Enrolment.setupTwoFactor newId secret qr hex d uid)) = true
  /\ SetupResult.secret (fst (Enrolment.setupTwoFactor newId secret qr hex d uid))
     = Some secret
  /\ option_map (@List.length string)
       (SetupResult.backupCodes
          (fst (Enrolment.setupTwoFactor newId secret qr hex d uid))) = Some 8%nat
  /\ findTwoFactor (snd (Enrolment.setupTwoFactor newId secret qr hex d uid)) uid true
     = None
  /\ (forall now code,
        totp_verify secret code 2 now = false ->
        Enrolment.enableTwoFactor now
          (snd (Enrolment.setupTwoFactor newId secret qr hex d uid)) uid code
        = (OpResult.mk false msg_two_factor_bad_code,
           snd (Enrolment.setupTwoFactor newId secret qr hex d uid)))
  /\ (forall now code,
        totp_verify secret code 2 now = true ->
        fst (Enrolment.enableTwoFactor now
               (snd (Enrolment.setupTwoFactor newId secret qr hex d uid)) uid code)
        = OpResult.mk true msg_two_factor_enabled
        /\ (exists r,
              findTwoFactor
                (snd (Enrolment.enableTwoFactor now
                        (snd (Enrolment.setupTwoFactor newId secret qr hex d uid))
                        uid code)) uid true = Some r
              /\ TwoFA.secret r = secret /\ TwoFA.id r = newId
              /\ TwoFA.isEnabled r = true /\ TwoFA.userId r = Some uid)
        /\ (forall r, In r (twoFactorAuth d) ->
              In r (twoFactorAuth
                      (snd (Enrolment.enableTwoFactor now
                              (snd (Enrolment.setupTwoFactor newId secret qr hex d uid))
                              uid code)))))).
Proof.
  split.
  { intros Hno. unfold Enrolment.setupTwoFactor. now rewrite Hnone, Hno. }
  intros Huser.
  unfold Enrolment.setupTwoFactor. rewrite Hnone, Huser.
  set (codes := map (fun i => toUpperCase (hex i)) (seq 0 8)).
  set (row := TwoFA.mk newId (Some uid) secret codes false None).
  set (d1 := mkDb (users d) (authTokens d) (twoFactorAuth d ++ [row])
                  (sessions d) (userSeq d) (tokenSeq d) (writes d)).
  cbn [fst snd SetupResult.success SetupResult.secret SetupResult.backupCodes].
  assert (Hself : col_eq (Some uid) uid = true) by (simpl; apply Z.eqb_refl).
  assert (Hpend : findTwoFactor d1 uid false = Some row).
  { rewrite (findTwoFactor_app d uid false [row] d1 eq_refl), Hnopending.
    simpl. now rewrite Z.eqb_refl. }
  split; [reflexivity|]. split; [reflexivity|]. split; [reflexivity|].
  split.
  { rewrite (findTwoFactor_app d uid true [row] d1 eq_refl), Hnone.
    simpl. now rewrite Z.eqb_refl. }
  split.
  { intros now code Hbad. unfold Enrolment.enableTwoFactor.
    rewrite Hpend. simpl. now rewrite Hbad. }
  intros now code Hgood. unfold Enrolment.enableTwoFactor.
  rewrite Hpend. cbn [TwoFA.secret row]. rewrite Hgood.
  cbn [negb fst snd TwoFA.id row].
  assert (Hold : map (fun r => if TwoFA.id r =? newId then set_enabled r else r)
                     (twoFactorAuth d) = twoFactorAuth d).
  { rewrite <- (map_id (twoFactorAuth d)) at 2. apply map_ext_in.
    intros r Hr. apply Hid in Hr. apply Z.eqb_neq in Hr. now rewrite Hr. }
  split; [reflexivity|]. split.
  - exists (TwoFA.mk newId (Some uid) secret codes true None).
    unfold findTwoFactor. cbn [twoFactorAuth d1].
    rewrite map_app, Hold, find_app.
    unfold findTwoFactor in Hnone. rewrite Hnone.
    simpl. rewrite !Z.eqb_refl. simpl. rewrite Z.eqb_refl. auto 10.
  - intros r Hr. cbn [twoFactorAuth d1]. rewrite map_app, Hold.
    apply in_or_app. now left.
Qed.

(** An older pending setup shadows a newer one.  If the user has a pending
    (not enabled) row when setupTwoFactor is called again, the new call, made
    for the id of a stored user, still succeeds and returns a new secret, but
    enableTwoFactor goes on checking the code against the secret of the older
    row: it accepts exactly the codes that verify against the older secret,
    whatever the new secret is. *)
Theorem pending_setup_shadows_new_secret
    (newId : Z) (secret qr : string) (hex : nat -> string) (d : Db) (uid : Z)
    (old : TwoFA.t)
    (Hnone : findTwoFactor d uid true = None)
    (Hpending : findTwoFactor d uid false = Some old) :
  (Enrolment.userExists d uid = true ->
   SetupResult.secret (fst (Enrolment.setupTwoFactor newId secret qr hex d uid))
   = Some secret)
  /\ forall now code,
       OpResult.success
         (fst (Enrolment.enableTwoFactor now
                 (snd (Enrolment.setupTwoFactor newId secret qr hex d uid))
                 uid code))
       = totp_verify (TwoFA.secret old) code 2 now.
Proof.
  unfold Enrolment.setupTwoFactor. rewrite Hnone.
  split; [intros Hu; now rewrite Hu|]. intros now code.
  assert (Hfind : findTwoFactor
            (snd (if Enrolment.userExists d uid
                  then (SetupResult.mk true (Some secret) (Some qr)
                          (Some (map (fun i => toUpperCase (hex i)) (seq 0 8)))
                          msg_two_factor_initiated,
                        mkDb (users d) (authTokens d)
                          (twoFactorAuth d ++
                             [TwoFA.mk newId (Some uid) secret
                                (map (fun i => toUpperCase (hex i)) (seq 0 8))
                                false None])
                          (sessions d) (userSeq d) (tokenSeq d) (writes d))
                  else (SetupResult.mk false None None None
                          msg_two_factor_setup_error, d)))
            uid false = Some old).
  { destruct (Enrolment.userExists d uid); cbn [snd]; [|exact Hpending].
    erewrite findTwoFactor_app by reflexivity. now rewrite Hpending. }
  unfold Enrolment.enableTwoFactor. rewrite Hfind.
  now destruct (totp_verify (TwoFA.secret old) code 2 now).
Qed.

End EnrolmentProperties.

(** The enrolment of bob on the sample store. *)
Lemma setup_then_enable_witness :
  findTwoFactor
    (snd (Enrolment.setupTwoFactor 2 "BOBSECRET" "data:image/png" (fun _ => "0a1b2c3d")
                                   two_factor_db 8)) 8 true
  = None.
Proof.
  refine (proj1 (proj2 (proj2 (proj2
            (proj2 (setup_then_enable (L := toy_libraries) 2 "BOBSECRET"
                      "data:image/png" (fun _ => "0a1b2c3d") two_factor_db 8
                      eq_refl eq_refl _) eq_refl))))).
  intros r [<-|[]]. discriminate.
Defined.

(** A setup for an id that no user has is refused by the foreign key. *)
Example setup_for_unknown_user :
  Enrolment.setupTwoFactor 2 "S" "data:image/png" (fun _ => "0a1b2c3d")
                           two_factor_db 99
  = (SetupResult.mk false None None None msg_two_factor_setup_error, two_factor_db).
Proof. reflexivity. Qed.

(** Bob starts a second setup; the code of the new secret is refused. *)
Lemma pending_setup_shadows_new_secret_witness :
  OpResult.success
    (fst (Enrolment.enableTwoFactor (L := toy_libraries) 1000
            (snd (Enrolment.setupTwoFactor 3 "NEW" "data:image/png" (fun _ => "0a1b2c3d")
                    (snd (Enrolment.setupTwoFactor 2 "OLD" "data:image/png"
                            (fun _ => "0a1b2c3d") two_factor_db 8)) 8))
            8 "NEW"))
  = false.
Proof.
  exact (proj2 (pending_setup_shadows_new_secret (L := toy_libraries) 3 "NEW"
                 "data:image/png" (fun _ => "0a1b2c3d")
                 (snd (Enrolment.setupTwoFactor 2 "OLD" "data:image/png"
                         (fun _ => "0a1b2c3d") two_factor_db 8)) 8
                 (TwoFA.mk 2 (Some 8) "OLD"
                    (map (fun i => toUpperCase ((fun _ => "0a1b2c3d") i)) (seq 0 8))
                    false None)
                 eq_refl eq_refl) 1000 "NEW").
Defined.

(** ** Templates *)

Lemma replace_skip inh data (l : list ascii) : forall n,
  replace_placeholders inh data n l
  = replace_placeholders inh data 0 (skipn n l).
Proof.
  induction l as [|c l IH]; intros [|n]; try reflexivity.
  simpl. apply IH.
Qed.

Lemma word_run_key (key rest : list ascii) :
  forallb is_word key = true ->
  word_run (key ++ "}"%char :: rest) = (key, "}"%char :: rest).
Proof.
  induction key as [|c key IH]; simpl; [reflexivity|].
  intros H. apply andb_true_iff in H as [Hc Hk].
  now rewrite Hc, (IH Hk).
Qed.

Lemma match_placeholder_key (key rest : list ascii) :
  key <> [] -> forallb is_word key = true ->
  match_placeholder ("{"%char :: "{"%char :: key ++ "}"%char :: "}"%char :: rest)
  = Some (key, rest).
Proof.
  intros Hne Hw. unfold match_placeholder.
  change (is_open "{" && is_open "{") with true. cbv iota.
  rewrite (word_run_key key ("}"%char :: rest) Hw).
  destruct key; [congruence|reflexivity].
Qed.

Lemma match_placeholder_not_open c l :
  is_open c = false -> match_placeholder (c :: l) = None.
Proof.
  intros H. unfold match_placeholder. destruct l; [reflexivity|].
  now rewrite H.
Qed.

Lemma replace_plain inh data (pre rest : list ascii) :
  forallb (fun c => negb (is_open c)) pre = true ->
  replace_placeholders inh data 0 (pre ++ rest)
  = (pre ++ replace_placeholders inh data 0 rest)%list.
Proof.
  induction pre as [|c pre IH]; [reflexivity|].
  cbn [forallb app replace_placeholders].
  intros H. apply andb_true_iff in H as [Hc Hp].
  apply negb_true_iff in Hc.
  now rewrite (match_placeholder_not_open c _ Hc), (IH Hp).
Qed.

Lemma replace_identity (l : list ascii) : forall n,
  replace_placeholders ∅ ∅ n l = skipn n l.
Proof.
  induction l as [|c l IH]; intros [|n]; try reflexivity.
  - cbn [replace_placeholders skipn].
    destruct (match_placeholder (c :: l)) as [[key rest]|].
    + unfold getProperty. rewrite !lookup_empty, IH.
      change (skipn (List.length key + 3) l)
        with (skipn (S (List.length key + 3)) (c :: l)).
      replace (S (List.length key + 3)) with (List.length key + 4)%nat by lia.
      apply firstn_skipn.
    + now rewrite IH.
  - simpl. apply IH.
Qed.

Lemma chars_append (a b : string) : chars (a ++ b) = (chars a ++ chars b)%list.
Proof.
  unfold chars. induction a as [|c a IH]; simpl; [reflexivity|]. now rewrite IH.
Qed.

Lemma string_of_app (l1 l2 : list ascii) :
  string_of_list_ascii (l1 ++ l2)
  = (string_of_list_ascii l1 ++ string_of_list_ascii l2)%string.
Proof. induction l1 as [|c l1 IH]; simpl; [reflexivity|]. now rewrite IH. Qed.

(** Placeholders without a value stay.  With no property to look up, own or
    inherited, processTemplate returns every template as it is: text,
    well-formed placeholders and stray braces alike. *)
Theorem processTemplate_without_data_is_identity (template : string) :
  processTemplate ∅ template ∅ = template.
Proof.
  unfold processTemplate. rewrite replace_identity. simpl.
  apply string_of_list_ascii_of_string.
Qed.

(** The substitution law.  Let [pre] hold no opening brace and [key] be a
    non-empty run of word characters.  Then the template
    [pre {{key}} post] is rendered as [pre], then the value of [key] as it
    stands (no escaping, and no second scan of the value for placeholders) or
    the placeholder itself when [key] has no value, then the rendering of
    [post]. *)
Theorem processTemplate_substitutes_in_one_pass
    (inherited data : gmap string string) (pre key post : string)
    (Hpre : forallb (fun c => negb (is_open c)) (chars pre) = true)
    (Hkey : key <> "")
    (Hword : forallb is_word (chars key) = true) :
  processTemplate inherited (pre ++ "{{" ++ key ++ "}}" ++ post)%string data
  = (pre
     ++ match getProperty inherited data key with
        | Some v => v
        | None => "{{" ++ key ++ "}}"
        end
     ++ processTemplate inherited post data)%string.
Proof.
  unfold processTemplate.
  rewrite !chars_append, (replace_plain _ _ _ _ Hpre), string_of_app.
  unfold chars at 1. rewrite string_of_list_ascii_of_string. f_equal.
  assert (Hne : chars key <> []).
  { destruct key; [congruence|discriminate]. }
  change (chars "{{") with ["{"%char; "{"%char].
  change (chars "}}") with ["}"%char; "}"%char].
  cbn [app].
  set (l' := ("{"%char :: chars key ++ "}"%char :: "}"%char :: chars post)%list).
  cbn [replace_placeholders].
  fold l'. unfold l' at 1.
  rewrite (match_placeholder_key (chars key) (chars post) Hne Hword).
  rewrite replace_skip.
  assert (Hskip : skipn (List.length (chars key) + 3) l' = chars post).
  { unfold l'. replace (List.length (chars key) + 3)%nat
      with (S (List.length (chars key) + 2)) by lia.
    cbn [skipn]. rewrite skipn_app, skipn_all2 by lia.
    replace (List.length (chars key) + 2 - List.length (chars key))%nat
      with 2%nat by lia.
    reflexivity. }
  assert (Htake : take (List.length (chars key) + 4) ("{"%char :: l')
                  = ("{"%char :: "{"%char :: chars key ++ ["}"%char; "}"%char])%list).
  { unfold l'. replace (List.length (chars key) + 4)%nat
      with (S (S (List.length (chars key) + 2))) by lia.
    cbn [firstn]. f_equal. f_equal.
    rewrite firstn_app, firstn_all2 by lia.
    replace (List.length (chars key) + 2 - List.length (chars key))%nat
      with 2%nat by lia.
    reflexivity. }
  rewrite Hskip, Htake, string_of_app.
  unfold chars at 1. rewrite string_of_list_ascii_of_string.
  destruct (getProperty inherited data key) as [v|].
  - unfold chars. now rewrite string_of_list_ascii_of_string.
  - f_equal. change ("{"%char :: "{"%char :: chars key ++ ["}"%char; "}"%char])%list
      with (chars "{{" ++ chars key ++ chars "}}")%list.
    rewrite !string_of_app. unfold chars.
    now rewrite !string_of_list_ascii_of_string.
Qed.

(** A greeting whose value holds markup and a placeholder of its own. *)
Lemma processTemplate_substitutes_in_one_pass_witness :
  processTemplate ∅ "Hi {{name}}!" {[ "name" := "<b>Al</b> {{x}}" ]}
  = "Hi <b>Al</b> {{x}}!".
Proof.
  exact (processTemplate_substitutes_in_one_pass ∅ {[ "name" := "<b>Al</b> {{x}}" ]}
           "Hi " "name" "!" eq_refl ltac:(discriminate) eq_refl).
Defined.

(** ** The mail queue: what a run can and cannot do *)

Section ProcessorFurther.
Context (cfg : EmailConfig) (transport : Transport).

(** A run is the loop over the pending rows followed by the loop over the
    failed rows fetched after it. *)
Lemma processEmailQueue_two_loops s :
  processEmailQueue cfg transport s
  = set_processing false
      (fold_left (guardedStep transport (retryDue cfg))
         (findByStatus "failed" (batchSize cfg)
            (queue (fold_left (guardedStep transport (fun _ _ => true))
                      (findByStatus "pending" (batchSize cfg) (queue s))
                      (set_processing true s))))
         (fold_left (guardedStep transport (fun _ _ => true))
            (findByStatus "pending" (batchSize cfg) (queue s))
            (set_processing true s))).
Proof. reflexivity. Qed.

Lemma processEmailQueue_ids s :
  ids (queue (processEmailQueue cfg transport s)) = ids (queue s).
Proof.
  rewrite processEmailQueue_two_loops. cbn [set_processing queue].
  destruct (guarded_loop transport (retryDue cfg)
              (findByStatus "failed" (batchSize cfg)
                 (queue (fold_left (guardedStep transport (fun _ _ => true))
                           (findByStatus "pending" (batchSize cfg) (queue s))
                           (set_processing true s))))
              (fold_left (guardedStep transport (fun _ _ => true))
                 (findByStatus "pending" (batchSize cfg) (queue s))
                 (set_processing true s))) as (H2 & _).
  destruct (guarded_loop transport (fun _ _ => true)
              (findByStatus "pending" (batchSize cfg) (queue s))
              (set_processing true s)) as (H1 & _).
  now rewrite H2, H1.
Qed.

Lemma guarded_loop_calls g es : forall s,
  (List.length (outbox (fold_left (guardedStep transport g) es s))
   <= List.length (outbox s) + List.length es)%nat.
Proof.
  induction es as [|e es IH]; intros s; cbn [fold_left List.length]; [lia|].
  assert (Hstep : (List.length (outbox (guardedStep transport g s e))
                   <= List.length (outbox s) + 1)%nat).
  { unfold guardedStep. destruct (g (clock s) e); [|lia].
    rewrite processEmail_outbox, length_app. simpl. lia. }
  specialize (IH (guardedStep transport g s e)). lia.
Qed.

Lemma findByStatus_length st n q :
  0 <= n ->
  (List.length (findByStatus st n q) <= Z.to_nat n)%nat.
Proof.
  intros Hn. unfold findByStatus. apply Z.ltb_ge in Hn. rewrite Hn.
  rewrite length_take. lia.
Qed.

(** A run is bounded.  With a batch size of 0 or more, one run of
    processEmailQueue makes at most batchSize calls to the transport for
    pending rows and at most batchSize for failed rows, however long the table
    is; and a firing of the interval while a run is in progress makes none and
    changes no row.  (A negative batch size puts no limit on the fetch.) *)
Theorem run_makes_at_most_two_batches_of_calls (s : MailState) (t : Z)
    (Hbatch : 0 <= batchSize cfg) :
  (List.length (outbox (processEmailQueue cfg transport s))
   <= List.length (outbox s) + 2 * Z.to_nat (batchSize cfg))%nat
  /\ (isProcessing s = true ->
      outbox (tick cfg transport s t) = outbox s
      /\ queue (tick cfg transport s t) = queue s).
Proof.
  split.
  - rewrite processEmailQueue_two_loops. cbn [set_processing outbox].
    set (pending := findByStatus "pending" (batchSize cfg) (queue s)).
    set (s1 := fold_left (guardedStep transport (fun _ _ => true)) pending
                         (set_processing true s)).
    pose proof (guarded_loop_calls (fun _ _ => true) pending (set_processing true s)) as H1.
    pose proof (guarded_loop_calls (retryDue cfg)
                  (findByStatus "failed" (batchSize cfg) (queue s1)) s1) as H2.
    fold s1 in H1. cbn [set_processing outbox] in H1.
    pose proof (findByStatus_length "pending" (batchSize cfg) (queue s) Hbatch) as L1.
    pose proof (findByStatus_length "failed" (batchSize cfg) (queue s1) Hbatch) as L2.
    fold pending in L1. lia.
  - intros Hp. unfold tick. simpl. rewrite Hp. simpl. auto.
Qed.

(** Rows the processor does not fetch.  On a table with distinct ids, a row
    whose status is neither pending nor failed (a sent row, or a row left in
    sending) is, after any number of firings at any times, still in the table
    and unchanged, and no call to the transport has been made for it: a sent
    message is never sent again, and a row left in sending is never picked
    up. *)
Theorem rows_not_fetched_are_never_touched
    (times : list Z) (s : MailState) (r : QueuedEmail.t)
    (Hnd : List.NoDup (ids (queue s)))
    (Hin : In r (queue s))
    (Hnp : QueuedEmail.status r <> "pending")
    (Hnf : QueuedEmail.status r <> "failed") :
  In r (queue (runProcessor cfg transport times s))
  /\ exists new,
       outbox (runProcessor cfg transport times s) = (outbox s ++ new)%list
       /\ forall dl, In dl new -> QueuedEmail.id (d_email dl) <> QueuedEmail.id r.
Proof.
  assert (Hother : forall q st e,
            List.NoDup (ids q) -> In r q ->
            QueuedEmail.status r <> st ->
            In e (findByStatus st (batchSize cfg) q) ->
            QueuedEmail.id e <> QueuedEmail.id r).
  { intros q st e Hq Hr Hst He Heq. apply findByStatus_In in He as [He Hs].
    assert (e = r) by (apply (ids_inj q); auto). subst e. congruence. }
  assert (Hrun : forall s0,
            List.NoDup (ids (queue s0)) -> In r (queue s0) ->
            ids (queue (processEmailQueue cfg transport s0)) = ids (queue s0)
            /\ In r (queue (processEmailQueue cfg transport s0))
            /\ exists new,
                 outbox (processEmailQueue cfg transport s0) = (outbox s0 ++ new)%list
                 /\ forall dl, In dl new ->
                      QueuedEmail.id (d_email dl) <> QueuedEmail.id r).
  { intros s0 Hnd0 Hin0. rewrite processEmailQueue_two_loops.
    set (pending := findByStatus "pending" (batchSize cfg) (queue s0)).
    set (s1 := fold_left (guardedStep transport (fun _ _ => true)) pending
                         (set_processing true s0)).
    set (retry := findByStatus "failed" (batchSize cfg) (queue s1)).
    destruct (guarded_loop transport (fun _ _ => true) pending (set_processing true s0))
      as (Hids1 & _ & (new1 & Hout1 & Hnew1) & Hframe1).
    destruct (guarded_loop transport (retryDue cfg) retry s1)
      as (Hids2 & _ & (new2 & Hout2 & Hnew2) & Hframe2).
    fold s1 in Hids1, Hout1, Hframe1. cbn [set_processing queue outbox] in *.
    assert (Hin1 : In r (queue s1)).
    { apply Hframe1; [exact Hin0|]. intros e He. right.
      now apply (Hother (queue s0) "pending"). }
    assert (Hnd1 : List.NoDup (ids (queue s1))) by now rewrite Hids1.
    split; [now rewrite Hids2, Hids1|]. split.
    - apply Hframe2; [exact Hin1|]. intros e He. right.
      now apply (Hother (queue s1) "failed").
    - exists (new1 ++ new2)%list. split; [now rewrite Hout2, Hout1, app_assoc|].
      rewrite List.Forall_forall in Hnew1, Hnew2.
      intros dl Hdl. apply in_app_or in Hdl as [Hdl|Hdl].
      + destruct (Hnew1 dl Hdl) as [He _]. now apply (Hother (queue s0) "pending").
      + destruct (Hnew2 dl Hdl) as [He _]. now apply (Hother (queue s1) "failed"). }
  unfold runProcessor. revert s Hnd Hin.
  induction times as [|t times IH]; intros s Hnd Hin; simpl.
  - split; [exact Hin|]. exists []. rewrite app_nil_r. split; [reflexivity|].
    intros dl [].
  - assert (Htick : ids (queue (tick cfg transport s t)) = ids (queue s)
                    /\ In r (queue (tick cfg transport s t))
                    /\ exists new,
                         outbox (tick cfg transport s t) = (outbox s ++ new)%list
                         /\ forall dl, In dl new ->
                              QueuedEmail.id (d_email dl) <> QueuedEmail.id r).
    { unfold tick. simpl. destruct (isProcessing s); simpl.
      - repeat split; auto. exists []. rewrite app_nil_r.
        split; [reflexivity|]. intros dl [].
      - apply (Hrun (mkMail (queue s) t false (outbox s))); assumption. }
    destruct Htick as (Hids & Hin' & new1 & Hout1 & Hnew1).
    destruct (IH (tick cfg transport s t)) as (Hin2 & new2 & Hout2 & Hnew2);
      [now rewrite Hids|exact Hin'|].
    split; [exact Hin2|].
    exists (new1 ++ new2)%list. split; [now rewrite Hout2, Hout1, app_assoc|].
    intros dl Hdl. apply in_app_or in Hdl as [Hdl|Hdl]; auto.
Qed.

Lemma updateEmail_compose f1 f2 i q :
  (forall e, QueuedEmail.id (f1 e) = QueuedEmail.id e) ->
  updateEmail f2 i (updateEmail f1 i q) = updateEmail (fun e => f2 (f1 e)) i q.
Proof.
  intros H. unfold updateEmail. rewrite map_map. apply map_ext. intros e.
  destruct (QueuedEmail.id e =? i) eqn:E; [|now rewrite E].
  now rewrite H, E.
Qed.

Lemma updateEmail_status f i q (P : string -> Prop) :
  (forall e, P (QueuedEmail.status (f e))) ->
  (forall e, In e q -> P (QueuedEmail.status e)) ->
  forall e, In e (updateEmail f i q) -> P (QueuedEmail.status e).
Proof.
  intros Hf Hq e He. unfold updateEmail in He.
  apply in_map_iff in He as (x & <- & Hx).
  destruct (QueuedEmail.id x =? i); auto.
Qed.

(** [processEmail] as one update of the rows of the id. *)
Lemma processEmail_queue s e :
  queue (processEmail transport s e)
  = if delivered (transport (List.length (outbox s)))
    then updateEmail
           (fun x => set_sent (clock s + elapsed (transport (List.length (outbox s))))
                              (set_status "sending" x))
           (QueuedEmail.id e) (queue s)
    else updateEmail
           (fun x => set_failed (QueuedEmail.attempts e + 1)
                       (clock s + elapsed (transport (List.length (outbox s))))
                       (detail (transport (List.length (outbox s))))
                       (set_status "sending" x))
           (QueuedEmail.id e) (queue s).
Proof.
  unfold processEmail.
  destruct (delivered _); simpl; now rewrite updateEmail_compose.
Qed.

Lemma countStatus_settled q :
  (forall e, In e q ->
     QueuedEmail.status e = "pending" \/ QueuedEmail.status e = "failed"
     \/ QueuedEmail.status e = "sent") ->
  (countStatus "pending" q + countStatus "failed" q + countStatus "sent" q
   = List.length q)%nat.
Proof.
  unfold countStatus. induction q as [|e q IH]; intros H; [reflexivity|].
  assert (IH' := IH (fun x Hx => H x (or_intror Hx))).
  destruct (H e (or_introl eq_refl)) as [Hs|[Hs|Hs]];
    simpl; rewrite Hs; simpl; lia.
Qed.

Lemma guarded_loop_status g (P : string -> Prop) es :
  P "sent" -> P "failed" ->
  forall s, (forall x, In x (queue s) -> P (QueuedEmail.status x)) ->
  forall x, In x (queue (fold_left (guardedStep transport g) es s)) ->
            P (QueuedEmail.status x).
Proof.
  intros Hsent Hfailed. induction es as [|e es IH]; intros s Hs; [exact Hs|].
  cbn [fold_left]. apply IH. unfold guardedStep.
  destruct (g (clock s) e); [|exact Hs].
  rewrite processEmail_queue.
  destruct (delivered _); apply updateEmail_status; auto.
Qed.

(** No row is left between states.  If every row of the table is pending,
    failed or sent when a run starts, the same holds when it ends: the run
    takes the rows it handles out of sending again.  So after the run the
    three counts of getQueueStats add up to the size of the table, which is
    the size it had before, and the statistics report no run in progress. *)
Theorem run_leaves_rows_pending_failed_or_sent (s : MailState)
    (Hsettled : forall e, In e (queue s) ->
       QueuedEmail.status e = "pending" \/ QueuedEmail.status e = "failed"
       \/ QueuedEmail.status e = "sent") :
  (forall e, In e (queue (processEmailQueue cfg transport s)) ->
     QueuedEmail.status e = "pending" \/ QueuedEmail.status e = "failed"
     \/ QueuedEmail.status e = "sent")
  /\ (st_pending (getQueueStats (processEmailQueue cfg transport s))
      + st_failed (getQueueStats (processEmailQueue cfg transport s))
      + st_sent (getQueueStats (processEmailQueue cfg transport s))
      = List.length (queue s))%nat
  /\ st_processing (getQueueStats (processEmailQueue cfg transport s)) = false.
Proof.
  set (P := fun st : string => st = "pending" \/ st = "failed" \/ st = "sent").
  assert (Hafter : forall e, In e (queue (processEmailQueue cfg transport s)) ->
                             P (QueuedEmail.status e)).
  { rewrite processEmailQueue_two_loops. cbn [set_processing queue].
    apply guarded_loop_status; [unfold P; auto|unfold P; auto|].
    apply guarded_loop_status; [unfold P; auto|unfold P; auto|].
    exact Hsettled. }
  split; [exact Hafter|]. split; [|reflexivity].
  unfold getQueueStats. cbn [st_pending st_failed st_sent].
  rewrite (countStatus_settled _ Hafter).
  pose proof (processEmailQueue_ids s) as Hids.
  unfold ids in Hids. rewrite <- (length_map QueuedEmail.id), Hids.
  apply length_map.
Qed.

Lemma filter_none {A} (P : A -> bool) (l : list A) :
  (forall x, In x l -> P x = false) -> List.filter P l = [].
Proof.
  induction l as [|a l IH]; intros H; [reflexivity|]. simpl.
  rewrite (H a (or_introl eq_refl)). apply IH. intros x Hx. apply H. now right.
Qed.

(** From template to delivery.  Let the template be found and active, the
    queue hold rows of distinct ids and none pending, the new id be unused,
    the batch size be at least 1, no run be in progress and the transport
    accept its next call.  Then sendTemplateEmail returns true and appends
    one pending row with no attempts, whose subject and bodies are the
    rendered template; and the next firing of the processor hands exactly
    that row to the transport first, at the time of the firing, and leaves it
    in the table as sent, stamped with the time the call returned. *)
Theorem template_email_is_queued_then_sent
    (inherited data : gmap string string) (templates : list EmailTemplate.t)
    (from : FromConfig) (newId : Z) (s : MailState) (name to : string)
    (tpl : EmailTemplate.t) (t : Z)
    (Htpl : List.find (fun x => String.eqb (EmailTemplate.name x) name
                                && Bool.eqb (EmailTemplate.isActive x) true)
                      templates = Some tpl)
    (Hnd : List.NoDup (ids (queue s)))
    (Hnew : ~ In newId (ids (queue s)))
    (Hnopending : forall e, In e (queue s) -> QueuedEmail.status e <> "pending")
    (Hbatch : 1 <= batchSize cfg)
    (Hidle : isProcessing s = false)
    (Hdelivered : delivered (transport (List.length (outbox s))) = true) :
  fst (sendTemplateEmail inherited templates from newId s name to data) = true
  /\ exists row,
      queue (snd (sendTemplateEmail inherited templates from newId s name to data))
      = (queue s ++ [row])%list
      /\ QueuedEmail.id row = newId /\ QueuedEmail.to row = to
      /\ QueuedEmail.status row = "pending" /\ QueuedEmail.attempts row = 0
      /\ QueuedEmail.subject row
         = processTemplate inherited (EmailTemplate.subject tpl) data
      /\ QueuedEmail.htmlContent row
         = Some (processTemplate inherited (EmailTemplate.htmlContent tpl) data)
      /\ QueuedEmail.textContent row
         = Some (processTemplate inherited (EmailTemplate.textContent tpl) data)
      /\ (exists rest,
            outbox (tick cfg transport
                      (snd (sendTemplateEmail inherited templates from newId s
                                              name to data)) t)
            = (outbox s ++ mkDelivery row t :: rest)%list)
      /\ In (set_sent (t + elapsed (transport (List.length (outbox s))))
                      (set_status "sending" row))
            (queue (tick cfg transport
                      (snd (sendTemplateEmail inherited templates from newId s
                                              name to data)) t))
      /\ In (QueuedEmail.mk newId to (QueuedEmail.from row)
               (processTemplate inherited (EmailTemplate.subject tpl) data)
               (Some (processTemplate inherited (EmailTemplate.htmlContent tpl) data))
               (Some (processTemplate inherited (EmailTemplate.textContent tpl) data))
               "sent" 0 None None
               (Some (t + elapsed (transport (List.length (outbox s))))))
            (queue (tick cfg transport
                      (snd (sendTemplateEmail inherited templates from newId s
                                              name to data)) t))
      /\ (forall e,
            In e (queue (tick cfg transport
                           (snd (sendTemplateEmail inherited templates from newId s
                                                   name to data)) t)) ->
            QueuedEmail.id e = newId ->
            QueuedEmail.status e = "sent"
            /\ QueuedEmail.sentAt e
               = Some (t + elapsed (transport (List.length (outbox s))))).
Proof.
  unfold sendTemplateEmail. rewrite Htpl. unfold queueEmail.
  cbn [fst snd ed_to ed_subject ed_html ed_text].
  split; [reflexivity|].
  match goal with |- context [(queue s ++ [?r])%list] => set (row := r) end.
  exists row. cbn [queue]. split; [reflexivity|].
  do 7 (split; [reflexivity|]).
  unfold tick. cbn [queue clock isProcessing outbox]. rewrite Hidle.
  cbn [negb]. rewrite processEmailQueue_two_loops.
  cbn [set_processing queue clock isProcessing outbox].
  assert (Hpend : findByStatus "pending" (batchSize cfg) (queue s ++ [row]) = [row]).
  { unfold findByStatus. rewrite List.filter_app, filter_none.
    - simpl. destruct (batchSize cfg <? 0); [reflexivity|].
      destruct (Z.to_nat (batchSize cfg)) as [|[|n]] eqn:En;
        [lia|reflexivity|reflexivity].
    - intros x Hx. apply String.eqb_neq. now apply Hnopending. }
  rewrite Hpend. cbn [fold_left].
  match goal with |- context [fold_left _ _ ?x] => set (s1 := x) end.
  assert (Hs1 : s1 = processEmail transport
                       (mkMail (queue s ++ [row]) t true (outbox s)) row)
    by reflexivity.
  set (sentRow := set_sent (t + elapsed (transport (List.length (outbox s))))
                           (set_status "sending" row)).
  assert (Hq1 : In sentRow (queue s1)).
  { rewrite Hs1, processEmail_queue. cbn [outbox clock queue].
    rewrite Hdelivered. unfold updateEmail. apply in_map_iff. exists row.
    split; [|apply in_or_app; right; now left].
    change (QueuedEmail.id row) with newId. now rewrite Z.eqb_refl. }
  assert (Hids1 : ids (queue s1) = (ids (queue s) ++ [newId])%list).
  { rewrite Hs1, processEmail_ids. cbn [queue]. unfold ids.
    now rewrite map_app. }
  assert (Hnd1 : List.NoDup (ids (queue s1))).
  { rewrite Hids1. apply List.NoDup_app; [exact Hnd|constructor; [intros []|constructor]|].
    intros x Hx [<-|[]]. now apply Hnew. }
  destruct (guarded_loop transport (retryDue cfg)
              (findByStatus "failed" (batchSize cfg) (queue s1)) s1)
    as (Hids2 & _ & (new2 & Hout2 & _) & Hframe2).
  assert (Hfinal : In sentRow
            (queue (fold_left (guardedStep transport (retryDue cfg))
                      (findByStatus "failed" (batchSize cfg) (queue s1)) s1))).
  { apply Hframe2; [exact Hq1|].
    intros e He. right. intros Heq.
    apply findByStatus_In in He as [He Hst].
    assert (e = sentRow) by (apply (ids_inj (queue s1)); auto).
    subst e. discriminate. }
  split.
  { exists new2. rewrite Hout2, Hs1, processEmail_outbox.
    cbn [outbox clock]. now rewrite <- app_assoc. }
  split; [exact Hfinal|]. split; [exact Hfinal|].
  intros e He Hid.
  assert (e = sentRow).
  { apply (ids_inj (queue (fold_left (guardedStep transport (retryDue cfg))
                             (findByStatus "failed" (batchSize cfg) (queue s1)) s1)));
      auto.
    now rewrite Hids2. }
  subst e. split; reflexivity.
Qed.

End ProcessorFurther.

(** A run on the sample queue under the default batch size of 10. *)
Lemma run_makes_at_most_two_batches_of_calls_witness :
  (List.length (outbox (processEmailQueue defaultEmailConfig transport_down
                                          sample_mail))
   <= List.length (outbox sample_mail)
      + 2 * Z.to_nat (batchSize defaultEmailConfig))%nat.
Proof.
  refine (proj1 (run_makes_at_most_two_batches_of_calls defaultEmailConfig
            transport_down sample_mail 0 _)).
  simpl. lia.
Defined.

(** With a batch size of 0 a run fetches nothing; with a negative one it
    fetches every pending row and every failed row. *)
Example batch_size_zero_and_negative :
  let run n := processEmailQueue (mkEmailConfig 3 300000 30000 n) transport_down
                                 (mkMail [mail_pending; mail_retry; mail_dead]
                                         400000 false []) in
  List.length (outbox (run 0)) = 0%nat
  /\ List.length (outbox (run 1)) = 1%nat
  /\ List.length (outbox (run (-1))) = 2%nat
  /\ map (fun e => QueuedEmail.id (d_email e)) (outbox (run (-1))) = [1; 2].
Proof. repeat split. Qed.

(** A sent row through three firings while the transport is down. *)
Lemma rows_not_fetched_are_never_touched_witness :
  In mail_sent
     (queue (runProcessor defaultEmailConfig transport_down
                          [400000; 800000; 1200000] delivered_mail)).
Proof.
  refine (proj1 (rows_not_fetched_are_never_touched defaultEmailConfig
            transport_down [400000; 800000; 1200000] delivered_mail mail_sent
            _ _ _ _)); try discriminate.
  - unfold ids; simpl. repeat constructor; simpl; intuition discriminate.
  - simpl. auto.
Defined.

(** The statistics after a run on the sample queue. *)
Lemma run_leaves_rows_pending_failed_or_sent_witness :
  st_processing (getQueueStats
                   (processEmailQueue defaultEmailConfig transport_down sample_mail))
  = false.
Proof.
  refine (proj2 (proj2 (run_leaves_rows_pending_failed_or_sent defaultEmailConfig
            transport_down sample_mail _))).
  intros e [<-|[<-|[<-|[]]]]; simpl; auto.
Defined.

(** A welcome mail for dave, queued behind an exhausted row and sent by the
    next firing. *)
Lemma template_email_is_queued_then_sent_witness :
  fst (sendTemplateEmail ∅ [welcome_template] neurocore_from 9
         (mkMail [mail_dead] 0 false []) "welcome" "d@x.com"
         {[ "name" := "dave" ]})
  = true.
Proof.
  refine (proj1 (template_email_is_queued_then_sent defaultEmailConfig transport_up
            ∅ {[ "name" := "dave" ]} [welcome_template] neurocore_from 9
            (mkMail [mail_dead] 0 false []) "welcome" "d@x.com" welcome_template
            30000 eq_refl _ _ _ _ eq_refl eq_refl)).
  - unfold ids; simpl. repeat constructor; simpl; tauto.
  - unfold ids; simpl. intros [H|[]]. discriminate.
  - intros e [<-|[]]. discriminate.
  - simpl. lia.
Defined.

Example welcome_mail_rendered_and_sent :
  let s1 := snd (sendTemplateEmail ∅ [welcome_template] neurocore_from 9
                   (mkMail [mail_dead] 0 false []) "welcome" "d@x.com"
                   {[ "name" := "dave" ]}) in
  let s2 := tick defaultEmailConfig transport_up s1 30000 in
  map (fun e => (QueuedEmail.id e, QueuedEmail.status e, QueuedEmail.subject e,
                 QueuedEmail.textContent e, QueuedEmail.sentAt e)) (queue s2)
  = [(3, "failed", "Verify", None, None);
     (9, "sent", "Welcome, dave!", Some "Hi dave, start at {{dashboardUrl}}",
      Some 30020)].
Proof. reflexivity. Qed.

(** ** Input validation: the language of the two tests *)

Lemma split_at_sign_spec l loc dom :
  split_at_sign l = Some (loc, dom) ->
  l = (loc ++ "@"%char :: dom)%list.
Proof.
  revert loc. induction l as [|c l IH]; simpl; intros loc; [discriminate|].
  destruct (code c =? 64)%N eqn:E.
  - intros [= <- <-]. simpl. f_equal.
    apply N.eqb_eq in E. unfold code in E.
    rewrite <- (ascii_N_embedding c), E. reflexivity.
  - destruct (split_at_sign l) as [[a b]|]; [|discriminate].
    intros [= <- <-]. simpl. f_equal. now apply IH.
Qed.

Lemma split_at_sign_plain loc dom :
  forallb is_plain loc = true ->
  split_at_sign (loc ++ "@"%char :: dom) = Some (loc, dom).
Proof.
  induction loc as [|c loc IH]; simpl; [reflexivity|].
  intros H. apply andb_true_iff in H as [Hc Hl].
  unfold is_plain in Hc. apply andb_true_iff in Hc as [_ Hc].
  apply negb_true_iff in Hc. now rewrite Hc, (IH Hl).
Qed.

Lemma dot_before_end_spec l :
  dot_before_end l = true <->
  exists a b, l = (a ++ "."%char :: b)%list /\ b <> [].
Proof.
  induction l as [|c l IH]; simpl.
  - split; [discriminate|]. intros (a & b & H & _). now destruct a.
  - rewrite orb_true_iff, andb_true_iff, IH. split.
    + intros [[Hc Hl]|(a & b & -> & Hb)].
      * exists [], l. split.
        -- simpl. f_equal. apply N.eqb_eq in Hc. unfold code in Hc.
           rewrite <- (ascii_N_embedding c), Hc. reflexivity.
        -- destruct l; [discriminate|congruence].
      * exists (c :: a), b. auto.
    + intros (a & b & H & Hb). destruct a as [|x a]; simpl in H.
      * injection H as -> ->. left. split; [reflexivity|].
        destruct b; [congruence|reflexivity].
      * injection H as -> ->. right. eauto.
Qed.

(** validateEmail decides the language of its regular expression.  An email
    is accepted exactly when its code units are a non-empty run of plain
    characters, an at sign, a non-empty run of plain characters, a dot and a
    non-empty run of plain characters, where plain means neither white space
    nor an at sign. *)
Theorem validateEmail_decides_the_pattern (email : string) :
  validateEmail email = true <->
  exists loc d1 d2,
    chars email = (loc ++ "@"%char :: d1 ++ "."%char :: d2)%list
    /\ loc <> [] /\ d1 <> [] /\ d2 <> []
    /\ forallb is_plain loc = true /\ forallb is_plain d1 = true
    /\ forallb is_plain d2 = true.
Proof.
  unfold validateEmail. split.
  - destruct (split_at_sign (chars email)) as [[loc dom]|] eqn:Es; [|discriminate].
    apply split_at_sign_spec in Es.
    rewrite !andb_true_iff. intros [[[Hne Hloc] Hdom] Hdot].
    destruct dom as [|c dom']; [discriminate|].
    apply dot_before_end_spec in Hdot as (a & b & -> & Hb).
    exists loc, (c :: a), b. rewrite Es.
    change (c :: a ++ "."%char :: b)%list with ((c :: a) ++ "."%char :: b)%list in Hdom.
    rewrite forallb_app in Hdom. apply andb_true_iff in Hdom as [Hd1 Hd2].
    simpl in Hd2.
    repeat split; auto; try discriminate.
    destruct loc; [discriminate|discriminate].
  - intros (loc & d1 & d2 & Hc & Hl & H1 & H2 & Pl & P1 & P2).
    rewrite Hc, (split_at_sign_plain loc _ Pl).
    rewrite !andb_true_iff. repeat split.
    + destruct loc; [congruence|reflexivity].
    + exact Pl.
    + rewrite forallb_app, P1. simpl. now rewrite P2.
    + destruct d1 as [|c d1]; [congruence|]. simpl.
      apply dot_before_end_spec. exists d1, d2. auto.
Qed.

(** validatePassword: what counts and what does not.  A password made of
    letters, digits and underscores only is refused, whatever its length: the
    underscore is no special character.  And an accepted password stays
    accepted when any string is put before or after it: there is no upper
    bound on the length and no forbidden character. *)
Theorem validatePassword_word_only_and_extension (pw before after : string) :
  (forallb is_word (chars pw) = true -> validatePassword pw = false)
  /\ (validatePassword pw = true ->
      validatePassword (before ++ pw ++ after)%string = true).
Proof.
  split.
  - intros Hw. unfold validatePassword.
    assert (Hn : existsb (fun c => negb (is_word c)) (chars pw) = false).
    { induction (chars pw) as [|c l IH]; [reflexivity|]. simpl in *.
      apply andb_true_iff in Hw as [Hc Hl]. now rewrite Hc, (IH Hl). }
    rewrite Hn. apply andb_false_r.
  - unfold validatePassword. rewrite !andb_true_iff.
    intros [[[[Hlen Hu] Hl] Hd] Hs].
    rewrite !chars_append, !existsb_app, Hu, Hl, Hd, Hs, !orb_true_r.
    repeat split; try reflexivity.
    apply Nat.leb_le. apply Nat.leb_le in Hlen.
    assert (Happ : forall a b, String.length (a ++ b)%string
                               = (String.length a + String.length b)%nat).
    { intros a b. induction a as [|c a IH]; simpl; [reflexivity|]. now rewrite IH. }
    rewrite !Happ. lia.
Qed.

(** ** Lock-out expiry and the round trip of a password reset *)

Section Expiry.
Context {L : Libraries} (cfg : AuthConfig).

(** The lock-out ends by itself.  Once more than the window has passed
    since the last recorded failure of an identifier, login behaves exactly
    as if the identifier had no entry at all, whatever count it had reached:
    no clear is needed. *)
Theorem stale_entry_is_forgotten
    (now : Z) (rnd : string) (s : Sys) (email pw : string)
    (code tok : option string) (a : Attempts)
    (Hentry : loginAttempts s !! email = Some a)
    (Hstale : timeWindow cfg < now - lastAttempt a) :
  login cfg now rnd s email pw code tok
  = login cfg now rnd (mkSys (db s) (delete email (loginAttempts s)))
          email pw code tok.
Proof.
  unfold login. cbn [loginAttempts db].
  rewrite (checkRateLimit_stale cfg now _ email a Hentry Hstale).
  unfold checkRateLimit at 1. rewrite lookup_delete_eq. reflexivity.
Qed.

(** A password reset, end to end.  Let requestPasswordReset be called for
    the email of an existing user with a token value not yet stored.  Then a
    resetPassword with that value and a strong password succeeds exactly when
    it is made before passwordReset lifetime has passed since the request;
    when it succeeds, the row of that user holds the hash of the new password
    and the value can reset nothing again. *)
Theorem requested_reset_works_once_within_lifetime
    (now now' : Z) (rnd : string) (d : Db) (email pw : string) (u : User.t)
    (Huser : findUserByEmail d email = Some u)
    (Hfresh : forall r, In r (authTokens d) -> AuthToken.token r <> rnd)
    (Hpw : validatePassword pw = true) :
  OpResult.success
    (fst (resetPassword cfg now' (snd (requestPasswordReset cfg now rnd d email))
                        rnd pw))
  = (now' <? now + passwordResetTtl cfg)
  /\ (now' < now + passwordResetTtl cfg ->
      In (set_password (bcrypt_hash pw (bcryptRounds cfg)) u)
         (users (snd (resetPassword cfg now'
                        (snd (requestPasswordReset cfg now rnd d email)) rnd pw)))
      /\ In (User.mk (User.id u) (User.username u) (User.email u)
                     (bcrypt_hash pw (bcryptRounds cfg))
                     (User.displayName u) (User.role u) (User.isActive u))
            (users (snd (resetPassword cfg now'
                           (snd (requestPasswordReset cfg now rnd d email)) rnd pw)))
      /\ (forall u',
            In u' (users (snd (resetPassword cfg now'
                                 (snd (requestPasswordReset cfg now rnd d email))
                                 rnd pw))) ->
            User.id u' = User.id u ->
            User.password u' = bcrypt_hash pw (bcryptRounds cfg))
      /\ forall now2 pw2,
           OpResult.success
             (fst (resetPassword cfg now2
                     (snd (resetPassword cfg now'
                             (snd (requestPasswordReset cfg now rnd d email))
                             rnd pw))
                     rnd pw2)) = false).
Proof.
  pose proof (generateAuthToken_fresh now rnd d (User.id u) "password_reset"
                (passwordResetTtl cfg) Hfresh) as Hg.
  destruct (issue_then_verify_aux now rnd d (User.id u) "password_reset"
              (passwordResetTtl cfg) _ _ Hg) as [Hv _].
  specialize (Hv now' "password_reset"). rewrite String.eqb_refl in Hv. simpl in Hv.
  unfold requestPasswordReset. rewrite Huser, Hg. cbn [snd].
  match type of Hv with verifyAuthToken _ ?x _ _ = _ => set (d1 := x) in * end.
  set (h := bcrypt_hash pw (bcryptRounds cfg)).
  assert (Hfirst : resetPassword cfg now' d1 rnd pw
    = if now' <? now + passwordResetTtl cfg
      then (OpResult.mk true msg_reset_ok,
            invalidateUserSessions
              (markTokenAsUsed (updateUserPassword d1 (Some (User.id u)) h) rnd)
              (Some (User.id u)))
      else (OpResult.mk false msg_reset_invalid, d1)).
  { unfold resetPassword. rewrite Hpw, Hv.
    destruct (now' <? now + passwordResetTtl cfg); reflexivity. }
  rewrite Hfirst.
  destruct (now' <? now + passwordResetTtl cfg) eqn:Elt;
    cbn [fst snd OpResult.success].
  - split; [reflexivity|]. intros _.
    assert (Hrow : In (set_password h u)
              (users (invalidateUserSessions
                        (markTokenAsUsed
                           (updateUserPassword d1 (Some (User.id u)) h) rnd)
                        (Some (User.id u))))).
    { unfold invalidateUserSessions, markTokenAsUsed, updateUserPassword.
      cbn [users with_sessions with_authTokens with_users].
      apply in_map_iff. exists u. split.
      * cbn [col_eq_nullable col_eq]. now rewrite Z.eqb_refl.
      * unfold findUserByEmail in Huser. now apply find_some in Huser. }
    split; [exact Hrow|]. split; [exact Hrow|]. split.
    + unfold invalidateUserSessions, markTokenAsUsed, updateUserPassword.
      cbn [users with_sessions with_authTokens with_users].
      intros u' Hin Hid. apply in_map_iff in Hin as (x & <- & _).
      cbn [col_eq_nullable col_eq] in *.
      destruct (User.id x =? User.id u) eqn:E; [reflexivity|].
      apply Z.eqb_neq in E. congruence.
    + intros now2 pw2. unfold resetPassword.
      destruct (validatePassword pw2); [|reflexivity]. cbn [negb].
      assert (Hdead : verifyAuthToken now2
                (invalidateUserSessions
                   (markTokenAsUsed (updateUserPassword d1 (Some (User.id u)) h) rnd)
                   (Some (User.id u)))
                rnd "password_reset" = None).
      { exact (markTokenAsUsed_kills now2
                 (updateUserPassword d1 (Some (User.id u)) h) rnd "password_reset"). }
      now rewrite Hdead.
  - split; [reflexivity|]. intros Hlt. apply Z.ltb_lt in Hlt. congruence.
Qed.

End Expiry.

(** Three failures at time 0 are out of the window at time 1000000. *)
Lemma stale_entry_is_forgotten_witness :
  login (L := toy_libraries) defaultConfig 1000000 "5e55"
        (mkSys two_factor_db {[ "b@x.com" := mkAttempts 5 0 ]})
        "b@x.com" "B0b!Secret" None None
  = login (L := toy_libraries) defaultConfig 1000000 "5e55"
          (mkSys two_factor_db (delete "b@x.com" {[ "b@x.com" := mkAttempts 5 0 ]}))
          "b@x.com" "B0b!Secret" None None.
Proof.
  exact (stale_entry_is_forgotten (L := toy_libraries) defaultConfig 1000000 "5e55"
           (mkSys two_factor_db {[ "b@x.com" := mkAttempts 5 0 ]})
           "b@x.com" "B0b!Secret" None None (mkAttempts 5 0) eq_refl eq_refl).
Defined.

(** Alice asks for a reset at time 1000 and uses it one hour later, too late. *)
Lemma requested_reset_works_once_within_lifetime_witness :
  OpResult.success
    (fst (resetPassword (L := toy_libraries) defaultConfig 3601000
            (snd (requestPasswordReset defaultConfig 1000 "f00d" sample_db "a@x.com"))
            "f00d" "N3w!Passw0rd"))
  = false.
Proof.
  refine (proj1 (requested_reset_works_once_within_lifetime (L := toy_libraries)
            defaultConfig 1000 3601000 "f00d" sample_db "a@x.com" "N3w!Passw0rd"
            alice eq_refl _ eq_refl)).
  intros r [<-|[]]. discriminate.
Defined.

(** ** Seeding the templates *)

Lemma seed_extends defaults : forall n table,
  exists added,
    fst (seedEmailTemplates defaults n table) = (table ++ added)%list.
Proof.
  induction defaults as [|t rest IH]; intros n table; simpl.
  - exists []. now rewrite app_nil_r.
  - destruct (findTemplateByName table (seed_name t)).
    + apply IH.
    + destruct (IH (n + 1)
                   (table ++ [EmailTemplate.mk n (seed_name t) (seed_subject t)
                                (seed_html t) (seed_text t) true])%list)
        as [added Ha].
      eexists. rewrite Ha, <- app_assoc. reflexivity.
Qed.

Lemma findTemplateByName_extends table added name x :
  findTemplateByName table name = Some x ->
  findTemplateByName (table ++ added) name = Some x.
Proof. unfold findTemplateByName. intros H. now rewrite find_app, H. Qed.

Lemma seed_noop defaults : forall n table,
  (forall t, In t defaults -> findTemplateByName table (seed_name t) <> None) ->
  seedEmailTemplates defaults n table = (table, n).
Proof.
  induction defaults as [|t rest IH]; intros n table H; simpl; [reflexivity|].
  destruct (findTemplateByName table (seed_name t)) eqn:E.
  - apply IH. intros t' Ht'. apply H. now right.
  - exfalso. now apply (H t (or_introl eq_refl)).
Qed.

Lemma seed_covers defaults : forall n table t,
  In t defaults ->
  findTemplateByName (fst (seedEmailTemplates defaults n table)) (seed_name t)
  <> None.
Proof.
  induction defaults as [|t0 rest IH]; intros n table t Hin; [destruct Hin|].
  simpl. destruct Hin as [->|Hin].
  - destruct (findTemplateByName table (seed_name t)) as [x|] eqn:E.
    + destruct (seed_extends rest n table) as [added Ha]. rewrite Ha.
      now rewrite (findTemplateByName_extends _ added _ x E).
    + set (row := EmailTemplate.mk n (seed_name t) (seed_subject t)
                                   (seed_html t) (seed_text t) true).
      destruct (seed_extends rest (n + 1) (table ++ [row])%list) as [added Ha].
      rewrite Ha.
      rewrite (findTemplateByName_extends _ added _ row); [discriminate|].
      unfold findTemplateByName. rewrite find_app.
      unfold findTemplateByName in E. rewrite E. simpl.
      now rewrite String.eqb_refl.
  - destruct (findTemplateByName table (seed_name t0)); now apply IH.
Qed.

(** Seeding is safe to repeat.  seedEmailTemplates keeps every row of the
    table as it is and in its place, and only appends; afterwards a row
    exists for the name of every default; and seeding the result again, as
    every start of the service does, changes nothing and draws no id.  A row
    of that name that was edited or deactivated is therefore never replaced by
    the default. *)
Theorem seeding_keeps_rows_and_is_idempotent
    (defaults : list TemplateSeed) (n : Z) (table : list EmailTemplate.t) :
  (exists added,
     fst (seedEmailTemplates defaults n table) = (table ++ added)%list)
  /\ (forall t, In t defaults ->
        findTemplateByName (fst (seedEmailTemplates defaults n table))
                           (seed_name t) <> None)
  /\ seedEmailTemplates defaults
       (snd (seedEmailTemplates defaults n table))
       (fst (seedEmailTemplates defaults n table))
     = seedEmailTemplates defaults n table.
Proof.
  split; [apply seed_extends|]. split; [intros t; apply seed_covers|].
  rewrite seed_noop; [now destruct (seedEmailTemplates defaults n table)|].
  intros t. apply seed_covers.
Qed.

Example seeding_skips_a_deactivated_template :
  let off := EmailTemplate.mk 1 "welcome" "Old" "<p>old</p>" "old" false in
  seedEmailTemplates
    [mkSeed "welcome" "Welcome, {{name}}!" "<p>Hi</p>" "Hi";
     mkSeed "password_reset" "Reset" "<p>r</p>" "r"] 2 [off]
  = ([off; EmailTemplate.mk 2 "password_reset" "Reset" "<p>r</p>" "r" true], 3)
  /\ fst (sendTemplateEmail ∅ [off] neurocore_from 9 (mkMail [] 0 false [])
                            "welcome" "d@x.com" ∅)
     = false.
Proof. split; reflexivity. Qed.
